(** * The action-sequence execution engine of spotify_llm_controller

    A shallow embedding of [src/spotify_llm_controller/spotify_actions.py]:
    the retrying invoker, the five action handlers, the dispatcher, the
    sequence executor and the response formatter, followed by the
    properties of the engine that the specification states.

    Python dictionaries are association lists in insertion order, Python
    exceptions are values of an error monad that keeps the state reached
    when the exception was raised, and the remote session is a state
    machine supplied by the environment.  The exceptions are the instances
    of [Exception], which is what every [except] clause of the module
    names.  The cancellation of the task, [asyncio.CancelledError], derives
    from [BaseException] alone and passes these clauses: it is an outcome
    of its own, which the environment delivers while a tool call is
    awaited.  Logging calls are left out. *)

From Stdlib Require Import ZArith String Ascii List Bool Lia.
From Stdlib Require Import DecimalString.
From Stdlib Require Import Floats.PrimFloat.
Import ListNotations.

Set Warnings "-register-all".

Local Open Scope string_scope.
Local Open Scope list_scope.
Local Open Scope Z_scope.

(** ** Python values *)

Module Py.

(** The values that [json.loads] produces and that the handlers build. *)
Inductive value : Type :=
| VNone
| VBool (b : bool)
| VInt (n : Z)
| VFloat (f : float)
| VStr (s : string)
| VList (l : list value)
| VDict (d : list (string * value)).

(** A [dict] with string keys, in insertion order. *)
Definition dict : Type := list (string * value).

(** The classes of exception that the code tells apart.  [OtherError]
    stands for every other subclass of [Exception]; it is a subclass of
    none of the named ones. *)
Inductive exn_class : Type :=
| JSONDecodeError
| KeyError
| IndexError
| TypeError
| AttributeError
| OtherError (name : string).

(** An exception: its class and [str(e)]. *)
Record exn : Type := mk_exn { exn_cls : exn_class; exn_msg : string }.

(** The result of evaluating an expression: a value or a raised exception. *)
Inductive res (A : Type) : Type :=
| Ok (a : A)
| Raise (e : exn).
Arguments Ok {A} a.
Arguments Raise {A} e.

Definition res_bind {A B : Type} (r : res A) (k : A -> res B) : res B :=
  match r with
  | Ok a => k a
  | Raise e => Raise e
  end.

Notation "'let?' x ':=' r 'in' k" := (res_bind r (fun x => k))
  (at level 10, x pattern, r at level 100, k at level 200).

(** The line feed and the double quote, which a string literal cannot hold. *)
Definition nl : string := String (ascii_of_nat 10) EmptyString.
Definition dq : string := String (ascii_of_nat 34) EmptyString.

(** *** Dictionaries *)

Fixpoint lookup (k : string) (d : dict) : option value :=
  match d with
  | [] => None
  | (k', v) :: t => if String.eqb k' k then Some v else lookup k t
  end.

(** [k in d] *)
Definition has_key (k : string) (d : dict) : bool :=
  match lookup k d with
  | Some _ => true
  | None => false
  end.

(** [d.get(k, dflt)] *)
Definition py_get_default (d : dict) (k : string) (dflt : value) : value :=
  match lookup k d with
  | Some v => v
  | None => dflt
  end.

(** [d.get(k)] *)
Definition py_get (d : dict) (k : string) : value := py_get_default d k VNone.

(** [d[k] = v]: an existing key keeps its place, a new key goes last. *)
Fixpoint py_set (d : dict) (k : string) (v : value) : dict :=
  match d with
  | [] => [(k, v)]
  | (k', v') :: t =>
      if String.eqb k' k then (k, v) :: t else (k', v') :: py_set t k v
  end.

(** *** Operations on values *)

(** [bool(v)] *)
Definition truthy (v : value) : bool :=
  match v with
  | VNone => false
  | VBool b => b
  | VInt n => negb (Z.eqb n 0)
  | VFloat f => negb (PrimFloat.eqb f PrimFloat.zero)
  | VStr s => negb (String.eqb s "")
  | VList l => match l with [] => false | _ :: _ => true end
  | VDict d => match d with [] => false | _ :: _ => true end
  end.

(** [type(v).__name__] *)
Definition type_name (v : value) : string :=
  match v with
  | VNone => "NoneType"
  | VBool _ => "bool"
  | VInt _ => "int"
  | VFloat _ => "float"
  | VStr _ => "str"
  | VList _ => "list"
  | VDict _ => "dict"
  end.

(** [v == "s"] for a string literal [s] *)
Definition v_eq_str (v : value) (s : string) : bool :=
  match v with
  | VStr s' => String.eqb s' s
  | _ => false
  end.

(** [isinstance(v, list)] *)
Definition is_list (v : value) : bool :=
  match v with
  | VList _ => true
  | _ => false
  end.

Definition attribute_error (tn attr : string) : exn :=
  mk_exn AttributeError ("'" ++ tn ++ "' object has no attribute '" ++ attr ++ "'").

Definition not_subscriptable (v : value) : exn :=
  mk_exn TypeError ("'" ++ type_name v ++ "' object is not subscriptable").

(** [v.get(k, dflt)] on a value that need not be a dictionary *)
Definition v_get_default (v : value) (k : string) (dflt : value) : res value :=
  match v with
  | VDict d => Ok (py_get_default d k dflt)
  | _ => Raise (attribute_error (type_name v) "get")
  end.

(** [v.get(k)] *)
Definition v_get (v : value) (k : string) : res value := v_get_default v k VNone.

(** [v[k]] for a string key [k] *)
Definition v_getitem (v : value) (k : string) : res value :=
  match v with
  | VDict d =>
      match lookup k d with
      | Some x => Ok x
      | None => Raise (mk_exn KeyError ("'" ++ k ++ "'"))
      end
  | VStr _ => Raise (mk_exn TypeError "string indices must be integers, not 'str'")
  | VList _ => Raise (mk_exn TypeError "list indices must be integers or slices, not str")
  | _ => Raise (not_subscriptable v)
  end.

(** [v[0]] *)
Definition v_getitem0 (v : value) : res value :=
  match v with
  | VList [] => Raise (mk_exn IndexError "list index out of range")
  | VList (x :: _) => Ok x
  | VStr EmptyString => Raise (mk_exn IndexError "string index out of range")
  | VStr (String c _) => Ok (VStr (String c EmptyString))
  | VDict _ => Raise (mk_exn KeyError "0")
  | _ => Raise (not_subscriptable v)
  end.

(** [needle in s] for two strings *)
Definition is_substring (needle s : string) : bool :=
  match String.index 0 needle s with
  | Some _ => true
  | None => false
  end.

(** [needle in v] for a string literal [needle] *)
Definition v_contains (needle : string) (v : value) : res bool :=
  match v with
  | VDict d => Ok (has_key needle d)
  | VList l => Ok (existsb (fun x => v_eq_str x needle) l)
  | VStr s => Ok (is_substring needle s)
  | _ => Raise (mk_exn TypeError
                  ("argument of type '" ++ type_name v ++ "' is not iterable"))
  end.

(** The number of characters of a text, which is held as UTF-8: the
    bytes that do not continue a character, those not of the form
    [10xxxxxx]. *)
Fixpoint code_points (s : string) : nat :=
  match s with
  | EmptyString => 0
  | String c r =>
      if Nat.leb 128 (nat_of_ascii c) && Nat.ltb (nat_of_ascii c) 192
      then code_points r
      else S (code_points r)
  end.

(** [len(v)] *)
Definition py_len (v : value) : res Z :=
  match v with
  | VStr s => Ok (Z.of_nat (code_points s))
  | VList l => Ok (Z.of_nat (List.length l))
  | VDict d => Ok (Z.of_nat (List.length d))
  | _ => Raise (mk_exn TypeError
                  ("object of type '" ++ type_name v ++ "' has no len()"))
  end.

(** [str(n)] for an integer *)
Definition str_of_Z (n : Z) : string := NilZero.string_of_int (Z.to_int n).

(** [v + s] for a string [s] *)
Definition py_add_str (v : value) (s : string) : res value :=
  match v with
  | VStr m => Ok (VStr (m ++ s))
  | VList _ =>
      Raise (mk_exn TypeError
               ("can only concatenate list (not " ++ dq ++ "str" ++ dq ++ ") to list"))
  | _ =>
      Raise (mk_exn TypeError
               ("unsupported operand type(s) for +: '" ++ type_name v ++ "' and 'str'"))
  end.

(** [s.replace('_', ' ')] *)
Fixpoint replace_underscore (s : string) : string :=
  match s with
  | EmptyString => EmptyString
  | String c t =>
      String (if Ascii.eqb c "_"%char then " "%char else c) (replace_underscore t)
  end.

(** [xs[-1]] *)
Definition py_last {A : Type} (xs : list A) : res A :=
  match rev xs with
  | x :: _ => Ok x
  | [] => Raise (mk_exn IndexError "list index out of range")
  end.

End Py.
Import Py.

(** ** The remote session, the runtime and the state of a run *)

(** One element of [result.content]; only a text element has a [text]
    attribute. *)
Inductive content_item : Type :=
| TextContent (text : string)
| OtherContent.

(** The object a tool call returns. *)
Record tool_result : Type := mk_tool_result {
  isError : bool;
  content : list content_item
}.

(** What one [await session.call_tool(...)] comes to: the call returns a
    result, it raises an exception, or the task is cancelled while it
    waits for the answer. *)
Inductive reply : Type :=
| Returns (r : tool_result)
| Raises (e : exn)
| Cancels.

(** What running a coroutine comes to: it returns or raises as a
    function does, or the task is cancelled at one of its awaits.  The
    cancellation is [asyncio.CancelledError], which is no instance of
    [Exception]: no [except] clause of the code catches it, so it is kept
    apart from the exceptions of [exn], which are. *)
Inductive ending (A : Type) : Type :=
| Done (r : res A)
| Cancelled.
Arguments Done {A} r.
Arguments Cancelled {A}.

Coercion Done : res >-> ending.

Arguments pair {A B} & a b.

(** What the code takes from outside the repository: the session (a state
    machine answering tool calls), [json.loads], and [repr] of the values
    that are not strings, integers, booleans or [None]. *)
Record runtime : Type := mk_runtime {
  session_state : Type;
  call_tool : session_state -> string -> dict -> reply * session_state;
  json_loads : string -> res value;
  py_repr : value -> string
}.

(** From [config.py]. *)
Definition MAX_RETRIES : Z := 3.
Definition RETRY_DELAY : Z := 1.

(** What a run does that can be observed: the tool calls it sends with the
    parameters they carry and the time it sleeps; and, as a record of the
    executor's own control flow, the steps it dispatches and whether it
    calls the response formatter. *)
Inductive event : Type :=
| EvDispatch (tool_name : string) (params : nat)
| EvCallTool (tool_name : string) (params : dict)
| EvSleep (seconds : Z)
| EvFormat.

(** [next((msg.text for msg in content if hasattr(msg, 'text')), dflt)] *)
Fixpoint first_text (content : list content_item) (dflt : string) : string :=
  match content with
  | [] => dflt
  | TextContent t :: _ => t
  | OtherContent :: rest => first_text rest dflt
  end.

Section Engine.

Context (R : runtime).

(** The mutable state of a run: the session, the events so far (oldest
    first), the [params] dictionaries of the actions, each at its address,
    and the [context] dictionary of the executor. *)
Record world : Type := mk_world {
  sess : session_state R;
  trace : list event;
  heap : nat -> dict;
  ctx : dict
}.

Definition with_trace (w : world) (t : list event) : world :=
  mk_world (sess w) t (heap w) (ctx w).

Definition with_heap (w : world) (h : nat -> dict) : world :=
  mk_world (sess w) (trace w) h (ctx w).

Definition with_ctx (w : world) (c : dict) : world :=
  mk_world (sess w) (trace w) (heap w) c.

(** *** The monad of the engine: state, and exceptions and the
    cancellation, which keep the state *)

Definition M (A : Type) : Type := world -> ending A * world.

Definition ret {A : Type} (a : A) : M A := fun w => (Ok a, w).

Definition raise {A : Type} (e : exn) : M A := fun w => (Raise e, w).

Definition bind {A B : Type} (m : M A) (k : A -> M B) : M B :=
  fun w =>
    match m w with
    | (Done (Ok a), w') => k a w'
    | (Done (Raise e), w') => (Raise e, w')
    | (Cancelled, w') => (Cancelled, w')
    end.

(** Runs [m] and hands back its value or its exception, for an [except]
    clause to look at; the cancellation passes. *)
Definition attempt {A : Type} (m : M A) : M (res A) :=
  fun w =>
    match m w with
    | (Done r, w') => (Ok r, w')
    | (Cancelled, w') => (Cancelled, w')
    end.

Definition lift {A : Type} (r : res A) : M A := fun w => (r, w).

Notation "'let*' x ':=' m 'in' k" := (bind m (fun x => k))
  (at level 10, x pattern, m at level 100, k at level 200).

Notation "m ';;' k" := (bind m (fun _ => k))
  (at level 100, k at level 200, right associativity).

(** [try: body except <classes> as e: handler e] *)
Definition try_except {A : Type} (body : M A) (caught : exn -> bool)
    (handler : exn -> M A) : M A :=
  let* r := attempt body in
  match r with
  | Ok a => ret a
  | Raise e => if caught e then handler e else raise e
  end.

Definition emit (e : event) : M unit :=
  fun w => (Ok tt, with_trace w (trace w ++ [e])).

(** The dictionary at address [p]. *)
Definition read_params (p : nat) : M dict := fun w => (Ok (heap w p), w).

(** [params[k] = v] on the dictionary at address [p] *)
Definition set_param (p : nat) (k : string) (v : value) : M unit :=
  fun w =>
    (Ok tt, with_heap w (fun q => if Nat.eqb q p then py_set (heap w p) k v
                                  else heap w q)).

(** [context.get(k)] *)
Definition ctx_get (k : string) : M value := fun w => (Ok (py_get (ctx w) k), w).

(** [context[k] = v] *)
Definition ctx_set (k : string) (v : value) : M unit :=
  fun w => (Ok tt, with_ctx w (py_set (ctx w) k v)).

(** [await session.call_tool(tool_name, params)] *)
Definition session_call (tool_name : string) (p : nat) : M tool_result :=
  fun w =>
    let d := heap w p in
    let (rep, s') := call_tool R (sess w) tool_name d in
    let w' := mk_world s' (trace w ++ [EvCallTool tool_name d]) (heap w) (ctx w) in
    match rep with
    | Returns r => (Ok r, w')
    | Raises e => (Raise e, w')
    | Cancels => (Cancelled, w')
    end.

(** [await asyncio.sleep(seconds)]; the sleep runs to its end, a
    cancellation of the task being delivered at a tool call. *)
Definition sleep (seconds : Z) : M unit := emit (EvSleep seconds).

(** [str(v)], as an f-string formats [v] *)
Definition py_str (v : value) : string :=
  match v with
  | VStr s => s
  | VNone => "None"
  | VBool true => "True"
  | VBool false => "False"
  | VInt n => str_of_Z n
  | _ => py_repr R v
  end.

(** ** The retrying invoker *)

(** The [while retries < max_retries] loop of [call_tool_with_retry];
    [fuel] bounds the number of iterations, and [max_retries - retries]
    of it is enough for the loop to end by itself. *)
Fixpoint retry_loop (fuel : nat) (tool_name : string) (p : nat)
    (max_retries retries : Z) : M (option tool_result) :=
  if retries <? max_retries then
    match fuel with
    | O => ret None
    | S fuel' =>
        let* r := attempt (session_call tool_name p) in
        match r with
        | Ok result => ret (Some result)
        | Raise e =>
            let retries := retries + 1 in
            if retries >=? max_retries then raise e
            else
              sleep (RETRY_DELAY * 2 ^ (retries - 1)) ;;
              retry_loop fuel' tool_name p max_retries retries
        end
    end
  else ret None.

(** [call_tool_with_retry(session, tool_name, params, max_retries)]; [None]
    is Python's [None], returned when the loop is left without a call. *)
Definition call_tool_with_retry (tool_name : string) (p : nat)
    (max_retries : Z) : M (option tool_result) :=
  retry_loop (Z.to_nat max_retries) tool_name p max_retries 0.

(** The object behind [result] when the attribute [attr] is read from it:
    reading an attribute of [None] raises. *)
Definition the_result (result : option tool_result) (attr : string)
    : res tool_result :=
  match result with
  | Some r => Ok r
  | None => Raise (attribute_error "NoneType" attr)
  end.

(** [{"error": msg}] *)
Definition error_record (msg : string) : dict := [("error", VStr msg)].

(** ** The action handlers *)

(** [except (json.JSONDecodeError, KeyError, IndexError)] *)
Definition caught_by_search (e : exn) : bool :=
  match exn_cls e with
  | JSONDecodeError | KeyError | IndexError => true
  | _ => false
  end.

(** [except (json.JSONDecodeError, KeyError)] *)
Definition caught_by_get_info (e : exn) : bool :=
  match exn_cls e with
  | JSONDecodeError | KeyError => true
  | _ => false
  end.

(** [except Exception] *)
Definition caught_always (e : exn) : bool := true.

(** The artist of a search hit: the first element of a list-typed
    [artists], else [item.get("artist", "Unknown Artist")]. *)
Definition artist_of (item : value) : res value :=
  let? has_artists := v_contains "artists" item in
  let? from_list :=
    (if has_artists then
       let? artists := v_getitem item "artists" in Ok (is_list artists)
     else Ok false) in
  if from_list then
    let? artists := v_getitem item "artists" in
    v_getitem0 artists
  else v_get_default item "artist" (VStr "Unknown Artist").

(** The [search_result] dictionary that [handle_search_action] builds from
    the first album ([kind = "album"]) or track ([kind = "track"]). *)
Definition search_result_of (kind : string) (item : value) : res dict :=
  let? artist := artist_of item in
  let? name := v_getitem item "name" in
  let? item_id := v_getitem item "id" in
  Ok [("name", name);
      ("uri", VStr ("spotify:" ++ kind ++ ":" ++ py_str item_id));
      ("id", item_id);
      ("artist", artist);
      ("type", VStr kind)].

(** [{"action": "search", "result": search_result}] *)
Definition search_success (search_result : dict) : dict :=
  [("action", VStr "search"); ("result", VDict search_result)].

(** The [try] block of [handle_search_action]. *)
Definition parse_search_result (p : nat) (r : tool_result) : M dict :=
  let result_text := first_text (content r) "{}" in
  let* result_data := lift (json_loads R result_text) in
  let* params := read_params p in
  let* use_album :=
    (if v_eq_str (py_get params "qtype") "album" then
       let* albums := lift (v_get result_data "albums") in ret (truthy albums)
     else ret false) in
  if use_album then
    let* albums := lift (v_getitem result_data "albums") in
    let* album := lift (v_getitem0 albums) in
    let* search_result := lift (search_result_of "album" album) in
    ret (search_success search_result)
  else
    let* tracks := lift (v_get result_data "tracks") in
    if truthy tracks then
      let* tracks := lift (v_getitem result_data "tracks") in
      let* track := lift (v_getitem0 tracks) in
      let* search_result := lift (search_result_of "track" track) in
      ret (search_success search_result)
    else
      ret (error_record
             ("No results found for query: " ++ py_str (py_get params "query"))).

Definition handle_search_action (p : nat) : M dict :=
  let* result := call_tool_with_retry "SpotifySearch" p MAX_RETRIES in
  match result with
  | None => ret (error_record "No search results found")
  | Some r =>
      if isError r then ret (error_record "No search results found")
      else
        try_except (parse_search_result p r) caught_by_search
          (fun _ => ret (error_record "Failed to parse search results"))
  end.

(** The [try] block of [handle_get_info_action]. *)
Definition parse_album_info (r : tool_result) : M dict :=
  let result_text := first_text (content r) "{}" in
  let* album_data := lift (json_loads R result_text) in
  let* album_tracks := lift (v_get_default album_data "tracks" (VList [])) in
  if negb (truthy album_tracks) then ret (error_record "No tracks found in album")
  else
    ctx_set "album_tracks" album_tracks ;;
    ret [("action", VStr "get_info"); ("result", album_data)].

Definition handle_get_info_action (p : nat) : M dict :=
  let* search_result := ctx_get "search_result" in
  let* params := read_params p in
  (if truthy search_result && negb (truthy (py_get params "item_uri")) then
     let* uri := lift (v_getitem search_result "uri") in
     set_param p "item_uri" uri
   else ret tt) ;;
  let* result := call_tool_with_retry "SpotifyGetInfo" p MAX_RETRIES in
  let* r := lift (the_result result "isError") in
  if isError r then ret (error_record "Failed to get album tracks")
  else
    try_except (parse_album_info r) caught_by_get_info
      (fun _ => ret (error_record "Failed to parse album information")).

(** ["album" if search_result["type"] == "album" else "track"] *)
Definition item_type_of (search_result : value) : res string :=
  let? ty := v_getitem search_result "type" in
  Ok (if v_eq_str ty "album" then "album" else "track").

(** [f"{item_type} {search_result['name']} by {search_result['artist']}"] *)
Definition describe_item (item_type : string) (search_result : value) : res string :=
  let? name := v_getitem search_result "name" in
  let? artist := v_getitem search_result "artist" in
  Ok (item_type ++ " " ++ py_str name ++ " by " ++ py_str artist)%string.

(** The success dictionary of [handle_playback_action]. *)
Definition playback_response (params : dict) (search_result : value) : res dict :=
  if v_eq_str (py_get params "action") "start" then
    if truthy search_result then
      let? item_type := item_type_of search_result in
      let? what := describe_item item_type search_result in
      Ok [("action", VStr "playback");
          ("type", py_get params "action");
          ("message", VStr ("Playing " ++ what));
          ("item", search_result)]
    else
      Ok [("action", VStr "playback");
          ("type", VStr "resume");
          ("message", VStr "Resuming playback")]
  else if v_eq_str (py_get params "action") "pause" then
    Ok [("action", VStr "playback");
        ("type", VStr "pause");
        ("message", VStr "Playback paused")]
  else if v_eq_str (py_get params "action") "skip" then
    Ok [("action", VStr "playback");
        ("type", VStr "skip");
        ("message", VStr "Skipped to next track")]
  else
    Ok [("action", VStr "playback");
        ("type", py_get_default params "action" (VStr "unknown"));
        ("message", VStr "Playback command executed")].

Definition handle_playback_action (p : nat) : M dict :=
  let* search_result := ctx_get "search_result" in
  let* params := read_params p in
  (if v_eq_str (py_get params "action") "start" then
     if truthy search_result && negb (truthy (py_get params "spotify_uri")) then
       let* uri := lift (v_getitem search_result "uri") in
       let* has_colon := lift (v_contains ":" uri) in
       if negb has_colon then
         let* uri := lift (v_getitem search_result "uri") in
         set_param p "spotify_uri" (VStr ("spotify:track:" ++ py_str uri))
       else
         let* uri := lift (v_getitem search_result "uri") in
         set_param p "spotify_uri" uri
     else ret tt
   else ret tt) ;;
  let* result := call_tool_with_retry "SpotifyPlayback" p MAX_RETRIES in
  let* r := lift (the_result result "isError") in
  let* params := read_params p in
  if isError r then
    let error_msg := ("Playback action failed: " ++ py_str (py_get params "action"))%string in
    let error_content := first_text (content r) "" in
    ret (error_record (error_msg ++ ": " ++ error_content))
  else lift (playback_response params search_result).

Definition handle_queue_action (p : nat) : M dict :=
  let* search_result := ctx_get "search_result" in
  let* params := read_params p in
  if negb (truthy (py_get params "track_id")) && negb (truthy search_result) then
    ret (error_record "No track ID available for queue")
  else
    (if truthy search_result && negb (truthy (py_get params "track_id")) then
       let* uri := lift (v_getitem search_result "uri") in
       set_param p "track_id" uri
     else ret tt) ;;
    let* result := call_tool_with_retry "SpotifyQueue" p MAX_RETRIES in
    let* r := lift (the_result result "isError") in
    if isError r then
      let error_msg := "Failed to add to queue" in
      let error_content := first_text (content r) "" in
      ret (error_record (error_msg ++ ": " ++ error_content))
    else if truthy search_result then
      let* item_type := lift (item_type_of search_result) in
      let* what := lift (describe_item item_type search_result) in
      ret [("action", VStr "queue");
           ("message", VStr ("Added " ++ what ++ " to queue"));
           ("item", search_result)]
    else
      ret [("action", VStr "queue"); ("message", VStr "Added item to queue")].

(** The [try] block of the [get] and [get_tracks] branches: the decoded
    payload under the key [field], with its length in the message. *)
Definition parse_listing (r : tool_result) (action field what : string) : M dict :=
  let result_text := first_text (content r) "{}" in
  let* items := lift (json_loads R result_text) in
  let* n := lift (py_len items) in
  ret [("action", VStr action);
       ("message", VStr ("Found " ++ str_of_Z n ++ " " ++ what));
       (field, items)].

Definition handle_playlist_action (p : nat) : M dict :=
  let* params := read_params p in
  let action_type := py_get params "action" in
  if v_eq_str action_type "get" then
    let* result := call_tool_with_retry "SpotifyPlaylist" p MAX_RETRIES in
    let* r := lift (the_result result "isError") in
    if isError r then ret (error_record "Failed to get playlists")
    else
      try_except (parse_listing r "playlist_get" "playlists" "playlists")
        caught_always (fun _ => ret (error_record "Failed to parse playlists"))
  else if v_eq_str action_type "get_tracks" then
    if negb (truthy (py_get params "playlist_id")) then
      ret (error_record "playlist_id is required for get_tracks action")
    else
      let* result := call_tool_with_retry "SpotifyPlaylist" p MAX_RETRIES in
      let* r := lift (the_result result "isError") in
      if isError r then ret (error_record "Failed to get playlist tracks")
      else
        try_except (parse_listing r "playlist_get_tracks" "tracks" "tracks in playlist")
          caught_always (fun _ => ret (error_record "Failed to parse playlist tracks"))
  else if v_eq_str action_type "add_tracks" || v_eq_str action_type "remove_tracks" then
    if negb (truthy (py_get params "playlist_id"))
       || negb (truthy (py_get params "track_ids")) then
      ret (error_record ("playlist_id and track_ids are required for "
                           ++ py_str action_type ++ " action"))
    else
      let* result := call_tool_with_retry "SpotifyPlaylist" p MAX_RETRIES in
      let* r := lift (the_result result "isError") in
      if isError r then
        ret (error_record ("Failed to " ++ replace_underscore (py_str action_type)))
      else
        let action_name :=
          if v_eq_str action_type "add_tracks" then "added to" else "removed from" in
        ret [("action", VStr ("playlist_" ++ py_str action_type));
             ("message", VStr ("Tracks " ++ action_name ++ " playlist"))]
  else if v_eq_str action_type "change_details" then
    if negb (truthy (py_get params "playlist_id"))
       || (negb (truthy (py_get params "name"))
           && negb (truthy (py_get params "description"))) then
      ret (error_record "playlist_id and at least one of name or description are required")
    else
      let* result := call_tool_with_retry "SpotifyPlaylist" p MAX_RETRIES in
      let* r := lift (the_result result "isError") in
      if isError r then ret (error_record "Failed to change playlist details")
      else
        ret [("action", VStr "playlist_change_details");
             ("message", VStr "Playlist details updated")]
  else
    ret (error_record ("Unknown playlist action: " ++ py_str action_type)).

(** ** The dispatcher *)

Definition execute_single_action (tool_name : string) (p : nat) : M dict :=
  if String.eqb tool_name "SpotifySearch" then handle_search_action p
  else if String.eqb tool_name "SpotifyGetInfo" then handle_get_info_action p
  else if String.eqb tool_name "SpotifyPlayback" then handle_playback_action p
  else if String.eqb tool_name "SpotifyQueue" then handle_queue_action p
  else if String.eqb tool_name "SpotifyPlaylist" then handle_playlist_action p
  else ret (error_record ("Unsupported action: " ++ tool_name)).

(** ** The response formatter *)

(** ["error" in r] *)
Definition is_error (r : dict) : bool := has_key "error" r.

Definition format_final_response (results : list dict) : res dict :=
  let all_errors := filter is_error results in
  match all_errors with
  | _ :: _ =>
      if Nat.eqb (List.length all_errors) (List.length results) then
        py_last all_errors
      else
        let successful_actions := filter (fun r => negb (is_error r)) results in
        let? last_success := py_last successful_actions in
        let? message :=
          py_add_str (py_get_default last_success "message" (VStr "Partial success"))
                     (nl ++ "Some actions failed") in
        Ok [("message", message);
            ("details", VDict [("success", VDict last_success);
                               ("errors", VList (map VDict all_errors))])]
  | [] =>
      let? last := py_last results in
      Ok [("message", py_get_default last "message"
                        (VStr "Command executed successfully"));
          ("details", VDict last)]
  end.

(** ** The sequence executor *)

(** One element of [actions]: [action["tool_name"]] and the address of
    the dictionary [action["params"]]. *)
Record action : Type := mk_action {
  tool_name : string;
  params : nat
}.

(** How the [for] loop is left: by its [return result], or at its end
    with the list [results]. *)
Inductive loop_exit : Type :=
| Returned (result : dict)
| Finished (results : list dict).

(** [context = {"search_result": None, "album_tracks": None}] *)
Definition initial_context : dict :=
  [("search_result", VNone); ("album_tracks", VNone)].

Definition new_context : M unit :=
  fun w => (Ok tt, with_ctx w initial_context).

(** The [if "error" not in result] block at the end of the loop body. *)
Definition update_context (result : dict) : M unit :=
  if negb (is_error result) then
    if v_eq_str (py_get result "action") "search" then
      ctx_set "search_result" (py_get result "result")
    else if v_eq_str (py_get result "action") "get_info" then
      ctx_set "album_info" (py_get result "result")
    else ret tt
  else ret tt.

Section Executor.

(** The dispatcher the loop calls; the module binds it to
    [execute_single_action]. *)
Variable dispatch : string -> nat -> M dict.

(** One pass through the body of the [for] loop: the outcome of the step,
    and whether the body left the function with [return result]. *)
Definition step (a : action) : M (dict * bool) :=
  emit (EvDispatch (tool_name a) (params a)) ;;
  let* result := dispatch (tool_name a) (params a) in
  if is_error result && String.eqb (tool_name a) "SpotifySearch" then
    ret (result, true)
  else
    update_context result ;;
    ret (result, false).

(** The [for action in actions] loop, entered with the [results] so far. *)
Fixpoint run_actions (actions : list action) (results : list dict) : M loop_exit :=
  match actions with
  | [] => ret (Finished results)
  | a :: rest =>
      let* outcome := step a in
      let results := results ++ [fst outcome] in
      if snd outcome then ret (Returned (fst outcome))
      else run_actions rest results
  end.

(** The body of the [try] of [execute_spotify_actions]. *)
Definition execute_body (actions : list action) : M dict :=
  new_context ;;
  let* how := run_actions actions [] in
  match how with
  | Returned result => ret result
  | Finished results =>
      emit EvFormat ;;
      lift (format_final_response results)
  end.

Definition execute_with (actions : list action) : M dict :=
  try_except (execute_body actions) caught_always
    (fun e => ret (error_record (exn_msg e))).

End Executor.

Definition execute_spotify_actions (actions : list action) : M dict :=
  execute_with execute_single_action actions.

End Engine.

Arguments sess {R} w.
Arguments trace {R} w.
Arguments heap {R} w.
Arguments ctx {R} w.

(** ** The parser of the language model's reply

    [parse_llm_response] of [openai_helper.py], [parse_command_with_llm]
    of [client.py], and the test by which [handle_command] tells a parsed
    action list from an error object. *)

Section Parsing.

Context (R : runtime).

(** [ValueError(msg)] *)
Definition value_error (msg : string) : exn := mk_exn (OtherError "ValueError") msg.

(** [{"error": msg}] *)
Definition error_value (msg : string) : value := VDict (error_record msg).

(** The text from its first opening bracket on. *)
Fixpoint from_open_bracket (s : string) : option string :=
  match s with
  | EmptyString => None
  | String c r => if Ascii.eqb c "["%char then Some s else from_open_bracket r
  end.

(** The longest prefix of [s] that ends in a closing bracket. *)
Fixpoint upto_close_bracket (s : string) : option string :=
  match s with
  | EmptyString => None
  | String c r =>
      match upto_close_bracket r with
      | Some t => Some (String c t)
      | None => if Ascii.eqb c "]"%char then Some (String c EmptyString) else None
      end
  end.

(** [re.search(r'\[.*\]', content, re.DOTALL)], the text it matches: the
    search is for the leftmost match and the star is greedy, so the match
    runs from the first opening bracket to the last closing bracket after
    it; a later opening bracket has no closing bracket after it if the
    first has none. *)
Definition search_array (content : string) : option string :=
  match from_open_bracket content with
  | Some (String c r) => option_map (String c) (upto_close_bracket r)
  | _ => None
  end.

(** The checks of the [for action in parsed] loop on one element. *)
Definition check_action (action : value) : res unit :=
  match action with
  | VDict d =>
      if negb (has_key "tool_name" d) then
        Raise (value_error "Action missing tool_name")
      else if negb (has_key "params" d) then
        Raise (value_error "Action missing params")
      else Ok tt
  | _ => Raise (value_error "Each action must be a dictionary")
  end.

Fixpoint check_actions (actions : list value) : res unit :=
  match actions with
  | [] => Ok tt
  | a :: rest => let? _ := check_action a in check_actions rest
  end.

(** [isinstance(parsed, dict) and "error" in parsed and len(parsed) == 1] *)
Definition is_error_object (parsed : value) : bool :=
  match parsed with
  | VDict d => has_key "error" d && Nat.eqb (List.length d) 1
  | _ => false
  end.

(** What [parse_llm_response] does with the decoded reply. *)
Definition validate_parsed (parsed : value) : res value :=
  if is_error_object parsed then Ok parsed
  else
    let actions := match parsed with VList l => l | _ => [parsed] end in
    let? _ := check_actions actions in
    Ok (VList actions).

Definition parse_llm_response (content : string) : res value :=
  if String.eqb content "" then Ok (error_value "Received empty response from LLM")
  else
    match json_loads R content with
    | Ok parsed => validate_parsed parsed
    | Raise e =>
        match exn_cls e with
        | JSONDecodeError =>
            match search_array content with
            | Some text =>
                match json_loads R text with
                | Ok parsed => validate_parsed parsed
                | Raise _ => Ok (error_value "Failed to parse LLM response as JSON")
                end
            | None => Ok (error_value "LLM response is not valid JSON")
            end
        | _ => Raise e
        end
    end.

(** [parse_command_with_llm(command)]; [completion command] is what
    [OpenAIClient().create_completion] does with the prompt built from the
    command: it returns the reply or raises. *)
Definition parse_command_with_llm (completion : string -> res string)
    (command : string) : res value :=
  match (let? content := completion command in parse_llm_response content) with
  | Ok actions => Ok actions
  | Raise e => Ok (error_value ("Failed to parse command: " ++ exn_msg e))
  end.

(** [if "error" in actions: return actions] of [handle_command]: whether
    the parse result is returned as the response, without a session. *)
Definition returned_unexecuted (actions : value) : res bool :=
  v_contains "error" actions.

End Parsing.

(** ** A concrete runtime for running the engine

    A decoder and an encoder for the part of JSON without string escapes
    and fractional numbers, and a session that answers from a script as
    the mocks of the test suite do. *)

Module Json.

Inductive token : Type :=
| TLBrace | TRBrace | TLBrack | TRBrack | TColon | TComma
| TString (s : string)
| TInt (n : Z)
| TTrue | TFalse | TNull.

Definition is_space (c : ascii) : bool :=
  let n := nat_of_ascii c in
  Nat.eqb n 32 || Nat.eqb n 10 || Nat.eqb n 13 || Nat.eqb n 9.

Definition is_digit (c : ascii) : bool :=
  let n := nat_of_ascii c in Nat.leb 48 n && Nat.leb n 57.

Definition digit_of (c : ascii) : Z := Z.of_nat (nat_of_ascii c) - 48.

(** The characters up to the closing quote, and what follows it. *)
Fixpoint read_string (s acc : string) : option (string * string) :=
  match s with
  | EmptyString => None
  | String c r =>
      if Nat.eqb (nat_of_ascii c) 34 then Some (acc, r)
      else if Nat.eqb (nat_of_ascii c) 92 then None
      else if Nat.ltb (nat_of_ascii c) 32 then None
      else read_string r (acc ++ String c EmptyString)
  end.

Fixpoint read_digits (s : string) (acc : Z) : Z * string :=
  match s with
  | EmptyString => (acc, s)
  | String c r =>
      if is_digit c then read_digits r (10 * acc + digit_of c) else (acc, s)
  end.

(** A number token: digits without a leading zero, not followed by a
    fraction or an exponent. *)
Definition read_number (s : string) : option (Z * string) :=
  match s with
  | String c r =>
      if is_digit c then
        let (n, rest) := read_digits s 0 in
        let leading_zero :=
          match r with
          | String c' _ => Ascii.eqb c "0"%char && is_digit c'
          | EmptyString => false
          end in
        let fractional :=
          match rest with
          | String c' _ =>
              Ascii.eqb c' "."%char || Ascii.eqb c' "e"%char || Ascii.eqb c' "E"%char
          | EmptyString => false
          end in
        if leading_zero || fractional then None else Some (n, rest)
      else None
  | EmptyString => None
  end.

Definition strip_prefix (p s : string) : option string :=
  if String.prefix p s
  then Some (String.substring (String.length p) (String.length s - String.length p) s)
  else None.

Definition push (t : token) (ts : option (list token)) : option (list token) :=
  option_map (cons t) ts.

Fixpoint tokenize (fuel : nat) (s : string) : option (list token) :=
  match fuel with
  | O => None
  | S fuel' =>
      match s with
      | EmptyString => Some []
      | String c r =>
          if is_space c then tokenize fuel' r
          else if Ascii.eqb c "{"%char then push TLBrace (tokenize fuel' r)
          else if Ascii.eqb c "}"%char then push TRBrace (tokenize fuel' r)
          else if Ascii.eqb c "["%char then push TLBrack (tokenize fuel' r)
          else if Ascii.eqb c "]"%char then push TRBrack (tokenize fuel' r)
          else if Ascii.eqb c ":"%char then push TColon (tokenize fuel' r)
          else if Ascii.eqb c ","%char then push TComma (tokenize fuel' r)
          else if Nat.eqb (nat_of_ascii c) 34 then
            match read_string r EmptyString with
            | Some (str, rest) => push (TString str) (tokenize fuel' rest)
            | None => None
            end
          else if Ascii.eqb c "-"%char then
            match read_number r with
            | Some (n, rest) => push (TInt (- n)) (tokenize fuel' rest)
            | None => None
            end
          else if is_digit c then
            match read_number s with
            | Some (n, rest) => push (TInt n) (tokenize fuel' rest)
            | None => None
            end
          else
            match strip_prefix "true" s, strip_prefix "false" s, strip_prefix "null" s with
            | Some rest, _, _ => push TTrue (tokenize fuel' rest)
            | _, Some rest, _ => push TFalse (tokenize fuel' rest)
            | _, _, Some rest => push TNull (tokenize fuel' rest)
            | _, _, _ => None
            end
      end
  end.

(** A repeated key keeps its first place and its last value. *)
Definition object_of (members : list (string * value)) : value :=
  VDict (fold_left (fun d kv => py_set d (fst kv) (snd kv)) members []).

Fixpoint parse_value (fuel : nat) (ts : list token) : option (value * list token) :=
  match fuel with
  | O => None
  | S fuel' =>
      match ts with
      | TString s :: r => Some (VStr s, r)
      | TInt n :: r => Some (VInt n, r)
      | TTrue :: r => Some (VBool true, r)
      | TFalse :: r => Some (VBool false, r)
      | TNull :: r => Some (VNone, r)
      | TLBrack :: TRBrack :: r => Some (VList [], r)
      | TLBrack :: r =>
          match parse_elements fuel' r with
          | Some (vs, r') => Some (VList vs, r')
          | None => None
          end
      | TLBrace :: TRBrace :: r => Some (VDict [], r)
      | TLBrace :: r =>
          match parse_members fuel' r with
          | Some (kvs, r') => Some (object_of kvs, r')
          | None => None
          end
      | _ => None
      end
  end
with parse_elements (fuel : nat) (ts : list token) : option (list value * list token) :=
  match fuel with
  | O => None
  | S fuel' =>
      match parse_value fuel' ts with
      | Some (v, TRBrack :: r) => Some ([v], r)
      | Some (v, TComma :: r) =>
          match parse_elements fuel' r with
          | Some (vs, r') => Some (v :: vs, r')
          | None => None
          end
      | _ => None
      end
  end
with parse_members (fuel : nat) (ts : list token)
    : option (list (string * value) * list token) :=
  match fuel with
  | O => None
  | S fuel' =>
      match ts with
      | TString k :: TColon :: r =>
          match parse_value fuel' r with
          | Some (v, TRBrace :: r') => Some ([(k, v)], r')
          | Some (v, TComma :: r') =>
              match parse_members fuel' r' with
              | Some (kvs, r'') => Some ((k, v) :: kvs, r'')
              | None => None
              end
          | _ => None
          end
      | _ => None
      end
  end.

Definition decode_error : exn := mk_exn JSONDecodeError "Expecting value".

Definition loads (text : string) : res value :=
  match tokenize (S (String.length text)) text with
  | Some ts =>
      match parse_value (S (List.length ts)) ts with
      | Some (v, []) => Ok v
      | _ => Raise decode_error
      end
  | None => Raise decode_error
  end.

Definition quoted (s : string) : string := (dq ++ s ++ dq)%string.

Definition join (sep : string) (parts : list string) : string :=
  match parts with
  | [] => EmptyString
  | x :: rest => fold_left (fun acc y => (acc ++ sep ++ y)%string) rest x
  end.

(** [json.dumps(v)] for a value without floats and string escapes. *)
Fixpoint dumps (v : value) : string :=
  match v with
  | VNone => "null"
  | VBool true => "true"
  | VBool false => "false"
  | VInt n => str_of_Z n
  | VFloat _ => "NaN"
  | VStr s => quoted s
  | VList l => ("[" ++ join ", " (map dumps l) ++ "]")%string
  | VDict d =>
      ("{" ++ join ", " (map (fun kv => (quoted (fst kv) ++ ": " ++ dumps (snd kv))%string) d)
           ++ "}")%string
  end.

End Json.

(** A session that answers its calls from a script, in order, as an
    [AsyncMock] with a [side_effect] list does.  The runtime built on it
    decodes with [Json.loads]; for [repr] it has the JSON text, which no
    run below asks for. *)
Definition scripted_call (script : list reply) (tool_name : string) (params : dict)
    : reply * list reply :=
  match script with
  | r :: rest => (r, rest)
  | [] => (Raises (mk_exn (OtherError "StopAsyncIteration") EmptyString), [])
  end.

Definition scripted : runtime :=
  mk_runtime (list reply) scripted_call Json.loads Json.dumps.

(** A reply with one text element. *)
Definition text_reply (is_error : bool) (text : string) : reply :=
  Returns (mk_tool_result is_error [TextContent text]).

(** A call that raises [Exception(msg)]. *)
Definition failure (msg : string) : reply :=
  Raises (mk_exn (OtherError "Exception") msg).

(** The state in which a run over the script [script] starts. *)
Definition start (script : list reply) (h : nat -> dict) : world scripted :=
  mk_world scripted script [] h [].

(** A heap that holds the dictionaries [ds] at addresses 0, 1, ... *)
Definition heap_of (ds : list dict) : nat -> dict := fun p => nth p ds [].

(** *** Runs of the test suite and of the specification's scenarios *)

Definition track_with_artist_list : dict :=
  [("id", VStr "track123"); ("name", VStr "Test Song");
   ("artists", VList [VStr "Artist X"])].

Definition track_with_artist : dict :=
  [("id", VStr "track123"); ("name", VStr "Test Song"); ("artist", VStr "Artist X")].

Definition track_without_artist : dict :=
  [("id", VStr "track123"); ("name", VStr "Test Song")].

(** The text of a search reply that holds the one track [track]. *)
Definition tracks_text (track : dict) : string :=
  Json.dumps (VDict [("tracks", VList [VDict track])]).

Definition album_text : string :=
  Json.dumps (VDict [("albums", VList [VDict [("id", VStr "album123");
                                              ("name", VStr "Test Album");
                                              ("artists", VList [VStr "Test Artist"])]])]).

Definition album_tracks_text : string :=
  Json.dumps (VDict [("tracks", VList [VDict [("id", VStr "track1");
                                              ("name", VStr "Track 1")]])]).

Definition track_query : dict := [("query", VStr "test song"); ("qtype", VStr "track")].
Definition album_query : dict := [("query", VStr "test album"); ("qtype", VStr "album")].

(** A search for a track, answered with [text]. *)
Definition searching (text : string) : world scripted :=
  start [text_reply false text] (heap_of [track_query]).

(** A search that the server answers with no content at all. *)
Definition searching_in_vain : world scripted :=
  start [Returns (mk_tool_result false [])] (heap_of [[("query", VStr "nonexistent")]]).

(** Resume, then a search that the server reports as failed, then play. *)
Definition resume_search_play : list action :=
  [mk_action "SpotifyPlayback" 0; mk_action "SpotifySearch" 1;
   mk_action "SpotifyPlayback" 2].

Definition failing_search : world scripted :=
  start [text_reply false "ok"; Returns (mk_tool_result true [])]
    (heap_of [[("action", VStr "start")]; track_query; [("action", VStr "start")]]).

(** Queueing an album: search, info, queue, the later steps leaving
    their references to be filled in. *)
Definition queue_album : list action :=
  [mk_action "SpotifySearch" 0; mk_action "SpotifyGetInfo" 1;
   mk_action "SpotifyQueue" 2].

Definition queueing_album : world scripted :=
  start [text_reply false album_text; text_reply false album_tracks_text;
         text_reply false "ok"]
    (heap_of [album_query; [("item_uri", VNone)];
              [("action", VStr "add"); ("track_id", VNone)]]).

(** A search that succeeds and a playback that the server refuses. *)
Definition search_then_play : list action :=
  [mk_action "SpotifySearch" 0; mk_action "SpotifyPlayback" 1].

Definition refused_playback : world scripted :=
  start [text_reply false (tracks_text track_with_artist); text_reply true "boom"]
    (heap_of [track_query; [("action", VStr "start")]]).

(** A search whose three attempts all raise. *)
Definition unreachable_server : world scripted :=
  start [failure "down"; failure "down"; failure "still down"] (heap_of [track_query]).

(** Two searches in a row, both successful. *)
Definition two_searches : world scripted :=
  start [text_reply false (tracks_text track_with_artist);
         text_reply false (tracks_text track_without_artist)]
    (heap_of [track_query; track_query]).

(** A queue step and a playlist step that lack what they require. *)
Definition queue_without_track : world scripted :=
  start [text_reply false "ok"] (heap_of [[("action", VStr "add")]]).

Definition tracks_without_playlist : world scripted :=
  start [text_reply false "ok"] (heap_of [[("action", VStr "get_tracks")]]).

(** The world after the executor has created its context. *)
Definition entered (w : world scripted) : world scripted :=
  with_ctx scripted w initial_context.

(** The outcomes of [search_then_play] on [refused_playback]. *)
Definition found_song : dict :=
  search_success [("name", VStr "Test Song"); ("uri", VStr "spotify:track:track123");
                  ("id", VStr "track123"); ("artist", VStr "Artist X");
                  ("type", VStr "track")].

Definition refused : dict := error_record "Playback action failed: start: boom".

(** ** Notions the properties are stated with *)

(** The events by which the executor records its own control flow. *)
Definition is_control (e : event) : bool :=
  match e with
  | EvDispatch _ _ | EvFormat => true
  | EvCallTool _ _ | EvSleep _ => false
  end.

Definition control_events (t : list event) : list event := filter is_control t.

(** The event with which the executor records that it dispatches [a]. *)
Definition dispatch_event (a : action) : event :=
  EvDispatch (tool_name a) (params a).

(** The world in which the step [a] is dispatched from [w]. *)
Definition dispatching {R : runtime} (a : action) (w : world R) : world R :=
  with_trace R w (trace w ++ [dispatch_event a]).

(** The number of calls sent to the session. *)
Definition call_count (t : list event) : nat :=
  List.length (filter (fun e => match e with EvCallTool _ _ => true | _ => false end) t).

(** The events of [n] attempts at one tool call, the first of them being
    attempt number [attempt]: a sleep of [RETRY_DELAY * 2 ^ (attempt - 1)]
    seconds follows attempt [attempt] when another attempt comes. *)
Fixpoint attempts_trace (tool_name : string) (d : dict) (n : nat) (attempt : Z)
    : list event :=
  match n with
  | O => []
  | S O => [EvCallTool tool_name d]
  | S n' =>
      EvCallTool tool_name d :: EvSleep (RETRY_DELAY * 2 ^ (attempt - 1))
        :: attempts_trace tool_name d n' (attempt + 1)
  end.

(** The parameters that a handler fills in from the last search result. *)
Definition filled_key (k : string) : bool :=
  String.eqb k "item_uri" || String.eqb k "spotify_uri" || String.eqb k "track_id".

(** What a run may do to the [params] dictionaries between [w] and [w']:
    an entry is as it was, or it is one of the filled parameters and was
    absent or falsy in [w]. *)
Definition params_frame {R : runtime} (w w' : world R) : Prop :=
  forall (p : nat) (k : string),
    lookup k (heap w' p) = lookup k (heap w p)
    \/ (filled_key k = true /\ truthy (py_get (heap w p) k) = false).

(** What every handler leaves alone, and what it returns: the context is
    as it was, the [params] dictionaries change within [params_frame], no
    control event is recorded, and a returned outcome satisfies [P]. *)
Definition quiet_post {R : runtime} (P : dict -> Prop)
    (w : world R) (r : ending dict) (w' : world R) : Prop :=
  ctx w' = ctx w
  /\ params_frame w w'
  /\ control_events (trace w') = control_events (trace w)
  /\ (forall d, r = Ok d -> P d).

(** As [quiet_post], for a handler that does not write to [params]. *)
Definition silent_post {R : runtime} (P : dict -> Prop)
    (w : world R) (r : ending dict) (w' : world R) : Prop :=
  heap w' = heap w /\ quiet_post P w r w'.

(** An outcome is an error record or a success whose [action] is [name]. *)
Definition outcome_named (name : string) (d : dict) : Prop :=
  (exists msg, d = error_record msg)
  \/ (is_error d = false /\ py_get d "action" = VStr name).

(** The last element of [xs] that satisfies [p]. *)
Definition last_where {A : Type} (p : A -> bool) (xs : list A) : option A :=
  find p (rev xs).

(** ["error" not in r] *)
Definition is_success (r : dict) : bool := negb (is_error r).

(** The response to a partial failure. *)
Definition partial_response (message : string) (success : dict)
    (errors : list dict) : dict :=
  [("message", VStr (message ++ nl ++ "Some actions failed"));
   ("details", VDict [("success", VDict success);
                      ("errors", VList (map VDict errors))])].

(** The response to a run without errors. *)
Definition success_response (success : dict) : dict :=
  [("message", py_get_default success "message"
                 (VStr "Command executed successfully"));
   ("details", VDict success)].

(** The response that the three cases of the specification describe, read
    word for word: where successes and errors are mixed, the message is
    built from the message of the last success, and the specification
    names no other text to build it from.  [None] where these words
    name no response. *)
Definition described_response (results : list dict) : option dict :=
  match last_where is_success results, last_where is_error results with
  | None, Some e => Some e
  | Some s, Some _ =>
      match lookup "message" s with
      | Some (VStr m) => Some (partial_response m s (filter is_error results))
      | _ => None
      end
  | Some s, None => Some (success_response s)
  | None, None => None
  end.

(** The item names its artist by no list under [artists]. *)
Definition no_artist_list (item : dict) : Prop :=
  match lookup "artists" item with
  | Some (VList _) => False
  | _ => True
  end.

(** The search result for the track [name] with identifier [track_id]. *)
Definition track_result (name : value) (track_id : string) (artist : value) : dict :=
  [("name", name);
   ("uri", VStr ("spotify:track:" ++ track_id));
   ("id", VStr track_id);
   ("artist", artist);
   ("type", VStr "track")].

(** An outcome of the search handler. *)
Definition search_shape (d : dict) : Prop :=
  (exists msg, d = error_record msg) \/ (exists sr, d = search_success sr).

(** An outcome of the playlist handler. *)
Definition playlist_shape (d : dict) : Prop :=
  (exists msg, d = error_record msg)
  \/ (is_error d = false /\ exists s, py_get d "action" = VStr ("playlist_" ++ s)).

(** What the info handler does: it fails and leaves the context alone, or
    it succeeds and stores the tracks of the album in the context. *)
Definition get_info_post {R : runtime}
    (w : world R) (r : ending dict) (w' : world R) : Prop :=
  params_frame w w'
  /\ control_events (trace w') = control_events (trace w)
  /\ ((ctx w' = ctx w /\ forall d, r = Ok d -> exists msg, d = error_record msg)
      \/ (exists data tracks,
            r = Ok [("action", VStr "get_info"); ("result", data)]
            /\ ctx w' = py_set (ctx w) "album_tracks" tracks)).

(** An outcome on which [update_context] does nothing. *)
Definition inert (d : dict) : Prop :=
  (exists msg, d = error_record msg)
  \/ (is_error d = false
      /\ v_eq_str (py_get d "action") "search" = false
      /\ v_eq_str (py_get d "action") "get_info" = false).

(** What dispatching a step of kind [tool] does. *)
Definition dispatch_post {R : runtime} (tool : string)
    (w : world R) (r : ending dict) (w' : world R) : Prop :=
  params_frame w w'
  /\ control_events (trace w') = control_events (trace w)
  /\ ((ctx w' = ctx w
       /\ forall d, r = Ok d ->
            (tool = "SpotifySearch" /\ search_shape d)
            \/ (tool <> "SpotifySearch" /\ inert d))
      \/ (tool = "SpotifyGetInfo"
          /\ exists data tracks,
               r = Ok [("action", VStr "get_info"); ("result", data)]
               /\ ctx w' = py_set (ctx w) "album_tracks" tracks)).

(** [n] calls in a row that all raise: the state of the session after
    them and the exception of the last one ([last] when [n] is zero);
    [None] when one of the calls returns. *)
Fixpoint failures {R : runtime} (n : nat) (s : session_state R) (tool : string)
    (d : dict) (last : option exn) : option (session_state R * option exn) :=
  match n with
  | O => Some (s, last)
  | S n' =>
      match call_tool R s tool d with
      | (Raises e, s') => failures n' s' tool d (Some e)
      | (Returns _, _) | (Cancels, _) => None
      end
  end.

(** The seconds slept in a trace. *)
Fixpoint slept (t : list event) : Z :=
  match t with
  | [] => 0
  | EvSleep seconds :: rest => seconds + slept rest
  | _ :: rest => slept rest
  end.

(** The five tool kinds. *)
Definition known_tool (tool : string) : bool :=
  String.eqb tool "SpotifySearch" || String.eqb tool "SpotifyGetInfo"
  || String.eqb tool "SpotifyPlayback" || String.eqb tool "SpotifyQueue"
  || String.eqb tool "SpotifyPlaylist".

(** The events of a run over [actions]: for each step that is dispatched,
    its dispatch event and the events of at most three attempts at its
    own tool, none for an unknown tool; the flag tells whether the loop
    went through all the actions. *)
Inductive run_shape : list action -> bool -> list event -> Prop :=
| shape_end : run_shape [] true []
| shape_left : forall rest, run_shape rest false []
| shape_step : forall a rest d n completed evs,
    (n <= 3)%nat ->
    (known_tool (tool_name a) = false -> n = 0%nat) ->
    run_shape rest completed evs ->
    run_shape (a :: rest) completed
      (dispatch_event a :: attempts_trace (tool_name a) d n 1 ++ evs).

(** The world in which a handler calls its tool: [params[key]] is filled
    in with [uri] when the context holds a search result and the entry is
    absent or falsy. *)
Definition resolving {R : runtime} (p : nat) (key : string) (uri : value)
    (w : world R) : world R :=
  if truthy (py_get (ctx w) "search_result")
     && negb (truthy (py_get (heap w p) key))
  then snd (set_param R p key uri w)
  else w.

(** A [message] of the outcome, when it has one, is a string. *)
Definition says_text (d : dict) : Prop :=
  match lookup "message" d with
  | Some v => exists m, v = VStr m
  | None => True
  end.

(** A response as [execute_spotify_actions] documents it: an error, or a
    message with the details. *)
Definition response_ok (d : dict) : Prop :=
  is_error d = true
  \/ exists m details, d = [("message", VStr m); ("details", VDict details)].

(** An element of a parsed action list: a dictionary with [tool_name] and
    [params]. *)
Definition well_formed_action (a : value) : Prop :=
  exists d, a = VDict d /\ has_key "tool_name" d = true /\ has_key "params" d = true.

(** Between [w] and [w'] the events of [n] attempts at [tool] were added,
    with [least <= n <= 3], each carrying the dictionary at [p] as it is
    in [w']. *)
Definition sends {R : runtime} (tool : string) (p : nat) (least : nat)
    (w w' : world R) : Prop :=
  exists n,
    (least <= n <= 3)%nat
    /\ trace w' = trace w ++ attempts_trace tool (heap w' p) n 1.

(** The search result for the album [name] with identifier [item_id]. *)
Definition album_result {R : runtime} (name item_id artist : value) : dict :=
  [("name", name);
   ("uri", VStr ("spotify:album:" ++ py_str R item_id));
   ("id", item_id);
   ("artist", artist);
   ("type", VStr "album")].

(** The value is no dictionary. *)
Definition not_a_dict (v : value) : Prop :=
  match v with
  | VDict _ => False
  | _ => True
  end.

(** What the search handler returns once it has chosen [item] of [kind]. *)
Definition chosen {R : runtime} (kind : string) (item : value) (w1 : world R)
    : ending dict * world R :=
  match search_result_of R kind item with
  | Ok sr => (Ok (search_success sr), w1)
  | Raise e =>
      if caught_by_search e
      then (Ok (error_record "Failed to parse search results"), w1)
      else (Raise e, w1)
  end.

(** What the info handler does with what the invoker returned. *)
Definition info_of_result {R : runtime} (result : option tool_result) : M R dict :=
  bind R (lift R (the_result result "isError"))
    (fun r =>
       if isError r then ret R (error_record "Failed to get album tracks")
       else
         try_except R (parse_album_info R r) caught_by_get_info
           (fun _ => ret R (error_record "Failed to parse album information"))).

(** The outcome of a successful info step. *)
Definition info_success (payload : value) : dict :=
  [("action", VStr "get_info"); ("result", payload)].

(** The URI that a start of playback sends for the search result's
    [uri]: a [uri] without a colon is taken for a track identifier. *)
Definition playback_uri {R : runtime} (uri : value) (has_colon : bool) : value :=
  if has_colon then uri else VStr ("spotify:track:" ++ py_str R uri).

(** What the queue handler does with what the invoker returned. *)
Definition queue_of_result {R : runtime} (search_result : value)
    (result : option tool_result) : M R dict :=
  bind R (lift R (the_result result "isError"))
    (fun r =>
       if isError r then
         ret R (error_record ("Failed to add to queue" ++ ": "
                                ++ first_text (content r) ""))
       else if truthy search_result then
         bind R (lift R (item_type_of search_result))
           (fun item_type =>
              bind R (lift R (describe_item R item_type search_result))
                (fun what =>
                   ret R [("action", VStr "queue");
                          ("message", VStr ("Added " ++ what ++ " to queue"));
                          ("item", search_result)]))
       else
         ret R [("action", VStr "queue"); ("message", VStr "Added item to queue")]).

(** What the playback handler does with what the invoker returned. *)
Definition playback_of_result {R : runtime} (p : nat) (search_result : value)
    (result : option tool_result) : M R dict :=
  bind R (lift R (the_result result "isError"))
    (fun r =>
       bind R (read_params R p)
         (fun params =>
            if isError r then
              ret R (error_record
                       (("Playback action failed: " ++ py_str R (py_get params "action"))
                          ++ ": " ++ first_text (content r) ""))
            else lift R (playback_response R params search_result))).

(** The world in which the playback handler calls its tool. *)
Definition playing {R : runtime} (p : nat) (uri : value) (has_colon : bool)
    (w : world R) : world R :=
  if v_eq_str (py_get (heap w p) "action") "start"
  then resolving p "spotify_uri" (playback_uri (R := R) uri has_colon) w
  else w.

(** ["album" if ty == "album" else "track"] *)
Definition kind_word (ty : value) : string :=
  if v_eq_str ty "album" then "album" else "track".

(** [f"{kind} {name} by {artist}"] *)
Definition described {R : runtime} (ty name artist : value) : string :=
  kind_word ty ++ " " ++ py_str R name ++ " by " ++ py_str R artist.

(** Whether a playlist step has what its sub-action requires. *)
Definition playlist_ready (params : dict) : bool :=
  let action_type := py_get params "action" in
  if v_eq_str action_type "get" then true
  else if v_eq_str action_type "get_tracks" then truthy (py_get params "playlist_id")
  else if v_eq_str action_type "add_tracks" || v_eq_str action_type "remove_tracks" then
    truthy (py_get params "playlist_id") && truthy (py_get params "track_ids")
  else if v_eq_str action_type "change_details" then
    truthy (py_get params "playlist_id")
    && (truthy (py_get params "name") || truthy (py_get params "description"))
  else false.

(** The outcome of a playlist listing of [n] items. *)
Definition listing (action field what : string) (items : value) (n : Z) : dict :=
  [("action", VStr action);
   ("message", VStr ("Found " ++ str_of_Z n ++ " " ++ what));
   (field, items)].

(** The payload of a listing cannot be decoded, or has no length. *)
Definition unusable {R : runtime} (text : string) : Prop :=
  match json_loads R text with
  | Ok items => exists e, py_len items = Raise e
  | Raise _ => True
  end.

(** Whether the character occurs in the text. *)
Fixpoint has_char (c : ascii) (s : string) : bool :=
  match s with
  | EmptyString => false
  | String c' r => Ascii.eqb c' c || has_char c r
  end.

(** What [handle_command] gets from the parser: an object with the one
    key [error], which it returns as the response, or a list of actions,
    which it executes. *)
Definition parse_outcome (v : value) : Prop :=
  (exists msg, v = VDict [("error", msg)] /\ returned_unexecuted v = Ok true)
  \/ (exists actions,
        v = VList actions
        /\ Forall well_formed_action actions
        /\ returned_unexecuted v = Ok false).

(** The [ValueError]s of the validation loop. *)
Definition invalid_action (e : exn) : Prop :=
  e = value_error "Each action must be a dictionary"
  \/ e = value_error "Action missing tool_name"
  \/ e = value_error "Action missing params".

(** [parsed if isinstance(parsed, list) else [parsed]] *)
Definition as_list (parsed : value) : list value :=
  match parsed with
  | VList l => l
  | _ => [parsed]
  end.

(** The search result built from a hit of [kind] with the given fields. *)
Definition found_item {R : runtime} (kind : string) (name item_id artist : value)
    : dict :=
  [("name", name);
   ("uri", VStr ("spotify:" ++ kind ++ ":" ++ py_str R item_id));
   ("id", item_id);
   ("artist", artist);
   ("type", VStr kind)].

(** *** Further runs *)

Definition album_found : dict :=
  [("name", VStr "Test Album"); ("uri", VStr "spotify:album:album123");
   ("id", VStr "album123"); ("artist", VStr "Test Artist"); ("type", VStr "album")].

Definition song_found : dict :=
  track_result (VStr "Test Song") "track123" (VStr "Artist X").

(** The world [w] with [sr] as the search result of the context. *)
Definition knowing (sr : dict) (w : world scripted) : world scripted :=
  with_ctx scripted w [("search_result", VDict sr); ("album_tracks", VNone)].

(** A server that fails once and then answers. *)
Definition flaky_server : world scripted :=
  start [failure "down"; text_reply false "ok"] (heap_of [track_query]).

Definition searching_album : world scripted :=
  start [text_reply false album_text] (heap_of [album_query]).

(** A search for albums and tracks at once, answered with albums only. *)
Definition searching_both : world scripted :=
  start [text_reply false album_text]
    (heap_of [[("query", VStr "test album"); ("qtype", VStr "album,track")]]).

Definition asking_album_info : world scripted :=
  knowing album_found
    (start [text_reply false album_tracks_text] (heap_of [[("item_uri", VNone)]])).

Definition queueing_found_album : world scripted :=
  knowing album_found
    (start [text_reply false "ok"]
       (heap_of [[("action", VStr "add"); ("track_id", VNone)]])).

Definition playing_found_song : world scripted :=
  knowing song_found
    (start [text_reply false "ok"] (heap_of [[("action", VStr "start")]])).

(** A listing of playlists that the server answers without any content. *)
Definition listing_playlists : world scripted :=
  start [Returns (mk_tool_result false [])] (heap_of [[("action", VStr "get")]]).

(** A change of playlist details that names neither name nor description. *)
Definition renaming_nothing : world scripted :=
  start [text_reply false "ok"]
    (heap_of [[("action", VStr "change_details"); ("playlist_id", VStr "p1")]]).

(** A search during whose call the task is cancelled. *)
Definition cancelled_search : world scripted :=
  start [Cancels] (heap_of [track_query]).

(** A resume that succeeds, then a search whose three attempts all raise. *)
Definition resume_then_unreachable : world scripted :=
  start [text_reply false "ok"; failure "down"; failure "down"; failure "still down"]
    (heap_of [[("action", VStr "start")]; track_query; [("action", VStr "start")]]).

Definition pause_action : value :=
  VDict [("tool_name", VStr "SpotifyPlayback");
         ("params", VDict [("action", VStr "pause")])].

Definition pause_reply : string := Json.dumps (VList [pause_action]).

Definition truncated_action : value := VDict [("tool_name", VStr "SpotifyPlayback")].

Definition truncated_reply : string := Json.dumps (VList [truncated_action]).

(** * Properties *)

Section Properties.

Context (R : runtime).

(** ** Dictionaries *)

Lemma lookup_py_set (d : dict) (k k' : string) (v : value) :
  lookup k (py_set d k' v) = if String.eqb k' k then Some v else lookup k d.
Proof.
  induction d as [|[k0 v0] d IH]; cbn.
  - destruct (String.eqb k' k); reflexivity.
  - destruct (String.eqb_spec k0 k') as [->|Hne]; cbn.
    + destruct (String.eqb k' k); reflexivity.
    + destruct (String.eqb_spec k0 k) as [->|Hne'].
      * destruct (String.eqb_spec k' k) as [->|]; [congruence|reflexivity].
      * exact IH.
Qed.

Lemma py_get_py_set (d : dict) (k : string) (v : value) :
  py_get (py_set d k v) k = v.
Proof.
  unfold py_get, py_get_default. rewrite lookup_py_set, String.eqb_refl. reflexivity.
Qed.

Lemma py_set_twice (d : dict) (k : string) (v v' : value) :
  py_set (py_set d k v) k v' = py_set d k v'.
Proof.
  induction d as [|[k0 v0] d IH]; cbn.
  - rewrite String.eqb_refl. reflexivity.
  - destruct (String.eqb_spec k0 k) as [->|Hne]; cbn.
    + rewrite String.eqb_refl. reflexivity.
    + destruct (String.eqb_spec k0 k); [contradiction|]. rewrite IH. reflexivity.
Qed.

(** ** The retrying invoker *)

Lemma retry_attempt_returns (fuel : nat) (tool : string) (p : nat) (max retries : Z)
    (w : world R) (r : tool_result) (s' : session_state R) :
  retries < max ->
  call_tool R (sess w) tool (heap w p) = (Returns r, s') ->
  retry_loop R (S fuel) tool p max retries w
  = (Ok (Some r),
     mk_world R s' (trace w ++ [EvCallTool tool (heap w p)]) (heap w) (ctx w)).
Proof.
  intros Hlt Hcall. cbn [retry_loop].
  destruct (Z.ltb_spec retries max) as [_|]; [|lia].
  unfold bind, attempt, session_call. rewrite Hcall. reflexivity.
Qed.

Lemma retry_attempt_gives_up (fuel : nat) (tool : string) (p : nat) (max retries : Z)
    (w : world R) (e : exn) (s' : session_state R) :
  retries < max -> max <= retries + 1 ->
  call_tool R (sess w) tool (heap w p) = (Raises e, s') ->
  retry_loop R (S fuel) tool p max retries w
  = (Raise e,
     mk_world R s' (trace w ++ [EvCallTool tool (heap w p)]) (heap w) (ctx w)).
Proof.
  intros Hlt Hge Hcall. cbn [retry_loop].
  destruct (Z.ltb_spec retries max) as [_|]; [|lia].
  unfold bind, attempt, session_call. rewrite Hcall. cbn.
  destruct (Z.geb_spec (retries + 1) max) as [_|]; [|lia].
  reflexivity.
Qed.

Lemma retry_attempt_retries (fuel : nat) (tool : string) (p : nat) (max retries : Z)
    (w : world R) (e : exn) (s' : session_state R) :
  retries + 1 < max ->
  call_tool R (sess w) tool (heap w p) = (Raises e, s') ->
  retry_loop R (S fuel) tool p max retries w
  = retry_loop R fuel tool p max (retries + 1)
      (mk_world R s'
         (trace w ++ [EvCallTool tool (heap w p)]
                  ++ [EvSleep (RETRY_DELAY * 2 ^ (retries + 1 - 1))])
         (heap w) (ctx w)).
Proof.
  intros Hlt Hcall. cbn [retry_loop].
  destruct (Z.ltb_spec retries max) as [_|]; [|lia].
  unfold bind, attempt, session_call. rewrite Hcall. cbn.
  destruct (Z.geb_spec (retries + 1) max) as [|_]; [lia|].
  unfold sleep, emit, with_trace. cbn. rewrite <- app_assoc. reflexivity.
Qed.

Lemma retry_attempt_cancelled (fuel : nat) (tool : string) (p : nat) (max retries : Z)
    (w : world R) (s' : session_state R) :
  retries < max ->
  call_tool R (sess w) tool (heap w p) = (Cancels, s') ->
  retry_loop R (S fuel) tool p max retries w
  = (Cancelled,
     mk_world R s' (trace w ++ [EvCallTool tool (heap w p)]) (heap w) (ctx w)).
Proof.
  intros Hlt Hcall. cbn [retry_loop].
  destruct (Z.ltb_spec retries max) as [_|]; [|lia].
  unfold bind, attempt, session_call. rewrite Hcall. reflexivity.
Qed.

Lemma retry_loop_done (fuel : nat) (tool : string) (p : nat) (max retries : Z)
    (w : world R) :
  max <= retries ->
  retry_loop R fuel tool p max retries w = (Ok None, w).
Proof.
  intros Hge. destruct fuel; cbn [retry_loop];
    destruct (Z.ltb_spec retries max); try lia; reflexivity.
Qed.

(** What the loop does to the state, whatever the session answers: it
    leaves the dictionaries and the context alone, and it adds to the
    trace the events of some number [n] of attempts. *)
Lemma retry_loop_shape (fuel : nat) (tool : string) (p : nat) (max : Z) :
  forall (retries : Z) (w : world R),
    (Z.to_nat (max - retries) <= fuel)%nat ->
    exists n : nat,
      trace (snd (retry_loop R fuel tool p max retries w))
      = trace w ++ attempts_trace tool (heap w p) n (retries + 1)
      /\ heap (snd (retry_loop R fuel tool p max retries w)) = heap w
      /\ ctx (snd (retry_loop R fuel tool p max retries w)) = ctx w
      /\ Z.of_nat n <= Z.max 0 (max - retries)
      /\ (retries < max -> (1 <= n)%nat).
Proof.
  induction fuel as [|fuel IH]; intros retries w Hfuel.
  - rewrite retry_loop_done by lia. exists 0%nat. cbn.
    rewrite app_nil_r. repeat split; lia.
  - destruct (Z.lt_ge_cases retries max) as [Hlt|Hge].
    2:{ rewrite retry_loop_done by lia. exists 0%nat. cbn.
        rewrite app_nil_r. repeat split; lia. }
    destruct (call_tool R (sess w) tool (heap w p)) as [[r|e|] s'] eqn:Hcall.
    3:{ rewrite (retry_attempt_cancelled _ _ _ _ _ _ _ Hlt Hcall).
        exists 1%nat. cbn. repeat split; lia. }
    + rewrite (retry_attempt_returns _ _ _ _ _ _ _ _ Hlt Hcall).
      exists 1%nat. cbn. repeat split; lia.
    + destruct (Z.lt_ge_cases (retries + 1) max) as [Hmore|Hlast].
      * rewrite (retry_attempt_retries _ _ _ _ _ _ _ _ Hmore Hcall).
        destruct (IH (retries + 1)
                    (mk_world R s'
                       (trace w ++ [EvCallTool tool (heap w p)]
                          ++ [EvSleep (RETRY_DELAY * 2 ^ (retries + 1 - 1))])
                       (heap w) (ctx w)))
          as (n & Ht & Hh & Hc & Hn & Hpos); [lia|].
        cbn [trace heap ctx] in Ht, Hh, Hc.
        exists (S n). rewrite Ht, Hh, Hc.
        specialize (Hpos Hmore).
        destruct n as [|n]; [lia|].
        cbn [attempts_trace]. rewrite <- !app_assoc. cbn [app].
        repeat split; lia.
      * rewrite (retry_attempt_gives_up _ _ _ _ _ _ _ _ Hlt Hlast Hcall).
        exists 1%nat. cbn. repeat split; lia.
Qed.

(** The fuel that [call_tool_with_retry] gives the loop is enough: more
    fuel changes nothing. *)
Lemma retry_loop_fuel (tool : string) (p : nat) (max : Z) :
  forall (fuel fuel' : nat) (retries : Z) (w : world R),
    (Z.to_nat (max - retries) <= fuel)%nat ->
    (Z.to_nat (max - retries) <= fuel')%nat ->
    retry_loop R fuel tool p max retries w = retry_loop R fuel' tool p max retries w.
Proof.
  induction fuel as [|fuel IH]; intros fuel' retries w H1 H2.
  - rewrite !retry_loop_done by lia. reflexivity.
  - destruct (Z.lt_ge_cases retries max) as [Hlt|Hge].
    2:{ rewrite !retry_loop_done by lia. reflexivity. }
    destruct fuel' as [|fuel']; [lia|].
    destruct (call_tool R (sess w) tool (heap w p)) as [[r|e|] s'] eqn:Hcall.
    3:{ rewrite !(retry_attempt_cancelled _ _ _ _ _ _ _ Hlt Hcall). reflexivity. }
    + rewrite !(retry_attempt_returns _ _ _ _ _ _ _ _ Hlt Hcall). reflexivity.
    + destruct (Z.lt_ge_cases (retries + 1) max) as [Hmore|Hlast].
      * rewrite !(retry_attempt_retries _ _ _ _ _ _ _ _ Hmore Hcall).
        apply IH; lia.
      * rewrite !(retry_attempt_gives_up _ _ _ _ _ _ _ _ Hlt Hlast Hcall).
        reflexivity.
Qed.

(** C3: with three attempts allowed, a tool that fails twice and then
    succeeds is called exactly three times and its result is returned;
    with two attempts allowed, a tool that fails twice is called exactly
    twice and the second failure is raised to the caller; and between two
    consecutive attempts the invoker sleeps [RETRY_DELAY * 2 ^ (attempt - 1)]
    seconds, [attempt] being the number of the attempt that failed. *)
Theorem retry_behaviour (tool : string) (p : nat) (w v : world R)
    (e1 e2 f1 f2 : exn) (r : tool_result) (s1 s2 s3 t1 t2 : session_state R) :
  call_tool R (sess w) tool (heap w p) = (Raises e1, s1) ->
  call_tool R s1 tool (heap w p) = (Raises e2, s2) ->
  call_tool R s2 tool (heap w p) = (Returns r, s3) ->
  call_tool R (sess v) tool (heap v p) = (Raises f1, t1) ->
  call_tool R t1 tool (heap v p) = (Raises f2, t2) ->
  (call_tool_with_retry R tool p 3 w
   = (Ok (Some r),
      mk_world R s3
        (trace w ++ [EvCallTool tool (heap w p);
                     EvSleep (RETRY_DELAY * 2 ^ (1 - 1));
                     EvCallTool tool (heap w p);
                     EvSleep (RETRY_DELAY * 2 ^ (2 - 1));
                     EvCallTool tool (heap w p)])
        (heap w) (ctx w))
   /\ call_count (trace (snd (call_tool_with_retry R tool p 3 w)))
      = (call_count (trace w) + 3)%nat)
  /\ (call_tool_with_retry R tool p 2 v
      = (Raise f2,
         mk_world R t2
           (trace v ++ [EvCallTool tool (heap v p);
                        EvSleep (RETRY_DELAY * 2 ^ (1 - 1));
                        EvCallTool tool (heap v p)])
           (heap v) (ctx v))
      /\ call_count (trace (snd (call_tool_with_retry R tool p 2 v)))
         = (call_count (trace v) + 2)%nat)
  /\ (forall (max : Z) (u : world R),
        exists n : nat,
          trace (snd (call_tool_with_retry R tool p max u))
          = trace u ++ attempts_trace tool (heap u p) n 1
          /\ Z.of_nat n <= Z.max 0 max).
Proof.
  intros Hw1 Hw2 Hw3 Hv1 Hv2.
  assert (Hcount : forall t t', call_count (t ++ t') = (call_count t + call_count t')%nat).
  { intros t t'. unfold call_count. rewrite filter_app, length_app. reflexivity. }
  split; [|split].
  - assert (E : call_tool_with_retry R tool p 3 w
                = (Ok (Some r),
                   mk_world R s3
                     (trace w ++ [EvCallTool tool (heap w p);
                                  EvSleep (RETRY_DELAY * 2 ^ (1 - 1));
                                  EvCallTool tool (heap w p);
                                  EvSleep (RETRY_DELAY * 2 ^ (2 - 1));
                                  EvCallTool tool (heap w p)])
                     (heap w) (ctx w))).
    { unfold call_tool_with_retry. change (Z.to_nat 3) with 3%nat.
      rewrite (retry_attempt_retries 2 tool p 3 0 w e1 s1); [|lia|exact Hw1].
      rewrite (retry_attempt_retries 1 tool p 3 (0 + 1) _ e2 s2); [|lia|exact Hw2].
      rewrite (retry_attempt_returns 0 tool p 3 (0 + 1 + 1) _ r s3); [|lia|exact Hw3].
      cbn [trace heap ctx sess]. rewrite <- !app_assoc. reflexivity. }
    split; [exact E|]. rewrite E. cbn [snd trace]. rewrite Hcount. reflexivity.
  - assert (E : call_tool_with_retry R tool p 2 v
                = (Raise f2,
                   mk_world R t2
                     (trace v ++ [EvCallTool tool (heap v p);
                                  EvSleep (RETRY_DELAY * 2 ^ (1 - 1));
                                  EvCallTool tool (heap v p)])
                     (heap v) (ctx v))).
    { unfold call_tool_with_retry. change (Z.to_nat 2) with 2%nat.
      rewrite (retry_attempt_retries 1 tool p 2 0 v f1 t1); [|lia|exact Hv1].
      rewrite (retry_attempt_gives_up 0 tool p 2 (0 + 1) _ f2 t2); [|lia|lia|exact Hv2].
      cbn [trace heap ctx sess]. rewrite <- !app_assoc. reflexivity. }
    split; [exact E|]. rewrite E. cbn [snd trace]. rewrite Hcount. reflexivity.
  - intros max u. unfold call_tool_with_retry.
    destruct (retry_loop_shape (Z.to_nat max) tool p max 0 u) as (n & Ht & _ & _ & Hn & _);
      [lia|].
    exists n. split; [exact Ht|lia].
Qed.

(** ** What the handlers leave alone *)

Lemma control_events_app (t t' : list event) :
  control_events (t ++ t') = control_events t ++ control_events t'.
Proof. apply filter_app. Qed.

Lemma control_events_attempts (tool : string) (d : dict) (n : nat) :
  forall attempt, control_events (attempts_trace tool d n attempt) = [].
Proof.
  induction n as [|n IH]; intros attempt; [reflexivity|].
  destruct n as [|n]; [reflexivity|].
  change (control_events (attempts_trace tool d (S n) (attempt + 1)) = []). apply IH.
Qed.

Lemma retry_frame (tool : string) (p : nat) (max : Z) (w : world R) :
  heap (snd (call_tool_with_retry R tool p max w)) = heap w
  /\ ctx (snd (call_tool_with_retry R tool p max w)) = ctx w
  /\ control_events (trace (snd (call_tool_with_retry R tool p max w)))
     = control_events (trace w).
Proof.
  unfold call_tool_with_retry.
  destruct (retry_loop_shape (Z.to_nat max) tool p max 0 w) as (n & Ht & Hh & Hc & _);
    [lia|].
  rewrite Ht, Hh, Hc, control_events_app, control_events_attempts, app_nil_r. auto.
Qed.

Lemma params_frame_same (w w' : world R) : heap w' = heap w -> params_frame w w'.
Proof. intros H p k. left. rewrite H. reflexivity. Qed.

Lemma params_frame_set (w w' : world R) (p : nat) (k : string) (v : value) :
  truthy (py_get (heap w p) k) = false ->
  filled_key k = true ->
  heap w' = (fun q => if Nat.eqb q p then py_set (heap w p) k v else heap w q) ->
  params_frame w w'.
Proof.
  intros Hf Hk H q k'. rewrite H.
  destruct (Nat.eqb_spec q p) as [->|_]; [|left; reflexivity].
  rewrite lookup_py_set.
  destruct (String.eqb_spec k k') as [<-|_]; [right; auto|left; reflexivity].
Qed.

Lemma params_frame_trans (w1 w2 w3 : world R) :
  params_frame w1 w2 -> params_frame w2 w3 -> params_frame w1 w3.
Proof.
  intros H12 H23 p k.
  destruct (H23 p k) as [E23|[Hk Hf]]; destruct (H12 p k) as [E12|[Hk' Hf']]; auto.
  - left. congruence.
  - right. split; [exact Hk|].
    unfold py_get, py_get_default in *. rewrite <- E12. exact Hf.
Qed.

(** Running a handler on symbols: the monad is unfolded, and the proof
    branches where the code does. *)
Ltac destruct_innermost x :=
  lazymatch x with
  | context [match ?y with _ => _ end] => destruct_innermost y
  | _ => destruct x eqn:?
  end.

Ltac run_monad :=
  cbv [res_bind bind ret raise lift attempt try_except emit sleep read_params
       set_param ctx_get ctx_set with_trace with_heap with_ctx];
  cbn [sess trace heap ctx fst snd].

Ltac exec_step :=
  run_monad;
  match goal with
  | |- context [call_tool_with_retry ?R0 ?t ?p ?m ?w] =>
      let H := fresh "Hretry" in
      pose proof (retry_frame t p m w) as H;
      destruct (call_tool_with_retry R0 t p m w) as [? ?];
      cbn [sess trace heap ctx fst snd] in H;
      destruct H as (? & ? & ?)
  | |- context [match ?x with _ => _ end] => destruct_innermost x
  end.

Ltac split_conditions :=
  repeat match goal with
    | H : (_ && _)%bool = true |- _ => apply andb_true_iff in H; destruct H
    | H : negb _ = true |- _ => apply negb_true_iff in H
    | H : negb _ = false |- _ => apply negb_false_iff in H
    end.

Ltac solve_shape :=
  let d := fresh "d" in
  let Hd := fresh "Hd" in
  intros d Hd;
  first
    [ discriminate Hd
    | injection Hd as <-;
      first
        [ eexists; reflexivity
        | left; eexists; reflexivity
        | right; split; reflexivity
        | right; eexists; reflexivity
        | right; split; [reflexivity | eexists; reflexivity] ] ].

Ltac solve_frame :=
  first
    [ apply params_frame_same; cbn [heap]; congruence
    | split_conditions;
      eapply params_frame_set; [ | | cbn [heap]; eassumption ];
      [ eassumption | reflexivity ] ].

Ltac finish_post :=
  run_monad;
  repeat match goal with |- _ /\ _ => split end;
  first [ congruence | solve_frame | solve_shape ].

Ltac exec_handler := repeat exec_step; finish_post.

Lemma queue_spec (p : nat) (w : world R) :
  quiet_post (outcome_named "queue") w
    (fst (handle_queue_action R p w)) (snd (handle_queue_action R p w)).
Proof.
  unfold handle_queue_action, quiet_post. exec_handler.
Qed.

Lemma playback_spec (p : nat) (w : world R) :
  quiet_post (outcome_named "playback") w
    (fst (handle_playback_action R p w)) (snd (handle_playback_action R p w)).
Proof.
  unfold handle_playback_action, playback_response, quiet_post. exec_handler.
Qed.

Lemma search_spec (p : nat) (w : world R) :
  silent_post search_shape w
    (fst (handle_search_action R p w)) (snd (handle_search_action R p w)).
Proof.
  unfold handle_search_action, parse_search_result, silent_post, quiet_post.
  exec_handler.
Qed.

Lemma playlist_spec (p : nat) (w : world R) :
  silent_post playlist_shape w
    (fst (handle_playlist_action R p w)) (snd (handle_playlist_action R p w)).
Proof.
  unfold handle_playlist_action, parse_listing, silent_post, quiet_post.
  exec_handler.
Qed.

Lemma get_info_spec (p : nat) (w : world R) :
  get_info_post w
    (fst (handle_get_info_action R p w)) (snd (handle_get_info_action R p w)).
Proof.
  unfold handle_get_info_action, parse_album_info, get_info_post.
  repeat exec_step; run_monad.
  all: split; [solve_frame|]; split; [congruence|].
  all: first
         [ left; split; [congruence | solve_shape]
         | right; do 2 eexists; split; [reflexivity | f_equal; congruence] ].
Qed.

Lemma named_outcome_inert (name : string) (d : dict) :
  v_eq_str (VStr name) "search" = false ->
  v_eq_str (VStr name) "get_info" = false ->
  outcome_named name d -> inert d.
Proof.
  intros Hs Hg [Herr|[Hok Hact]]; [left; exact Herr|].
  right. rewrite Hact. auto.
Qed.

Lemma playlist_outcome_inert (d : dict) : playlist_shape d -> inert d.
Proof.
  intros [Herr|[Hok [s Hact]]]; [left; exact Herr|].
  right. rewrite Hact. auto.
Qed.

Lemma dispatch_spec (tool : string) (p : nat) (w : world R) :
  dispatch_post tool w
    (fst (execute_single_action R tool p w)) (snd (execute_single_action R tool p w)).
Proof.
  unfold execute_single_action, dispatch_post.
  destruct (String.eqb_spec tool "SpotifySearch") as [->|Hsearch].
  { destruct (search_spec p w) as (_ & Hc & Hf & Ht & Hshape).
    split; [exact Hf|]. split; [exact Ht|]. left. split; [exact Hc|].
    intros d Hd. left. auto. }
  destruct (String.eqb_spec tool "SpotifyGetInfo") as [->|Hinfo].
  { destruct (get_info_spec p w) as (Hf & Ht & [[Hc Hshape]|Hstored]).
    - split; [exact Hf|]. split; [exact Ht|]. left. split; [exact Hc|].
      intros d Hd. right. split; [exact Hsearch|]. left. auto.
    - split; [exact Hf|]. split; [exact Ht|]. right. auto. }
  destruct (String.eqb_spec tool "SpotifyPlayback") as [->|Hplay].
  { destruct (playback_spec p w) as (Hc & Hf & Ht & Hshape).
    split; [exact Hf|]. split; [exact Ht|]. left. split; [exact Hc|].
    intros d Hd. right. split; [exact Hsearch|].
    apply (named_outcome_inert "playback"); auto. }
  destruct (String.eqb_spec tool "SpotifyQueue") as [->|Hqueue].
  { destruct (queue_spec p w) as (Hc & Hf & Ht & Hshape).
    split; [exact Hf|]. split; [exact Ht|]. left. split; [exact Hc|].
    intros d Hd. right. split; [exact Hsearch|].
    apply (named_outcome_inert "queue"); auto. }
  destruct (String.eqb_spec tool "SpotifyPlaylist") as [->|Hlist].
  { destruct (playlist_spec p w) as (_ & Hc & Hf & Ht & Hshape).
    split; [exact Hf|]. split; [exact Ht|]. left. split; [exact Hc|].
    intros d Hd. right. split; [exact Hsearch|].
    apply playlist_outcome_inert; auto. }
  cbn. split; [apply params_frame_same; reflexivity|]. split; [reflexivity|].
  left. split; [reflexivity|].
  intros d Hd. injection Hd as <-. right. split; [exact Hsearch|]. left. eauto.
Qed.

(** ** One step of the loop *)

Lemma update_context_inert (d : dict) (w : world R) :
  inert d -> update_context R d w = (Ok tt, w).
Proof.
  unfold update_context.
  intros [[msg ->]|(Hok & Hs & Hg)]; [reflexivity|].
  rewrite Hok, Hs, Hg. reflexivity.
Qed.

Lemma update_context_search (sr : dict) (w : world R) :
  update_context R (search_success sr) w
  = (Ok tt, with_ctx R w (py_set (ctx w) "search_result" (VDict sr))).
Proof. reflexivity. Qed.

Lemma update_context_frame (d : dict) (w : world R) :
  fst (update_context R d w) = Ok tt
  /\ heap (snd (update_context R d w)) = heap w
  /\ trace (snd (update_context R d w)) = trace w.
Proof.
  unfold update_context.
  destruct (negb (is_error d)); [|auto].
  destruct (v_eq_str (py_get d "action") "search"); [cbn; auto|].
  destruct (v_eq_str (py_get d "action") "get_info"); cbn; auto.
Qed.

Lemma step_unfold (dispatch : string -> nat -> M R dict) (a : action) (w : world R) :
  step R dispatch a w
  = match dispatch (tool_name a) (params a) (dispatching a w) with
    | (Ok d, w1) =>
        if is_error d && String.eqb (tool_name a) "SpotifySearch"
        then (Ok (d, true), w1)
        else (Ok (d, false), snd (update_context R d w1))
    | (Raise e, w1) => (Raise e, w1)
    | (Cancelled, w1) => (Cancelled, w1)
    end.
Proof.
  unfold step, bind, emit, dispatching, dispatch_event. cbn.
  destruct (dispatch _ _ _) as [[[d|e]|] w1]; [|reflexivity|reflexivity].
  destruct (is_error d && _)%bool; [reflexivity|].
  destruct (update_context_frame d w1) as (Hok & _).
  destruct (update_context R d w1) as [r w2]. cbn in *. subst r. reflexivity.
Qed.

Lemma step_context (a : action) (w : world R) :
  (forall e, fst (step R (execute_single_action R) a w) = Raise e ->
     ctx (snd (step R (execute_single_action R) a w)) = ctx w)
  /\ (forall outcome stop,
        fst (step R (execute_single_action R) a w) = Ok (outcome, stop) ->
        (is_error outcome = true ->
           ctx (snd (step R (execute_single_action R) a w)) = ctx w)
        /\ (tool_name a <> "SpotifySearch" -> tool_name a <> "SpotifyGetInfo" ->
              ctx (snd (step R (execute_single_action R) a w)) = ctx w)
        /\ (tool_name a = "SpotifySearch" -> is_error outcome = false ->
              ctx (snd (step R (execute_single_action R) a w))
              = py_set (ctx w) "search_result" (py_get outcome "result"))).
Proof.
  rewrite step_unfold.
  pose proof (dispatch_spec (tool_name a) (params a) (dispatching a w))
    as (_ & _ & Hcases).
  destruct (execute_single_action R (tool_name a) (params a) (dispatching a w))
    as [[[d|e]|] w1]; cbn [fst snd dispatching with_trace ctx] in Hcases.
  3:{ cbn. split; [intros e'|intros o stop]; discriminate. }
  - destruct Hcases as [[Hc Hshape]|(Htool & data & tracks & Hr & Hc)].
    + destruct (Hshape d eq_refl) as [[Htool [[msg ->]|[sr ->]]]|[Hnot Hinert]].
      * rewrite Htool. cbn. split; [discriminate|].
        intros outcome stop [= <- <-]. repeat split; auto; discriminate.
      * rewrite Htool. cbn. split; [discriminate|].
        intros outcome stop [= <- <-]. repeat split; try discriminate; try congruence.
        intros _ _. rewrite Hc. reflexivity.
      * destruct (String.eqb_spec (tool_name a) "SpotifySearch") as [|_];
          [contradiction|].
        rewrite andb_false_r, update_context_inert by exact Hinert.
        cbn. split; [discriminate|].
        intros outcome stop [= <- <-]. repeat split; auto; contradiction.
    + injection Hr as Hd. subst d. rewrite Htool. cbn. split; [discriminate|].
      intros outcome stop [= <- <-]. repeat split; try discriminate; congruence.
  - cbn. split.
    + intros e' _. destruct Hcases as [[Hc _]|(_ & data & tracks & Hr & _)];
        [exact Hc|discriminate].
    + discriminate.
Qed.

(** C5: a step that raises or whose outcome is an error record leaves the
    context as it was, and so does every step that is neither a search
    nor an info step; a successful search stores the [result] of its
    outcome under [search_result], where a second successful search
    replaces what the first one stored. *)
Theorem context_written_by_search_and_info (a b : action) (w : world R) :
  (forall e, fst (step R (execute_single_action R) a w) = Raise e ->
     ctx (snd (step R (execute_single_action R) a w)) = ctx w)
  /\ (forall outcome stop,
        fst (step R (execute_single_action R) a w) = Ok (outcome, stop) ->
        (is_error outcome = true ->
           ctx (snd (step R (execute_single_action R) a w)) = ctx w)
        /\ (tool_name a <> "SpotifySearch" -> tool_name a <> "SpotifyGetInfo" ->
              ctx (snd (step R (execute_single_action R) a w)) = ctx w)
        /\ (tool_name a = "SpotifySearch" -> is_error outcome = false ->
              ctx (snd (step R (execute_single_action R) a w))
              = py_set (ctx w) "search_result" (py_get outcome "result")
              /\ py_get (ctx (snd (step R (execute_single_action R) a w)))
                        "search_result"
                 = py_get outcome "result"))
  /\ (forall o1 o2 stop1 stop2 w1 w2,
        tool_name a = "SpotifySearch" -> tool_name b = "SpotifySearch" ->
        step R (execute_single_action R) a w = (Ok (o1, stop1), w1) ->
        is_error o1 = false ->
        step R (execute_single_action R) b w1 = (Ok (o2, stop2), w2) ->
        is_error o2 = false ->
        ctx w2 = py_set (ctx w) "search_result" (py_get o2 "result")).
Proof.
  destruct (step_context a w) as [Hraise Hok].
  split; [exact Hraise|]. split.
  - intros outcome stop Hrun.
    destruct (Hok outcome stop Hrun) as (Herr & Hother & Hsearch).
    split; [exact Herr|]. split; [exact Hother|].
    intros Htool Hsuccess. split; [exact (Hsearch Htool Hsuccess)|].
    rewrite (Hsearch Htool Hsuccess). apply py_get_py_set.
  - intros o1 o2 stop1 stop2 w1 w2 Ha Hb Hrun1 Hok1 Hrun2 Hok2.
    destruct (Hok o1 stop1) as (_ & _ & Hfirst); [rewrite Hrun1; reflexivity|].
    destruct (step_context b w1) as [_ Hok'].
    destruct (Hok' o2 stop2) as (_ & _ & Hsecond); [rewrite Hrun2; reflexivity|].
    specialize (Hfirst Ha Hok1). specialize (Hsecond Hb Hok2).
    rewrite Hrun1 in Hfirst. rewrite Hrun2 in Hsecond. cbn [snd] in *.
    rewrite Hsecond, Hfirst. apply py_set_twice.
Qed.

(** ** The loop *)

Lemma params_frame_heap (w1 w1' w2 w2' : world R) :
  heap w1' = heap w1 -> heap w2' = heap w2 ->
  params_frame w1 w2 -> params_frame w1' w2'.
Proof. intros H1 H2 H p k. rewrite H1, H2. apply H. Qed.

Lemma step_frame (a : action) (w : world R) :
  params_frame w (snd (step R (execute_single_action R) a w))
  /\ control_events (trace (snd (step R (execute_single_action R) a w)))
     = control_events (trace w) ++ [dispatch_event a].
Proof.
  rewrite step_unfold.
  pose proof (dispatch_spec (tool_name a) (params a) (dispatching a w))
    as (Hf & Ht & _).
  destruct (execute_single_action R (tool_name a) (params a) (dispatching a w))
    as [[[d|e]|] w1]; cbn [fst snd] in Hf, Ht.
  all: unfold dispatching in Ht; cbn [with_trace trace] in Ht;
    rewrite control_events_app in Ht; cbn [control_events dispatch_event filter
                                           is_control app] in Ht.
  all: assert (Hf' : params_frame w w1)
    by (eapply params_frame_heap; [| |exact Hf]; reflexivity).
  - destruct (update_context_frame d w1) as (_ & Hh & Htr).
    destruct (is_error d && _)%bool; cbn [snd].
    + auto.
    + rewrite Htr. split; [|exact Ht].
      eapply params_frame_heap; [| |exact Hf']; [reflexivity|exact Hh].
  - cbn [snd]. auto.
  - cbn [snd]. auto.
Qed.

Lemma run_actions_frame (actions : list action) :
  forall (results : list dict) (w : world R),
    params_frame w (snd (run_actions R (execute_single_action R) actions results w)).
Proof.
  induction actions as [|a rest IH]; intros results w.
  - apply params_frame_same. reflexivity.
  - cbn [run_actions]. unfold bind.
    destruct (step_frame a w) as [Hf _].
    destruct (step R (execute_single_action R) a w) as [[[[d stop]|e]|] w1];
      cbn [fst snd] in *; [|exact Hf|exact Hf].
    destruct stop; [exact Hf|].
    eapply params_frame_trans; [exact Hf|apply IH].
Qed.

Lemma run_actions_control (actions : list action) :
  forall (results results' : list dict) (w w' : world R),
    run_actions R (execute_single_action R) actions results w
    = (Ok (Finished results'), w') ->
    control_events (trace w')
    = control_events (trace w) ++ map dispatch_event actions.
Proof.
  induction actions as [|a rest IH]; intros results results' w w' Hrun.
  - injection Hrun as _ <-. cbn. rewrite app_nil_r. reflexivity.
  - cbn [run_actions] in Hrun. unfold bind in Hrun.
    destruct (step_frame a w) as [_ Ht].
    destruct (step R (execute_single_action R) a w) as [[[[d stop]|e]|] w1];
      cbn [fst snd] in *; [|discriminate|discriminate].
    destruct stop; [discriminate|].
    rewrite (IH _ _ _ _ Hrun), Ht, <- app_assoc. reflexivity.
Qed.

Lemma run_actions_app (dispatch : string -> nat -> M R dict)
    (pre post : list action) :
  forall (results : list dict) (w : world R),
    run_actions R dispatch (pre ++ post) results w
    = match run_actions R dispatch pre results w with
      | (Ok (Finished results'), w') => run_actions R dispatch post results' w'
      | (Ok (Returned d), w') => (Ok (Returned d), w')
      | (Raise e, w') => (Raise e, w')
      | (Cancelled, w') => (Cancelled, w')
      end.
Proof.
  induction pre as [|a rest IH]; intros results w; [reflexivity|].
  cbn [app run_actions]. unfold bind.
  destruct (step R dispatch a w) as [[[[d stop]|e]|] w1]; cbn [fst snd];
    [|reflexivity|reflexivity].
  destruct stop; [reflexivity|]. apply IH.
Qed.

(** ** The executor *)

(** C1: when the steps before a search step have run to the end and the
    search step's outcome is an error record, the executor returns that
    record as the response, in the state in which the search handler left
    the run: the steps dispatched are those before the search and the
    search itself, none of the later ones, and the response formatter is
    not called.  With no step before the search, one step is dispatched. *)
Theorem failed_search_stops_the_run (pre post : list action) (a : action)
    (w w1 w2 : world R) (results : list dict) (r : dict) :
  tool_name a = "SpotifySearch" ->
  run_actions R (execute_single_action R) pre [] (with_ctx R w initial_context)
  = (Ok (Finished results), w1) ->
  execute_single_action R (tool_name a) (params a) (dispatching a w1) = (Ok r, w2) ->
  is_error r = true ->
  execute_spotify_actions R (pre ++ a :: post) w = (Ok r, w2)
  /\ control_events (trace w2)
     = control_events (trace w) ++ map dispatch_event (pre ++ [a])
  /\ (pre = [] ->
      control_events (trace w2) = control_events (trace w) ++ [dispatch_event a]).
Proof.
  intros Htool Hpre Hstep Herr.
  assert (Hcontrol : control_events (trace w2)
                     = control_events (trace w) ++ map dispatch_event (pre ++ [a])).
  { pose proof (dispatch_spec (tool_name a) (params a) (dispatching a w1))
      as (_ & Ht & _).
    rewrite Hstep in Ht. cbn [fst snd] in Ht. rewrite Ht.
    unfold dispatching. cbn [with_trace trace].
    rewrite control_events_app, (run_actions_control _ _ _ _ _ Hpre).
    cbn [with_ctx trace]. rewrite map_app, <- app_assoc. reflexivity. }
  split; [|split; [exact Hcontrol|]].
  - unfold execute_spotify_actions, execute_with, try_except, execute_body,
      bind, attempt, new_context.
    rewrite run_actions_app, Hpre. cbn [run_actions]. unfold bind.
    rewrite step_unfold, Hstep, Herr, Htool. reflexivity.
  - intros ->. exact Hcontrol.
Qed.

(** C6, as the code has it: an exception raised in the body of the
    executor's [try], by the loop or by the formatter, becomes the response
    [{"error": str(e)}], and a response that the body returns is returned
    as it is; the exceptions are the instances of [Exception], and none of
    them leaves the executor.  The cancellation of the task while a tool
    call is awaited is none: it passes the [except] clause and leaves the
    executor, which then returns no response. *)
Theorem executor_raises_nothing (dispatch : string -> nat -> M R dict)
    (actions : list action) (w : world R) :
  (forall e w',
     execute_body R dispatch actions w = (Raise e, w') ->
     execute_with R dispatch actions w = (Ok [("error", VStr (exn_msg e))], w'))
  /\ (forall d w',
        execute_body R dispatch actions w = (Ok d, w') ->
        execute_with R dispatch actions w = (Ok d, w'))
  /\ (forall w',
        execute_body R dispatch actions w = (Cancelled, w') ->
        execute_with R dispatch actions w = (Cancelled, w'))
  /\ ((exists d, fst (execute_with R dispatch actions w) = Ok d)
      \/ fst (execute_with R dispatch actions w) = Cancelled)
  /\ ((exists d, fst (execute_spotify_actions R actions w) = Ok d)
      \/ fst (execute_spotify_actions R actions w) = Cancelled).
Proof.
  assert (Hany : forall f,
             (exists d, fst (execute_with R f actions w) = Ok d)
             \/ fst (execute_with R f actions w) = Cancelled).
  { intros f. unfold execute_with, try_except, bind, attempt.
    destruct (execute_body R f actions w) as [[[d|e]|] w']; cbn; eauto. }
  split; [|split; [|split; [|split; [apply Hany|apply Hany]]]].
  - intros e w' Hbody. unfold execute_with, try_except, bind, attempt.
    rewrite Hbody. reflexivity.
  - intros d w' Hbody. unfold execute_with, try_except, bind, attempt.
    rewrite Hbody. reflexivity.
  - intros w' Hbody. unfold execute_with, try_except, bind, attempt.
    rewrite Hbody. reflexivity.
Qed.

(** C8, as the code has it: a run changes an entry of a [params]
    dictionary only by filling in [item_uri], [spotify_uri] or [track_id]
    where the entry was absent or falsy; every other entry, and every
    entry that was set, is after the run what it was before.  The search
    and playlist handlers write to no [params] dictionary at all. *)
Theorem params_change_only_where_filled (actions : list action) (w : world R) :
  params_frame w (snd (execute_spotify_actions R actions w))
  /\ (forall (p : nat) (v : world R),
        heap (snd (handle_search_action R p v)) = heap v
        /\ heap (snd (handle_playlist_action R p v)) = heap v).
Proof.
  split.
  - pose proof (run_actions_frame actions [] (with_ctx R w initial_context)) as Hf.
    unfold execute_spotify_actions, execute_with, try_except, execute_body,
      bind, attempt, new_context.
    destruct (run_actions R (execute_single_action R) actions []
                (with_ctx R w initial_context)) as [[[[d|results]|e]|] w1];
      cbn [fst snd] in *.
    + eapply params_frame_heap; [| |exact Hf]; reflexivity.
    + unfold emit, lift. cbn.
      destruct (format_final_response results);
        (eapply params_frame_heap; [| |exact Hf]; reflexivity).
    + eapply params_frame_heap; [| |exact Hf]; reflexivity.
    + eapply params_frame_heap; [| |exact Hf]; reflexivity.
  - intros p v. split.
    + apply (search_spec p v).
    + apply (playlist_spec p v).
Qed.

(** ** The handlers *)

Lemma v_eq_str_true (v : value) (s : string) : v_eq_str v s = true -> v = VStr s.
Proof.
  destruct v; cbn; try discriminate. intros H. apply String.eqb_eq in H. congruence.
Qed.

(** C9: a queue step with no usable [track_id] and no search result in
    the context, and a playlist [get_tracks] step with no usable
    [playlist_id], return their validation error and leave the whole state
    as it was: the session is not called and nothing is recorded. *)
Theorem missing_parameter_makes_no_call (p : nat) (w : world R) :
  (truthy (py_get (heap w p) "track_id") = false ->
   truthy (py_get (ctx w) "search_result") = false ->
   execute_single_action R "SpotifyQueue" p w
   = (Ok (error_record "No track ID available for queue"), w))
  /\ (v_eq_str (py_get (heap w p) "action") "get_tracks" = true ->
      truthy (py_get (heap w p) "playlist_id") = false ->
      execute_single_action R "SpotifyPlaylist" p w
      = (Ok (error_record "playlist_id is required for get_tracks action"), w)).
Proof.
  split.
  - intros Hid Hsearch.
    change (execute_single_action R "SpotifyQueue" p w)
      with (handle_queue_action R p w).
    unfold handle_queue_action, bind, ctx_get, read_params.
    rewrite Hid, Hsearch. reflexivity.
  - intros Haction Hid.
    change (execute_single_action R "SpotifyPlaylist" p w)
      with (handle_playlist_action R p w).
    unfold handle_playlist_action, bind, read_params.
    rewrite (v_eq_str_true _ _ Haction) in *. cbn.
    rewrite Hid. reflexivity.
Qed.

Lemma first_text_without_text (items : list content_item) (dflt : string) :
  (forall t, ~ In (TextContent t) items) -> first_text items dflt = dflt.
Proof.
  induction items as [|[t|] rest IH]; intros Hno; cbn.
  - reflexivity.
  - exfalso. apply (Hno t). left. reflexivity.
  - apply IH. intros t Hin. apply (Hno t). right. exact Hin.
Qed.

(** What the search handler does with a result that reports no error. *)
Lemma search_of_result (p : nat) (w w1 : world R) (r : tool_result) :
  call_tool_with_retry R "SpotifySearch" p MAX_RETRIES w = (Ok (Some r), w1) ->
  isError r = false ->
  handle_search_action R p w
  = try_except R (parse_search_result R p r) caught_by_search
      (fun _ => ret R (error_record "Failed to parse search results")) w1
  /\ heap w1 = heap w.
Proof.
  intros Hcall Hok. split.
  - unfold handle_search_action, bind at 1. rewrite Hcall, Hok. reflexivity.
  - pose proof (retry_frame "SpotifySearch" p MAX_RETRIES w) as (Hh & _).
    rewrite Hcall in Hh. exact Hh.
Qed.

(** C7, as the code has it: when the call reports no error and its
    content has no text element, the payload read is the default [{}],
    which holds neither albums nor tracks, and the search handler returns
    the error that names the query. *)
Theorem empty_content_names_the_query (p : nat) (w w1 : world R) (r : tool_result) :
  call_tool_with_retry R "SpotifySearch" p MAX_RETRIES w = (Ok (Some r), w1) ->
  isError r = false ->
  (forall t, ~ In (TextContent t) (content r)) ->
  json_loads R "{}" = Ok (VDict []) ->
  handle_search_action R p w
  = (Ok (error_record ("No results found for query: "
                         ++ py_str R (py_get (heap w p) "query"))), w1).
Proof.
  intros Hcall Hok Hno Hjson.
  destruct (search_of_result p w w1 r Hcall Hok) as [-> Hh].
  cbv [try_except bind attempt parse_search_result lift read_params ret].
  rewrite (first_text_without_text _ _ Hno), Hjson, Hh.
  destruct (v_eq_str (py_get (heap w p) "qtype") "album"); reflexivity.
Qed.

Lemma artist_of_list (item : dict) (first : value) (more : list value) :
  lookup "artists" item = Some (VList (first :: more)) ->
  artist_of (VDict item) = Ok first.
Proof.
  intros H. unfold artist_of, res_bind. cbn. unfold has_key. rewrite H. reflexivity.
Qed.

Lemma artist_of_scalar (item : dict) :
  no_artist_list item ->
  artist_of (VDict item) = Ok (py_get_default item "artist" (VStr "Unknown Artist")).
Proof.
  unfold no_artist_list, artist_of, res_bind. cbn. unfold has_key.
  destruct (lookup "artists" item) as [[]|]; intros H; try reflexivity.
  contradiction.
Qed.

(** C4: a successful search whose first track has the identifier
    [track_id] yields [uri = "spotify:track:" ++ track_id]; its artist is
    the first element of a list under [artists], else the value under
    [artist], else ["Unknown Artist"]. *)
Theorem search_result_of_track (p : nat) (w w1 : world R) (r : tool_result)
    (payload track : dict) (others : list value) (name : value) (track_id : string) :
  call_tool_with_retry R "SpotifySearch" p MAX_RETRIES w = (Ok (Some r), w1) ->
  isError r = false ->
  json_loads R (first_text (content r) "{}") = Ok (VDict payload) ->
  v_eq_str (py_get (heap w p) "qtype") "album" && truthy (py_get payload "albums")
  = false ->
  lookup "tracks" payload = Some (VList (VDict track :: others)) ->
  lookup "id" track = Some (VStr track_id) ->
  lookup "name" track = Some name ->
  (forall first more,
     lookup "artists" track = Some (VList (first :: more)) ->
     handle_search_action R p w
     = (Ok (search_success (track_result name track_id first)), w1))
  /\ (forall artist,
        no_artist_list track -> lookup "artist" track = Some artist ->
        handle_search_action R p w
        = (Ok (search_success (track_result name track_id artist)), w1))
  /\ (no_artist_list track -> lookup "artist" track = None ->
      handle_search_action R p w
      = (Ok (search_success (track_result name track_id (VStr "Unknown Artist"))), w1)).
Proof.
  intros Hcall Hok Hjson Hkind Htracks Hid Hname.
  destruct (search_of_result p w w1 r Hcall Hok) as [-> Hh].
  assert (Hrun : forall artist,
             artist_of (VDict track) = Ok artist ->
             try_except R (parse_search_result R p r) caught_by_search
               (fun _ => ret R (error_record "Failed to parse search results")) w1
             = (Ok (search_success (track_result name track_id artist)), w1)).
  { intros artist Hartist.
    cbv [try_except bind attempt parse_search_result lift read_params ret].
    rewrite Hjson, Hh. cbn [v_get v_get_default].
    unfold py_get in Hkind |- *.
    assert (Hlist : py_get_default payload "tracks" VNone = VList (VDict track :: others))
      by (unfold py_get_default; rewrite Htracks; reflexivity).
    assert (Hitem : v_getitem (VDict payload) "tracks" = Ok (VList (VDict track :: others)))
      by (cbn; rewrite Htracks; reflexivity).
    assert (Hfound : search_result_of R "track" (VDict track)
                     = Ok (track_result name track_id artist)).
    { unfold search_result_of, res_bind. rewrite Hartist. cbn. rewrite Hname, Hid.
      reflexivity. }
    destruct (v_eq_str (py_get_default (heap w p) "qtype" VNone) "album");
      cbn [andb] in Hkind; try rewrite Hkind;
      rewrite Hlist, Hitem; cbn [truthy v_getitem0]; rewrite Hfound; reflexivity. }
  split; [|split].
  - intros first more Hartists. apply Hrun. eapply artist_of_list; eauto.
  - intros artist Hno Hartist. apply Hrun. rewrite artist_of_scalar by exact Hno.
    unfold py_get_default. rewrite Hartist. reflexivity.
  - intros Hno Hartist. apply Hrun. rewrite artist_of_scalar by exact Hno.
    unfold py_get_default. rewrite Hartist. reflexivity.
Qed.

(** ** The response formatter *)

Lemma find_none_filter {A : Type} (p : A -> bool) (l : list A) :
  find p l = None -> filter p l = [].
Proof.
  induction l as [|x l IH]; cbn; [reflexivity|].
  destruct (p x); [discriminate|exact IH].
Qed.

Lemma find_some_filter {A : Type} (p : A -> bool) (l : list A) (y : A) :
  find p l = Some y -> exists l', filter p l = y :: l'.
Proof.
  induction l as [|x l IH]; cbn; [discriminate|].
  destruct (p x); [intros [= ->]; eauto|exact IH].
Qed.

Lemma rev_filter_eq {A : Type} (p : A -> bool) (xs l : list A) :
  filter p (rev xs) = l -> filter p xs = rev l.
Proof.
  intros H. rewrite filter_rev in H. rewrite <- H, rev_involutive. reflexivity.
Qed.

Lemma py_last_filter {A : Type} (p : A -> bool) (xs : list A) :
  py_last (filter p xs)
  = match last_where p xs with
    | Some x => Ok x
    | None => Raise (mk_exn IndexError "list index out of range")
    end.
Proof.
  unfold py_last, last_where. rewrite <- filter_rev.
  induction (rev xs) as [|x l IH]; cbn; [reflexivity|].
  destruct (p x); [reflexivity|exact IH].
Qed.

Lemma filter_keeps_all {A : Type} (p q : A -> bool) (l : list A) :
  (forall x, p x = negb (q x)) -> find q l = None -> filter p l = l.
Proof.
  intros Hpq. induction l as [|x l IH]; cbn; [reflexivity|].
  rewrite Hpq. destruct (q x); cbn; [discriminate|].
  intros H. rewrite IH by exact H. reflexivity.
Qed.

Lemma filter_length_eqb {A : Type} (p : A -> bool) (l : list A) :
  Nat.eqb (List.length (filter p l)) (List.length l)
  = match find (fun x => negb (p x)) l with
    | None => true
    | Some _ => false
    end.
Proof.
  induction l as [|x l IH]; cbn; [reflexivity|].
  destruct (p x); cbn; [exact IH|].
  apply Nat.eqb_neq. pose proof (filter_length_le p l). lia.
Qed.

Lemma filter_length_last_where {A : Type} (p : A -> bool) (xs : list A) :
  Nat.eqb (List.length (filter p xs)) (List.length xs)
  = match last_where (fun x => negb (p x)) xs with
    | None => true
    | Some _ => false
    end.
Proof.
  unfold last_where. rewrite <- filter_length_eqb.
  rewrite filter_rev, !length_rev. reflexivity.
Qed.

(** C2, as the code has it: for a non-empty list of outcomes, when none
    succeeded the response is the last error outcome; when some failed and
    some succeeded it carries the message of the last success, or
    ["Partial success"] where that outcome has none, followed by a line
    feed and ["Some actions failed"], with the last success and all the
    errors as details; and when none failed it carries the message of the
    last outcome, or ["Command executed successfully"], with the last
    outcome as details. *)
Theorem formatter_cases (results : list dict) :
  results <> [] ->
  match last_where is_success results, last_where is_error results with
  | None, Some e => format_final_response results = Ok e
  | Some s, Some _ =>
      forall m,
        py_get_default s "message" (VStr "Partial success") = VStr m ->
        format_final_response results
        = Ok (partial_response m s (filter is_error results))
  | Some s, None => format_final_response results = Ok (success_response s)
  | None, None => False
  end.
Proof.
  intros Hne. unfold format_final_response. cbv zeta.
  change (fun r : dict => negb (is_error r)) with is_success.
  rewrite !py_last_filter.
  pose proof (filter_length_last_where is_error results) as Hlen.
  change (fun x : dict => negb (is_error x)) with is_success in Hlen.
  destruct (last_where is_success results) as [s|] eqn:Hs;
    destruct (last_where is_error results) as [e|] eqn:He.
  - intros m Hm.
    destruct (find_some_filter _ _ _ He) as [l Hl].
    apply rev_filter_eq in Hl. rewrite Hl in *.
    destruct (rev (e :: l)) as [|x t] eqn:Hrev.
    { apply (f_equal (@List.length dict)) in Hrev.
      rewrite length_rev in Hrev. discriminate. }
    rewrite Hlen. unfold res_bind. rewrite Hm. reflexivity.
  - unfold last_where in He.
    rewrite (rev_filter_eq _ _ _ (find_none_filter _ _ He)). cbn [rev].
    assert (Hsame : filter is_success results = results).
    { rewrite (rev_filter_eq _ _ _ (filter_keeps_all is_success is_error _
                                      (fun x => eq_refl) He)).
      apply rev_involutive. }
    rewrite <- Hsame at 1. rewrite py_last_filter, Hs. reflexivity.
  - destruct (find_some_filter _ _ _ He) as [l Hl].
    apply rev_filter_eq in Hl. rewrite Hl in *.
    destruct (rev (e :: l)) as [|x t] eqn:Hrev.
    { apply (f_equal (@List.length dict)) in Hrev.
      rewrite length_rev in Hrev. discriminate. }
    rewrite Hlen. reflexivity.
  - unfold last_where in Hs, He.
    destruct (rev results) as [|x t] eqn:Hrev.
    + apply Hne. apply (f_equal (@rev dict)) in Hrev.
      rewrite rev_involutive in Hrev. exact Hrev.
    + cbn in Hs, He. unfold is_success in Hs.
      destruct (is_error x); discriminate.
Qed.

(** ** The empty sequence *)

(** C10: for the empty action sequence the response formatter is called
    on the empty list, where reading its last element raises an
    [IndexError]; the executor turns that exception into the response
    [{"error": "list index out of range"}], which has no [message] and no
    [details]. *)
Theorem empty_sequence_gives_error (w : world R) :
  format_final_response [] = Raise (mk_exn IndexError "list index out of range")
  /\ execute_body R (execute_single_action R) [] w
     = (Raise (mk_exn IndexError "list index out of range"),
        mk_world R (sess w) (trace w ++ [EvFormat]) (heap w) initial_context)
  /\ fst (execute_spotify_actions R [] w)
     = Ok (error_record "list index out of range")
  /\ (forall d, fst (execute_spotify_actions R [] w) = Ok d ->
        is_error d = true /\ has_key "message" d = false /\ has_key "details" d = false).
Proof.
  split; [reflexivity|].
  split; [reflexivity|].
  split; [reflexivity|].
  intros d H. cbv in H. injection H as <-. repeat split.
Qed.

(** * Further properties of the code *)

(** ** The retrying invoker, in general *)

Lemma retry_loop_recovers (tool : string) (p : nat) (max : Z) (n : nat) :
  forall (fuel : nat) (retries : Z) (w : world R) (last last' : option exn)
         (s' s'' : session_state R) (r : tool_result),
    failures n (sess w) tool (heap w p) last = Some (s', last') ->
    call_tool R s' tool (heap w p) = (Returns r, s'') ->
    retries + Z.of_nat n < max ->
    (n < fuel)%nat ->
    retry_loop R fuel tool p max retries w
    = (Ok (Some r),
       mk_world R s''
         (trace w ++ attempts_trace tool (heap w p) (S n) (retries + 1))
         (heap w) (ctx w)).
Proof.
  induction n as [|n IH]; intros fuel retries w last last' s' s'' r Hfail Hcall Hlt Hfuel.
  - cbn in Hfail. injection Hfail as <- _.
    destruct fuel as [|fuel]; [lia|].
    rewrite (retry_attempt_returns fuel tool p max retries w r s''); [reflexivity|lia|exact Hcall].
  - cbn [failures] in Hfail.
    destruct (call_tool R (sess w) tool (heap w p)) as [[r0|e|] s1] eqn:Hfirst;
      [discriminate| |discriminate].
    destruct fuel as [|fuel]; [lia|].
    rewrite (retry_attempt_retries fuel tool p max retries w e s1); [|lia|exact Hfirst].
    rewrite (IH fuel (retries + 1) _ (Some e) last' s' s'' r); cbn [sess heap trace ctx];
      [|exact Hfail|exact Hcall|lia|lia].
    change (attempts_trace tool (heap w p) (S (S n)) (retries + 1))
      with (EvCallTool tool (heap w p)
              :: EvSleep (RETRY_DELAY * 2 ^ (retries + 1 - 1))
              :: attempts_trace tool (heap w p) (S n) (retries + 1 + 1)).
    rewrite <- !app_assoc. reflexivity.
Qed.

Lemma retry_loop_exhausts (tool : string) (p : nat) (max : Z) (n : nat) :
  forall (fuel : nat) (retries : Z) (w : world R) (last last' : option exn)
         (s' : session_state R),
    failures (S n) (sess w) tool (heap w p) last = Some (s', last') ->
    retries + Z.of_nat (S n) = max ->
    (S n <= fuel)%nat ->
    exists e,
      last' = Some e
      /\ retry_loop R fuel tool p max retries w
         = (Raise e,
            mk_world R s'
              (trace w ++ attempts_trace tool (heap w p) (S n) (retries + 1))
              (heap w) (ctx w)).
Proof.
  induction n as [|n IH]; intros fuel retries w last last' s' Hfail Hmax Hfuel.
  - cbn [failures] in Hfail.
    destruct (call_tool R (sess w) tool (heap w p)) as [[r0|e|] s1] eqn:Hfirst;
      [discriminate| |discriminate].
    injection Hfail as <- <-. exists e. split; [reflexivity|].
    destruct fuel as [|fuel]; [lia|].
    rewrite (retry_attempt_gives_up fuel tool p max retries w e s1);
      [reflexivity|lia|lia|exact Hfirst].
  - remember (S n) as m eqn:Hm. cbn [failures] in Hfail.
    destruct (call_tool R (sess w) tool (heap w p)) as [[r0|e|] s1] eqn:Hfirst;
      [discriminate| |discriminate].
    destruct fuel as [|fuel]; [lia|].
    rewrite (retry_attempt_retries fuel tool p max retries w e s1); [|lia|exact Hfirst].
    subst m.
    destruct (IH fuel (retries + 1)
                (mk_world R s1
                   (trace w ++ [EvCallTool tool (heap w p)]
                      ++ [EvSleep (RETRY_DELAY * 2 ^ (retries + 1 - 1))])
                   (heap w) (ctx w))
                (Some e) last' s') as (e' & Hlast & Hrun);
      cbn [sess heap trace ctx]; [exact Hfail|lia|lia|].
    exists e'. split; [exact Hlast|]. rewrite Hrun. cbn [sess heap trace ctx].
    change (attempts_trace tool (heap w p) (S (S n)) (retries + 1))
      with (EvCallTool tool (heap w p)
              :: EvSleep (RETRY_DELAY * 2 ^ (retries + 1 - 1))
              :: attempts_trace tool (heap w p) (S n) (retries + 1 + 1)).
    rewrite <- !app_assoc. reflexivity.
Qed.

Lemma call_count_app (t t' : list event) :
  call_count (t ++ t') = (call_count t + call_count t')%nat.
Proof. unfold call_count. rewrite filter_app, length_app. reflexivity. Qed.

Lemma call_count_attempts (tool : string) (d : dict) (n : nat) :
  forall attempt, call_count (attempts_trace tool d n attempt) = n.
Proof.
  induction n as [|n IH]; intros attempt; [reflexivity|].
  destruct n as [|n]; [reflexivity|].
  change (S (call_count (attempts_trace tool d (S n) (attempt + 1))) = S (S n)).
  rewrite IH. reflexivity.
Qed.

(** X1: when the first [n] calls raise and the next one returns, with
    [n < max_retries], the invoker returns that result after [n + 1]
    calls, having slept [RETRY_DELAY * 2 ^ (i - 1)] seconds after the
    [i]-th failure; when the first [max_retries] calls all raise, it
    raises the exception of the last of them after [max_retries] calls. *)
Theorem retry_after_failures (tool : string) (p : nat) (max : Z) (w : world R)
    (n : nat) (s' : session_state R) (last : option exn) :
  failures n (sess w) tool (heap w p) None = Some (s', last) ->
  (forall r s'',
     call_tool R s' tool (heap w p) = (Returns r, s'') ->
     Z.of_nat n < max ->
     call_tool_with_retry R tool p max w
     = (Ok (Some r),
        mk_world R s'' (trace w ++ attempts_trace tool (heap w p) (S n) 1)
          (heap w) (ctx w))
     /\ call_count (trace (snd (call_tool_with_retry R tool p max w)))
        = (call_count (trace w) + S n)%nat)
  /\ (Z.of_nat n = max -> 0 < max ->
      exists e,
        last = Some e
        /\ call_tool_with_retry R tool p max w
           = (Raise e,
              mk_world R s' (trace w ++ attempts_trace tool (heap w p) n 1)
                (heap w) (ctx w))
        /\ call_count (trace (snd (call_tool_with_retry R tool p max w)))
           = (call_count (trace w) + n)%nat).
Proof.
  intros Hfail. split.
  - intros r s'' Hcall Hlt.
    assert (E : call_tool_with_retry R tool p max w
                = (Ok (Some r),
                   mk_world R s'' (trace w ++ attempts_trace tool (heap w p) (S n) 1)
                     (heap w) (ctx w))).
    { unfold call_tool_with_retry.
      apply (retry_loop_recovers tool p max n _ 0 w None last s' s'' r); auto; lia. }
    split; [exact E|]. rewrite E. cbn [snd trace].
    rewrite call_count_app, call_count_attempts. reflexivity.
  - intros Hmax Hpos. destruct n as [|n]; [lia|].
    destruct (retry_loop_exhausts tool p max n (Z.to_nat max) 0 w None last s')
      as (e & Hlast & Hrun); [exact Hfail|lia|lia|].
    exists e. split; [exact Hlast|].
    unfold call_tool_with_retry. rewrite Hrun. split; [reflexivity|].
    cbn [snd trace]. rewrite call_count_app, call_count_attempts. reflexivity.
Qed.

Lemma slept_app (t t' : list event) : slept (t ++ t') = slept t + slept t'.
Proof.
  induction t as [|e t IH]; [reflexivity|].
  destruct e; cbn [app slept]; rewrite IH; lia.
Qed.

Lemma slept_attempts (tool : string) (d : dict) (n : nat) :
  forall attempt,
    1 <= attempt ->
    slept (attempts_trace tool d (S n) attempt)
    = RETRY_DELAY * (2 ^ (attempt - 1 + Z.of_nat n) - 2 ^ (attempt - 1)).
Proof.
  induction n as [|n IH]; intros attempt Hpos.
  - cbn [attempts_trace slept]. rewrite Z.add_0_r, Z.sub_diag, Z.mul_0_r. reflexivity.
  - change (slept (attempts_trace tool d (S (S n)) attempt))
      with (RETRY_DELAY * 2 ^ (attempt - 1)
            + slept (attempts_trace tool d (S n) (attempt + 1))).
    rewrite IH by lia.
    replace (attempt + 1 - 1 + Z.of_nat n) with (attempt - 1 + Z.of_nat (S n)) by lia.
    replace (attempt + 1 - 1) with (Z.succ (attempt - 1)) by lia.
    rewrite Z.pow_succ_r by lia. unfold RETRY_DELAY. lia.
Qed.

Lemma retry_loop_calls (fuel : nat) (tool : string) (p : nat) (max : Z) :
  forall (retries : Z) (w : world R),
    retries < max -> (Z.to_nat (max - retries) <= fuel)%nat ->
    fst (retry_loop R fuel tool p max retries w) <> Ok None.
Proof.
  induction fuel as [|fuel IH]; intros retries w Hlt Hfuel; [lia|].
  destruct (call_tool R (sess w) tool (heap w p)) as [[r|e|] s'] eqn:Hcall.
  3:{ rewrite (retry_attempt_cancelled _ _ _ _ _ _ _ Hlt Hcall). discriminate. }
  - rewrite (retry_attempt_returns _ _ _ _ _ _ _ _ Hlt Hcall). discriminate.
  - destruct (Z.lt_ge_cases (retries + 1) max) as [Hmore|Hlast].
    + rewrite (retry_attempt_retries _ _ _ _ _ _ _ _ Hmore Hcall). apply IH; lia.
    + rewrite (retry_attempt_gives_up _ _ _ _ _ _ _ _ Hlt Hlast Hcall). discriminate.
Qed.

(** X2: the invoker calls the tool at most [max_retries] times and sleeps
    at most [RETRY_DELAY * (2 ^ (max_retries - 1) - 1)] seconds in all;
    with a positive bound it never returns [None], and with a bound that
    is not positive it returns [None] at once, without a call. *)
Theorem retry_bounds (tool : string) (p : nat) (max : Z) (w : world R) :
  (call_count (trace (snd (call_tool_with_retry R tool p max w)))
   <= call_count (trace w) + Z.to_nat max)%nat
  /\ slept (trace (snd (call_tool_with_retry R tool p max w)))
     <= slept (trace w) + RETRY_DELAY * (2 ^ (Z.max 1 max - 1) - 1)
  /\ (0 < max -> fst (call_tool_with_retry R tool p max w) <> Ok None)
  /\ (max <= 0 -> call_tool_with_retry R tool p max w = (Ok None, w)).
Proof.
  unfold call_tool_with_retry.
  destruct (retry_loop_shape (Z.to_nat max) tool p max 0 w) as (n & Ht & _ & _ & Hn & _);
    [lia|].
  rewrite Ht, call_count_app, call_count_attempts, slept_app.
  split; [lia|]. split; [|split].
  - destruct n as [|n].
    + cbn [attempts_trace slept].
      assert (0 <= 2 ^ (Z.max 1 max - 1) - 1); [|unfold RETRY_DELAY; lia].
      pose proof (Z.pow_pos_nonneg 2 (Z.max 1 max - 1)). lia.
    + rewrite slept_attempts by lia.
      replace (0 + 1 - 1 + Z.of_nat n) with (Z.of_nat n) by lia.
      replace (0 + 1 - 1) with 0 by lia.
      assert (2 ^ Z.of_nat n <= 2 ^ (Z.max 1 max - 1))
        by (apply Z.pow_le_mono_r; lia).
      rewrite Z.pow_0_r. unfold RETRY_DELAY. lia.
  - intros Hpos. apply retry_loop_calls; lia.
  - intros Hle. apply retry_loop_done. lia.
Qed.

(** ** The calls of a run *)

Lemma retry_calls (tool : string) (p : nat) (max : Z) (w : world R) :
  heap (snd (call_tool_with_retry R tool p max w)) = heap w
  /\ ctx (snd (call_tool_with_retry R tool p max w)) = ctx w
  /\ exists n,
       Z.of_nat n <= Z.max 0 max
       /\ (0 < max -> (1 <= n)%nat)
       /\ trace (snd (call_tool_with_retry R tool p max w))
          = trace w ++ attempts_trace tool (heap w p) n 1.
Proof.
  unfold call_tool_with_retry.
  destruct (retry_loop_shape (Z.to_nat max) tool p max 0 w)
    as (n & Ht & Hh & Hc & Hn & Hpos); [lia|].
  split; [exact Hh|]. split; [exact Hc|].
  exists n. split; [lia|]. split; [exact Hpos|exact Ht].
Qed.

Ltac exec_step_calls :=
  run_monad;
  match goal with
  | |- context [call_tool_with_retry ?R0 ?t ?p ?m ?w] =>
      let H := fresh "Hretry" in
      pose proof (retry_calls t p m w) as H;
      destruct (call_tool_with_retry R0 t p m w) as [? ?];
      cbn [sess trace heap ctx fst snd] in H;
      destruct H as (? & ? & ? & ? & ? & ?)
  | |- context [match ?x with _ => _ end] => destruct_innermost x
  end.

Ltac finish_sends :=
  run_monad; unfold sends;
  first
    [ exists 0%nat; split; [lia|]; cbn [attempts_trace];
      rewrite app_nil_r; reflexivity
    | match goal with
      | Ht : trace _ = _ ++ attempts_trace _ _ ?n _ |- _ =>
          exists n; split;
          [ unfold MAX_RETRIES in *; lia
          | cbn [trace heap];
            repeat match goal with Hh : heap _ = _ |- _ => rewrite Hh end;
            rewrite Ht; reflexivity ]
      end ].

Lemma search_sends (p : nat) (w : world R) :
  sends "SpotifySearch" p 0 w (snd (handle_search_action R p w)).
Proof.
  unfold handle_search_action, parse_search_result.
  repeat exec_step_calls; finish_sends.
Qed.

Lemma get_info_sends (p : nat) (w : world R) :
  sends "SpotifyGetInfo" p 0 w (snd (handle_get_info_action R p w)).
Proof.
  unfold handle_get_info_action, parse_album_info.
  repeat exec_step_calls; finish_sends.
Qed.

Lemma playback_sends (p : nat) (w : world R) :
  sends "SpotifyPlayback" p 0 w (snd (handle_playback_action R p w)).
Proof.
  unfold handle_playback_action, playback_response.
  repeat exec_step_calls; finish_sends.
Qed.

Lemma queue_sends (p : nat) (w : world R) :
  sends "SpotifyQueue" p 0 w (snd (handle_queue_action R p w)).
Proof.
  unfold handle_queue_action.
  repeat exec_step_calls; finish_sends.
Qed.

Lemma playlist_sends (p : nat) (w : world R) :
  sends "SpotifyPlaylist" p 0 w (snd (handle_playlist_action R p w)).
Proof.
  unfold handle_playlist_action, parse_listing.
  repeat exec_step_calls; finish_sends.
Qed.

Lemma dispatch_sends (tool : string) (p : nat) (w : world R) :
  exists n,
    (n <= 3)%nat
    /\ (known_tool tool = false -> n = 0%nat)
    /\ trace (snd (execute_single_action R tool p w))
       = trace w
         ++ attempts_trace tool (heap (snd (execute_single_action R tool p w)) p) n 1.
Proof.
  unfold execute_single_action, known_tool.
  destruct (String.eqb_spec tool "SpotifySearch") as [->|_].
  { destruct (search_sends p w) as (n & Hn & Ht).
    exists n. repeat split; [lia|discriminate|exact Ht]. }
  destruct (String.eqb_spec tool "SpotifyGetInfo") as [->|_].
  { destruct (get_info_sends p w) as (n & Hn & Ht).
    exists n. repeat split; [lia|discriminate|exact Ht]. }
  destruct (String.eqb_spec tool "SpotifyPlayback") as [->|_].
  { destruct (playback_sends p w) as (n & Hn & Ht).
    exists n. repeat split; [lia|discriminate|exact Ht]. }
  destruct (String.eqb_spec tool "SpotifyQueue") as [->|_].
  { destruct (queue_sends p w) as (n & Hn & Ht).
    exists n. repeat split; [lia|discriminate|exact Ht]. }
  destruct (String.eqb_spec tool "SpotifyPlaylist") as [->|_].
  { destruct (playlist_sends p w) as (n & Hn & Ht).
    exists n. repeat split; [lia|discriminate|exact Ht]. }
  exists 0%nat. cbn. rewrite app_nil_r. repeat split. lia.
Qed.

Lemma step_shape (a : action) (w : world R) :
  exists d n,
    (n <= 3)%nat
    /\ (known_tool (tool_name a) = false -> n = 0%nat)
    /\ trace (snd (step R (execute_single_action R) a w))
       = trace w ++ dispatch_event a :: attempts_trace (tool_name a) d n 1.
Proof.
  rewrite step_unfold.
  destruct (dispatch_sends (tool_name a) (params a) (dispatching a w))
    as (n & Hn & Hknown & Ht).
  destruct (execute_single_action R (tool_name a) (params a) (dispatching a w))
    as [[[d|e]|] w1]; cbn [fst snd] in *.
  - destruct (update_context_frame d w1) as (_ & _ & Htr).
    exists (heap w1 (params a)), n. split; [exact Hn|]. split; [exact Hknown|].
    destruct (is_error d && _)%bool; cbn [snd]; [|rewrite Htr];
      rewrite Ht; unfold dispatching; cbn [with_trace trace];
      rewrite <- app_assoc; reflexivity.
  - exists (heap w1 (params a)), n. split; [exact Hn|]. split; [exact Hknown|].
    rewrite Ht. unfold dispatching. cbn [with_trace trace].
    rewrite <- app_assoc. reflexivity.
  - exists (heap w1 (params a)), n. split; [exact Hn|]. split; [exact Hknown|].
    rewrite Ht. unfold dispatching. cbn [with_trace trace].
    rewrite <- app_assoc. reflexivity.
Qed.

Lemma run_actions_shape (actions : list action) :
  forall (results : list dict) (w : world R),
    exists completed evs,
      run_shape actions completed evs
      /\ trace (snd (run_actions R (execute_single_action R) actions results w))
         = trace w ++ evs
      /\ (completed = true <->
          exists results',
            fst (run_actions R (execute_single_action R) actions results w)
            = Ok (Finished results')).
Proof.
  induction actions as [|a rest IH]; intros results w.
  - exists true, []. cbn. rewrite app_nil_r.
    split; [constructor|]. split; [reflexivity|]. split; eauto.
  - cbn [run_actions]. unfold bind.
    destruct (step_shape a w) as (d & n & Hn & Hknown & Ht).
    destruct (step R (execute_single_action R) a w) as [[[[o stop]|e]|] w1];
      cbn [fst snd] in *.
    3:{ exists false, (dispatch_event a :: attempts_trace (tool_name a) d n 1 ++ []).
        split; [constructor; auto; constructor|].
        rewrite app_nil_r. split; [exact Ht|].
        split; [discriminate|intros [rs Hrs]; discriminate]. }
    + destruct stop.
      * exists false, (dispatch_event a :: attempts_trace (tool_name a) d n 1 ++ []).
        split; [constructor; auto; constructor|].
        rewrite app_nil_r. split; [exact Ht|].
        split; [discriminate|intros [rs Hrs]; discriminate].
      * destruct (IH (results ++ [o]) w1) as (c & evs & Hshape & Htr & Hc).
        exists c, (dispatch_event a :: attempts_trace (tool_name a) d n 1 ++ evs).
        split; [constructor; auto|]. split; [|exact Hc].
        rewrite Htr, Ht, <- app_assoc. reflexivity.
    + exists false, (dispatch_event a :: attempts_trace (tool_name a) d n 1 ++ []).
      split; [constructor; auto; constructor|].
      rewrite app_nil_r. split; [exact Ht|].
      split; [discriminate|intros [rs Hrs]; discriminate].
Qed.

Lemma execute_shape (actions : list action) (w : world R) :
  exists completed evs,
    run_shape actions completed evs
    /\ trace (snd (execute_spotify_actions R actions w))
       = trace w ++ evs ++ (if completed then [EvFormat] else []).
Proof.
  destruct (run_actions_shape actions [] (with_ctx R w initial_context))
    as (c & evs & Hshape & Htr & Hc).
  exists c, evs. split; [exact Hshape|].
  unfold execute_spotify_actions, execute_with, try_except, execute_body,
    bind, attempt, new_context.
  destruct (run_actions R (execute_single_action R) actions []
              (with_ctx R w initial_context)) as [[[[d|results]|e]|] w1];
    cbn [fst snd with_ctx trace] in *.
  4:{ assert (c = false) as ->.
      { destruct c; [|reflexivity]. destruct (proj1 Hc eq_refl) as [rs Hrs].
        discriminate. }
      cbn. rewrite Htr, app_nil_r. reflexivity. }
  - assert (c = false) as ->.
    { destruct c; [|reflexivity]. destruct (proj1 Hc eq_refl) as [rs Hrs]. discriminate. }
    cbn. rewrite Htr, app_nil_r. reflexivity.
  - assert (c = true) as -> by (apply Hc; eauto).
    unfold emit, lift. cbn.
    destruct (format_final_response results); cbn; rewrite Htr, app_assoc; reflexivity.
  - assert (c = false) as ->.
    { destruct c; [|reflexivity]. destruct (proj1 Hc eq_refl) as [rs Hrs]. discriminate. }
    cbn. rewrite Htr, app_nil_r. reflexivity.
Qed.

Lemma attempts_calls (tool t : string) (d d' : dict) (n : nat) :
  forall attempt,
    In (EvCallTool t d') (attempts_trace tool d n attempt) ->
    t = tool /\ d' = d /\ n <> 0%nat.
Proof.
  induction n as [|n IH]; intros attempt Hin; [contradiction|].
  destruct n as [|n].
  - destruct Hin as [[= <- <-]|[]]. auto.
  - destruct Hin as [[= <- <-]|[Hin|Hin]]; [auto|discriminate|].
    destruct (IH _ Hin) as (-> & -> & _). auto.
Qed.

Lemma slept_three_attempts (tool : string) (d : dict) (n : nat) :
  (n <= 3)%nat ->
  slept (attempts_trace tool d n 1) <= RETRY_DELAY * (2 ^ (MAX_RETRIES - 1) - 1).
Proof.
  intros Hn. destruct n as [|[|[|[|n]]]]; cbn; lia.
Qed.

Lemma shape_bounds (actions : list action) (completed : bool) (evs : list event) :
  run_shape actions completed evs ->
  (call_count evs <= Z.to_nat MAX_RETRIES * List.length actions)%nat
  /\ slept evs
     <= RETRY_DELAY * (2 ^ (MAX_RETRIES - 1) - 1) * Z.of_nat (List.length actions).
Proof.
  change (RETRY_DELAY * (2 ^ (MAX_RETRIES - 1) - 1)) with 3.
  change (Z.to_nat MAX_RETRIES) with 3%nat.
  induction 1 as [|rest|a rest d n c evs Hn Hknown Hshape [IHc IHs]].
  - unfold call_count. cbn [filter List.length slept]. lia.
  - unfold call_count. cbn [filter List.length slept]. lia.
  - change (dispatch_event a :: attempts_trace (tool_name a) d n 1 ++ evs)
      with ([dispatch_event a] ++ attempts_trace (tool_name a) d n 1 ++ evs).
    rewrite !call_count_app, !slept_app, call_count_attempts.
    pose proof (slept_three_attempts (tool_name a) d n Hn) as Hs.
    change (RETRY_DELAY * (2 ^ (MAX_RETRIES - 1) - 1)) with 3 in Hs.
    assert (Hd : call_count [dispatch_event a] = 0%nat) by reflexivity.
    assert (Hd' : slept [dispatch_event a] = 0) by reflexivity.
    rewrite Hd, Hd'. cbn [List.length]. lia.
Qed.

Lemma shape_control (actions : list action) (completed : bool) (evs : list event) :
  run_shape actions completed evs ->
  exists k,
    (k <= List.length actions)%nat
    /\ (completed = true -> k = List.length actions)
    /\ control_events evs = map dispatch_event (firstn k actions).
Proof.
  induction 1 as [|rest|a rest d n c evs Hn Hknown Hshape (k & Hk & Hc & Hev)].
  - exists 0%nat. cbn. auto.
  - exists 0%nat. cbn. repeat split; [lia|discriminate].
  - exists (S k). cbn [List.length firstn map]. split; [lia|].
    split; [intros Hcompleted; rewrite (Hc Hcompleted); reflexivity|].
    change (dispatch_event a :: attempts_trace (tool_name a) d n 1 ++ evs)
      with ([dispatch_event a] ++ attempts_trace (tool_name a) d n 1 ++ evs).
    rewrite !control_events_app, control_events_attempts, Hev. reflexivity.
Qed.

Lemma shape_tools (actions : list action) (completed : bool) (evs : list event) :
  run_shape actions completed evs ->
  forall tool d,
    In (EvCallTool tool d) evs ->
    known_tool tool = true /\ exists a, In a actions /\ tool_name a = tool.
Proof.
  induction 1 as [|rest|a rest d n c evs Hn Hknown Hshape IH]; intros tool d' Hin.
  - contradiction.
  - contradiction.
  - destruct Hin as [Hin|Hin]; [discriminate|].
    apply in_app_or in Hin. destruct Hin as [Hin|Hin].
    + destruct (attempts_calls _ _ _ _ _ _ Hin) as (-> & _ & Hpos).
      split; [|exists a; split; [left|]; reflexivity].
      destruct (known_tool (tool_name a)); [reflexivity|].
      exfalso. apply Hpos. apply Hknown. reflexivity.
    + destruct (IH _ _ Hin) as (Hk & b & Hb & Htool).
      split; [exact Hk|]. exists b. split; [right; exact Hb|exact Htool].
Qed.

(** X3: a run over [n] actions sends at most [MAX_RETRIES * n] tool calls
    and sleeps at most [RETRY_DELAY * (2 ^ (MAX_RETRIES - 1) - 1) * n]
    seconds, whatever the session answers. *)
Theorem run_bounds (actions : list action) (w : world R) :
  (call_count (trace (snd (execute_spotify_actions R actions w)))
   <= call_count (trace w) + Z.to_nat MAX_RETRIES * List.length actions)%nat
  /\ slept (trace (snd (execute_spotify_actions R actions w)))
     <= slept (trace w)
        + RETRY_DELAY * (2 ^ (MAX_RETRIES - 1) - 1) * Z.of_nat (List.length actions).
Proof.
  destruct (execute_shape actions w) as (c & evs & Hshape & Ht).
  destruct (shape_bounds _ _ _ Hshape) as [Hc Hs].
  rewrite Ht, !call_count_app, !slept_app.
  assert (Hf : call_count (if c then [EvFormat] else []) = 0%nat)
    by (destruct c; reflexivity).
  assert (Hf' : slept (if c then [EvFormat] else []) = 0)
    by (destruct c; reflexivity).
  rewrite Hf, Hf'. lia.
Qed.

(** X4: the steps are dispatched in the order of the action list, each at
    most once and none skipped: the steps dispatched are the first [k]
    actions, and the response formatter is called only after all of them,
    and then last. *)
Theorem steps_run_in_order (actions : list action) (w : world R) :
  exists (k : nat) (completed : bool),
    (k <= List.length actions)%nat
    /\ (completed = true -> k = List.length actions)
    /\ control_events (trace (snd (execute_spotify_actions R actions w)))
       = control_events (trace w)
         ++ map dispatch_event (firstn k actions)
         ++ (if completed then [EvFormat] else []).
Proof.
  destruct (execute_shape actions w) as (c & evs & Hshape & Ht).
  destruct (shape_control _ _ _ Hshape) as (k & Hk & Hc & Hev).
  exists k, c. split; [exact Hk|]. split; [exact Hc|].
  rewrite Ht, !control_events_app, Hev. destruct c; reflexivity.
Qed.

(** X5: every tool call of a run names the tool of one of the actions,
    and that tool is one of the five kinds: a step with an unknown tool
    name sends nothing. *)
Theorem calls_name_requested_tools (actions : list action) (w : world R) :
  exists evs,
    trace (snd (execute_spotify_actions R actions w)) = trace w ++ evs
    /\ forall tool d,
         In (EvCallTool tool d) evs ->
         known_tool tool = true /\ exists a, In a actions /\ tool_name a = tool.
Proof.
  destruct (execute_shape actions w) as (c & evs & Hshape & Ht).
  exists (evs ++ (if c then [EvFormat] else [])). split; [exact Ht|].
  intros tool d Hin. apply in_app_or in Hin. destruct Hin as [Hin|Hin].
  - exact (shape_tools _ _ _ Hshape _ _ Hin).
  - destruct c; [destruct Hin as [Hin|[]]; discriminate|contradiction].
Qed.

(** X6: an exception that a step raises, an instance of [Exception],
    ends the run: the response is [{"error": str(e)}], the outcomes of the
    earlier steps are not part of it, and no later step is dispatched. *)
Theorem raising_step_ends_the_run (pre post : list action) (a : action)
    (w w1 w2 : world R) (results : list dict) (e : exn) :
  run_actions R (execute_single_action R) pre [] (with_ctx R w initial_context)
  = (Ok (Finished results), w1) ->
  execute_single_action R (tool_name a) (params a) (dispatching a w1) = (Raise e, w2) ->
  execute_spotify_actions R (pre ++ a :: post) w = (Ok (error_record (exn_msg e)), w2)
  /\ control_events (trace w2)
     = control_events (trace w) ++ map dispatch_event (pre ++ [a]).
Proof.
  intros Hpre Hstep. split.
  - unfold execute_spotify_actions, execute_with, try_except, execute_body,
      bind, attempt, new_context.
    rewrite run_actions_app, Hpre. cbn [run_actions]. unfold bind.
    rewrite step_unfold, Hstep. reflexivity.
  - pose proof (dispatch_spec (tool_name a) (params a) (dispatching a w1))
      as (_ & Ht & _).
    rewrite Hstep in Ht. cbn [fst snd] in Ht. rewrite Ht.
    unfold dispatching. cbn [with_trace trace].
    rewrite control_events_app, (run_actions_control _ _ _ _ _ Hpre).
    cbn [with_ctx trace]. rewrite map_app, <- app_assoc. reflexivity.
Qed.

(** ** The search handler, beyond tracks *)

Lemma search_chooses_album (p : nat) (w w1 : world R) (r : tool_result)
    (payload : dict) (item : value) (others : list value) :
  call_tool_with_retry R "SpotifySearch" p MAX_RETRIES w = (Ok (Some r), w1) ->
  isError r = false ->
  json_loads R (first_text (content r) "{}") = Ok (VDict payload) ->
  v_eq_str (py_get (heap w p) "qtype") "album" = true ->
  lookup "albums" payload = Some (VList (item :: others)) ->
  handle_search_action R p w = chosen "album" item w1.
Proof.
  intros Hcall Hok Hjson Hq Halbums.
  destruct (search_of_result p w w1 r Hcall Hok) as [-> Hh].
  cbv [try_except bind attempt parse_search_result lift read_params ret chosen].
  rewrite Hjson, Hh, Hq. cbn [v_get v_get_default v_getitem].
  unfold py_get_default. rewrite Halbums. cbn [truthy v_getitem0].
  destruct (search_result_of R "album" item) as [sr|e]; [reflexivity|].
  destruct (caught_by_search e); reflexivity.
Qed.

Lemma search_chooses_track (p : nat) (w w1 : world R) (r : tool_result)
    (payload : dict) (item : value) (others : list value) :
  call_tool_with_retry R "SpotifySearch" p MAX_RETRIES w = (Ok (Some r), w1) ->
  isError r = false ->
  json_loads R (first_text (content r) "{}") = Ok (VDict payload) ->
  v_eq_str (py_get (heap w p) "qtype") "album" && truthy (py_get payload "albums")
  = false ->
  lookup "tracks" payload = Some (VList (item :: others)) ->
  handle_search_action R p w = chosen "track" item w1.
Proof.
  intros Hcall Hok Hjson Hkind Htracks.
  destruct (search_of_result p w w1 r Hcall Hok) as [-> Hh].
  cbv [try_except bind attempt parse_search_result lift read_params ret chosen].
  rewrite Hjson, Hh. cbn [v_get v_get_default v_getitem].
  unfold py_get in Hkind |- *.
  assert (Hlist : py_get_default payload "tracks" VNone = VList (item :: others))
    by (unfold py_get_default; rewrite Htracks; reflexivity).
  rewrite Htracks.
  destruct (v_eq_str (py_get_default (heap w p) "qtype" VNone) "album");
    cbn [andb] in Hkind; try rewrite Hkind;
    rewrite Hlist; cbn [truthy v_getitem0];
    (destruct (search_result_of R "track" item) as [sr|e]; [reflexivity|]);
    destruct (caught_by_search e); reflexivity.
Qed.

(** X7: a search for [qtype = "album"] whose payload lists albums takes
    the first album, whatever tracks the payload holds: the result has
    [uri = "spotify:album:" + str(id)] and [type = "album"], and the
    artist is chosen as for a track. *)
Theorem search_result_of_album (p : nat) (w w1 : world R) (r : tool_result)
    (payload album : dict) (others : list value) (name item_id : value) :
  call_tool_with_retry R "SpotifySearch" p MAX_RETRIES w = (Ok (Some r), w1) ->
  isError r = false ->
  json_loads R (first_text (content r) "{}") = Ok (VDict payload) ->
  v_eq_str (py_get (heap w p) "qtype") "album" = true ->
  lookup "albums" payload = Some (VList (VDict album :: others)) ->
  lookup "id" album = Some item_id ->
  lookup "name" album = Some name ->
  (forall first more,
     lookup "artists" album = Some (VList (first :: more)) ->
     handle_search_action R p w
     = (Ok (search_success (album_result (R := R) name item_id first)), w1))
  /\ (no_artist_list album ->
      handle_search_action R p w
      = (Ok (search_success
               (album_result (R := R) name item_id
                  (py_get_default album "artist" (VStr "Unknown Artist")))), w1)).
Proof.
  intros Hcall Hok Hjson Hq Halbums Hid Hname.
  rewrite (search_chooses_album p w w1 r payload _ _ Hcall Hok Hjson Hq Halbums).
  assert (Hrun : forall artist,
             artist_of (VDict album) = Ok artist ->
             chosen "album" (VDict album) w1
             = (Ok (search_success (album_result (R := R) name item_id artist)), w1)).
  { intros artist Hartist. unfold chosen, search_result_of, res_bind.
    rewrite Hartist. cbn. rewrite Hname, Hid. reflexivity. }
  split.
  - intros first more Hartists. apply Hrun. eapply artist_of_list; eauto.
  - intros Hno. apply Hrun. apply artist_of_scalar. exact Hno.
Qed.

(** X8: albums are looked at only when [qtype] is exactly ["album"]: for
    any other [qtype], as ["track,album"], a payload without tracks is
    answered with the error that names the query, whatever albums it
    lists. *)
Theorem albums_need_album_qtype (p : nat) (w w1 : world R) (r : tool_result)
    (payload : dict) :
  call_tool_with_retry R "SpotifySearch" p MAX_RETRIES w = (Ok (Some r), w1) ->
  isError r = false ->
  json_loads R (first_text (content r) "{}") = Ok (VDict payload) ->
  v_eq_str (py_get (heap w p) "qtype") "album" = false ->
  truthy (py_get payload "tracks") = false ->
  handle_search_action R p w
  = (Ok (error_record ("No results found for query: "
                         ++ py_str R (py_get (heap w p) "query"))), w1).
Proof.
  intros Hcall Hok Hjson Hq Htracks.
  destruct (search_of_result p w w1 r Hcall Hok) as [-> Hh].
  cbv [try_except bind attempt parse_search_result lift read_params ret].
  rewrite Hjson, Hh, Hq. cbn [v_get v_get_default].
  unfold py_get in Htracks. rewrite Htracks. reflexivity.
Qed.

Lemma artist_of_dict (item : dict) :
  (exists artist, artist_of (VDict item) = Ok artist)
  \/ artist_of (VDict item) = Raise (mk_exn IndexError "list index out of range").
Proof.
  unfold artist_of, res_bind. cbn. unfold has_key.
  destruct (lookup "artists" item) as [[| | | | |[|x l]|]|]; cbn; eauto.
Qed.

(** X9: a payload that cannot be decoded, and a first track that lacks
    its name or its identifier or lists no artist in [artists], are all
    answered with the error ["Failed to parse search results"]. *)
Theorem malformed_search_payload (p : nat) (w w1 : world R) (r : tool_result) :
  call_tool_with_retry R "SpotifySearch" p MAX_RETRIES w = (Ok (Some r), w1) ->
  isError r = false ->
  (forall e,
     json_loads R (first_text (content r) "{}") = Raise e ->
     exn_cls e = JSONDecodeError ->
     handle_search_action R p w
     = (Ok (error_record "Failed to parse search results"), w1))
  /\ (forall payload track others,
        json_loads R (first_text (content r) "{}") = Ok (VDict payload) ->
        v_eq_str (py_get (heap w p) "qtype") "album" && truthy (py_get payload "albums")
        = false ->
        lookup "tracks" payload = Some (VList (VDict track :: others)) ->
        lookup "name" track = None \/ lookup "id" track = None
        \/ lookup "artists" track = Some (VList []) ->
        handle_search_action R p w
        = (Ok (error_record "Failed to parse search results"), w1)).
Proof.
  intros Hcall Hok. split.
  - intros e Hjson Hcls.
    destruct (search_of_result p w w1 r Hcall Hok) as [-> _].
    cbv [try_except bind attempt parse_search_result lift read_params ret].
    rewrite Hjson. unfold caught_by_search. rewrite Hcls. reflexivity.
  - intros payload track others Hjson Hkind Htracks Hbad.
    rewrite (search_chooses_track p w w1 r payload _ _ Hcall Hok Hjson Hkind Htracks).
    unfold chosen, search_result_of, res_bind.
    destruct Hbad as [Hname|[Hid|Hartists]].
    + destruct (artist_of_dict track) as [[artist ->]| ->]; [|reflexivity].
      cbn. rewrite Hname. reflexivity.
    + destruct (artist_of_dict track) as [[artist ->]| ->]; [|reflexivity].
      cbn. rewrite Hid. destruct (lookup "name" track); reflexivity.
    + unfold artist_of, res_bind. cbn. unfold has_key. rewrite Hartists. reflexivity.
Qed.

(** X10: a payload that decodes to something other than an object is not
    reported as a parse failure: reading it raises an [AttributeError],
    which the handler does not catch and raises to its caller. *)
Theorem non_object_payload_escapes (p : nat) (w w1 : world R) (r : tool_result)
    (payload : value) :
  call_tool_with_retry R "SpotifySearch" p MAX_RETRIES w = (Ok (Some r), w1) ->
  isError r = false ->
  json_loads R (first_text (content r) "{}") = Ok payload ->
  not_a_dict payload ->
  handle_search_action R p w
  = (Raise (attribute_error (type_name payload) "get"), w1)
  /\ caught_by_search (attribute_error (type_name payload) "get") = false.
Proof.
  intros Hcall Hok Hjson Hnot.
  destruct (search_of_result p w w1 r Hcall Hok) as [-> _].
  cbv [try_except bind attempt parse_search_result lift read_params ret].
  rewrite Hjson. split; [|reflexivity].
  destruct payload; try contradiction;
    destruct (v_eq_str (py_get (heap w1 p) "qtype") "album"); reflexivity.
Qed.

(** ** The info handler *)

Lemma get_info_after_call (p : nat) (w w1 : world R) (uri : value)
    (result : res (option tool_result)) :
  (truthy (py_get (ctx w) "search_result")
   && negb (truthy (py_get (heap w p) "item_uri")) = true ->
   v_getitem (py_get (ctx w) "search_result") "uri" = Ok uri) ->
  call_tool_with_retry R "SpotifyGetInfo" p MAX_RETRIES (resolving p "item_uri" uri w)
  = (result, w1) ->
  handle_get_info_action R p w
  = match result with
    | Ok found => info_of_result found w1
    | Raise e => (Raise e, w1)
    end.
Proof.
  intros Huri Hcall. unfold resolving in Hcall.
  unfold handle_get_info_action, info_of_result.
  cbv [bind ctx_get read_params lift ret].
  destruct (truthy (py_get (ctx w) "search_result")
            && negb (truthy (py_get (heap w p) "item_uri")))%bool.
  - rewrite (Huri eq_refl). cbv [set_param] in Hcall |- *. cbn [snd] in Hcall.
    rewrite Hcall. destruct result; reflexivity.
  - rewrite Hcall. destruct result; reflexivity.
Qed.

(** X11: what the info handler makes of the tool's answer: a reported
    error gives ["Failed to get album tracks"], a text that cannot be
    decoded gives ["Failed to parse album information"], an object without
    tracks or with an empty track list gives ["No tracks found in album"],
    and an object with tracks is returned as the result, its tracks being
    stored in the context under [album_tracks]. *)
Theorem get_info_outcomes (p : nat) (w w1 : world R) (uri : value) (r : tool_result) :
  (truthy (py_get (ctx w) "search_result")
   && negb (truthy (py_get (heap w p) "item_uri")) = true ->
   v_getitem (py_get (ctx w) "search_result") "uri" = Ok uri) ->
  call_tool_with_retry R "SpotifyGetInfo" p MAX_RETRIES (resolving p "item_uri" uri w)
  = (Ok (Some r), w1) ->
  (isError r = true ->
   handle_get_info_action R p w = (Ok (error_record "Failed to get album tracks"), w1))
  /\ (isError r = false ->
      (forall e,
         json_loads R (first_text (content r) "{}") = Raise e ->
         exn_cls e = JSONDecodeError ->
         handle_get_info_action R p w
         = (Ok (error_record "Failed to parse album information"), w1))
      /\ (forall payload,
            json_loads R (first_text (content r) "{}") = Ok (VDict payload) ->
            truthy (py_get_default payload "tracks" (VList [])) = false ->
            handle_get_info_action R p w
            = (Ok (error_record "No tracks found in album"), w1))
      /\ (forall payload,
            json_loads R (first_text (content r) "{}") = Ok (VDict payload) ->
            truthy (py_get_default payload "tracks" (VList [])) = true ->
            handle_get_info_action R p w
            = (Ok (info_success (VDict payload)),
               with_ctx R w1
                 (py_set (ctx w1) "album_tracks"
                    (py_get_default payload "tracks" (VList [])))))).
Proof.
  intros Huri Hcall.
  rewrite (get_info_after_call p w w1 uri _ Huri Hcall).
  unfold info_of_result.
  cbv [bind lift ret the_result try_except attempt parse_album_info ctx_set].
  split.
  - intros ->. reflexivity.
  - intros ->. split; [|split].
    + intros e -> Hcls. unfold caught_by_get_info. rewrite Hcls. reflexivity.
    + intros payload -> Hnone. cbn [v_get_default]. rewrite Hnone. reflexivity.
    + intros payload -> Hsome. cbn [v_get_default]. rewrite Hsome. reflexivity.
Qed.

Lemma get_info_stores (p : nat) (w : world R) :
  match handle_get_info_action R p w with
  | (Ok d, w') =>
      (is_error d = true /\ ctx w' = ctx w)
      \/ (exists payload tracks,
            d = info_success payload
            /\ v_get_default payload "tracks" (VList []) = Ok tracks
            /\ truthy tracks = true
            /\ ctx w' = py_set (ctx w) "album_tracks" tracks)
  | (Raise _, w') => ctx w' = ctx w
  | (Cancelled, w') => ctx w' = ctx w
  end.
Proof.
  unfold handle_get_info_action, parse_album_info.
  repeat exec_step; run_monad.
  all: try congruence.
  all: first
         [ left; split; [reflexivity|congruence]
         | right; do 2 eexists; split; [reflexivity|];
           split; [eassumption|]; split; [|f_equal; congruence];
           match goal with
           | H : negb (truthy ?t) = false |- truthy ?t = true =>
               apply negb_false_iff in H; exact H
           end ].
Qed.

(** X12: a successful info step writes two entries of the context: the
    handler stores the track list of the payload, which is not empty,
    under [album_tracks], and the executor stores the payload under
    [album_info]; the step does not end the run. *)
Theorem info_step_context (a : action) (w w' : world R) (outcome : dict) (stop : bool) :
  tool_name a = "SpotifyGetInfo" ->
  step R (execute_single_action R) a w = (Ok (outcome, stop), w') ->
  is_error outcome = false ->
  stop = false
  /\ exists payload tracks,
       outcome = info_success payload
       /\ v_get_default payload "tracks" (VList []) = Ok tracks
       /\ truthy tracks = true
       /\ ctx w'
          = py_set (py_set (ctx w) "album_tracks" tracks) "album_info" payload.
Proof.
  intros Htool Hstep Hok. rewrite step_unfold, Htool in Hstep.
  change (execute_single_action R "SpotifyGetInfo" (params a) (dispatching a w))
    with (handle_get_info_action R (params a) (dispatching a w)) in Hstep.
  pose proof (get_info_stores (params a) (dispatching a w)) as Hstores.
  destruct (handle_get_info_action R (params a) (dispatching a w)) as [[[d|e]|] w1];
    [|discriminate|discriminate].
  cbn [String.eqb Ascii.eqb Bool.eqb andb] in Hstep. rewrite andb_false_r in Hstep.
  injection Hstep as <- <- <-. split; [reflexivity|].
  destruct Hstores as [[Herr _]|(payload & tracks & -> & Hget & Htruthy & Hctx)];
    [congruence|].
  exists payload, tracks. repeat split; auto.
  cbn. rewrite Hctx. reflexivity.
Qed.

(** ** References filled in from the context *)

Ltac finish_sends_once :=
  run_monad; unfold sends;
  match goal with
  | Ht : trace _ = _ ++ attempts_trace _ _ ?n _,
    Hpos : 0 < MAX_RETRIES -> (1 <= ?n)%nat |- _ =>
      specialize (Hpos eq_refl);
      cbn beta in Ht; rewrite ?Nat.eqb_refl in Ht;
      split;
      [ exists n; split;
        [ unfold MAX_RETRIES in *; lia
        | cbn [trace heap];
          repeat match goal with Hh : heap _ = _ |- _ => rewrite Hh end;
          cbn beta; rewrite ?Nat.eqb_refl; rewrite Ht; reflexivity ]
      | cbn [trace heap];
        repeat match goal with Hh : heap _ = _ |- _ => rewrite Hh end;
        cbn beta; rewrite ?Nat.eqb_refl; reflexivity ]
  end.

(** X13: an info step whose [item_uri] is absent or falsy, run with a
    search result in the context, sets [item_uri] to the [uri] of that
    result before it calls the tool, so that every attempt carries it; an
    [item_uri] that is set is sent as it is and the dictionary is left
    alone.  The tool is called at least once and at most three times. *)
Theorem info_reference_resolved (p : nat) (w : world R) :
  (forall uri,
     truthy (py_get (ctx w) "search_result") = true ->
     v_getitem (py_get (ctx w) "search_result") "uri" = Ok uri ->
     truthy (py_get (heap w p) "item_uri") = false ->
     sends "SpotifyGetInfo" p 1 w (snd (handle_get_info_action R p w))
     /\ heap (snd (handle_get_info_action R p w)) p
        = py_set (heap w p) "item_uri" uri)
  /\ (truthy (py_get (heap w p) "item_uri") = true ->
      sends "SpotifyGetInfo" p 1 w (snd (handle_get_info_action R p w))
      /\ heap (snd (handle_get_info_action R p w)) = heap w).
Proof.
  split.
  - intros uri Hsr Huri Hkey.
    unfold handle_get_info_action, parse_album_info.
    run_monad. rewrite Hsr, Hkey, Huri. cbn [andb negb].
    repeat exec_step_calls.
    all: finish_sends_once.
  - intros Hkey.
    unfold handle_get_info_action, parse_album_info.
    run_monad. rewrite Hkey. cbn [negb]. rewrite andb_false_r.
    repeat exec_step_calls.
    all: finish_sends_once.
Qed.

(** X14: a queue step whose [track_id] is absent or falsy, run with a
    search result in the context, sets [track_id] to the [uri] of that
    result before it calls the tool, so that every attempt carries it; a
    [track_id] that is set is sent as it is and the dictionary is left
    alone.  The tool is called at least once and at most three times. *)
Theorem queue_reference_resolved (p : nat) (w : world R) :
  (forall uri,
     truthy (py_get (ctx w) "search_result") = true ->
     v_getitem (py_get (ctx w) "search_result") "uri" = Ok uri ->
     truthy (py_get (heap w p) "track_id") = false ->
     sends "SpotifyQueue" p 1 w (snd (handle_queue_action R p w))
     /\ heap (snd (handle_queue_action R p w)) p
        = py_set (heap w p) "track_id" uri)
  /\ (truthy (py_get (heap w p) "track_id") = true ->
      sends "SpotifyQueue" p 1 w (snd (handle_queue_action R p w))
      /\ heap (snd (handle_queue_action R p w)) = heap w).
Proof.
  split.
  - intros uri Hsr Huri Hkey.
    unfold handle_queue_action.
    run_monad. rewrite Hsr, Hkey, Huri. cbn [andb negb].
    repeat exec_step_calls.
    all: finish_sends_once.
  - intros Hkey.
    unfold handle_queue_action.
    run_monad. rewrite Hkey. cbn [negb andb]. rewrite andb_false_r.
    repeat exec_step_calls.
    all: finish_sends_once.
Qed.

(** X15: a playback step fills in [spotify_uri] only for the action
    ["start"], with a search result in the context and no [spotify_uri]
    of its own: it then sends the [uri] of the result, or
    ["spotify:track:" + uri] when that [uri] holds no colon.  For every
    other action, and for a [spotify_uri] that is set, the dictionary is
    sent as it is. *)
Theorem playback_reference_resolved (p : nat) (w : world R) :
  (forall uri has_colon,
     v_eq_str (py_get (heap w p) "action") "start" = true ->
     truthy (py_get (ctx w) "search_result") = true ->
     v_getitem (py_get (ctx w) "search_result") "uri" = Ok uri ->
     v_contains ":" uri = Ok has_colon ->
     truthy (py_get (heap w p) "spotify_uri") = false ->
     sends "SpotifyPlayback" p 1 w (snd (handle_playback_action R p w))
     /\ heap (snd (handle_playback_action R p w)) p
        = py_set (heap w p) "spotify_uri" (playback_uri (R := R) uri has_colon))
  /\ (v_eq_str (py_get (heap w p) "action") "start" = false
      \/ truthy (py_get (heap w p) "spotify_uri") = true
      \/ truthy (py_get (ctx w) "search_result") = false ->
      sends "SpotifyPlayback" p 1 w (snd (handle_playback_action R p w))
      /\ heap (snd (handle_playback_action R p w)) = heap w).
Proof.
  split.
  - intros uri has_colon Hstart Hsr Huri Hcolon Hkey.
    unfold handle_playback_action, playback_response, playback_uri.
    run_monad. rewrite Hstart, Hsr, Hkey, Huri, Hcolon. cbn [andb negb].
    destruct has_colon; cbn [negb].
    all: repeat exec_step_calls.
    all: finish_sends_once.
  - intros Hkeep.
    unfold handle_playback_action, playback_response.
    run_monad.
    destruct Hkeep as [Hother|[Hkey|Hsr]].
    + rewrite Hother.
      repeat exec_step_calls.
      all: finish_sends_once.
    + rewrite Hkey. cbn [negb]. rewrite andb_false_r.
      repeat exec_step_calls.
      all: finish_sends_once.
    + rewrite Hsr. cbn [andb].
      repeat exec_step_calls.
      all: finish_sends_once.
Qed.

(** ** The queue and playback handlers *)

Lemma queue_after_call (p : nat) (w w1 : world R) (uri : value)
    (result : res (option tool_result)) :
  negb (truthy (py_get (heap w p) "track_id"))
  && negb (truthy (py_get (ctx w) "search_result")) = false ->
  (truthy (py_get (ctx w) "search_result")
   && negb (truthy (py_get (heap w p) "track_id")) = true ->
   v_getitem (py_get (ctx w) "search_result") "uri" = Ok uri) ->
  call_tool_with_retry R "SpotifyQueue" p MAX_RETRIES (resolving p "track_id" uri w)
  = (result, w1) ->
  handle_queue_action R p w
  = match result with
    | Ok found => queue_of_result (py_get (ctx w) "search_result") found w1
    | Raise e => (Raise e, w1)
    end.
Proof.
  intros Hvalid Huri Hcall. unfold resolving in Hcall.
  unfold handle_queue_action, queue_of_result.
  cbv [bind ctx_get read_params lift ret]. rewrite Hvalid.
  destruct (truthy (py_get (ctx w) "search_result")
            && negb (truthy (py_get (heap w p) "track_id")))%bool.
  - rewrite (Huri eq_refl). cbv [set_param] in Hcall |- *. cbn [snd] in Hcall.
    rewrite Hcall. destruct result; reflexivity.
  - rewrite Hcall. destruct result; reflexivity.
Qed.

Lemma described_item (item : dict) (ty name artist : value) :
  lookup "type" item = Some ty ->
  lookup "name" item = Some name ->
  lookup "artist" item = Some artist ->
  truthy (VDict item) = true
  /\ item_type_of (VDict item) = Ok (kind_word ty)
  /\ describe_item R (kind_word ty) (VDict item) = Ok (described (R := R) ty name artist).
Proof.
  intros Hty Hname Hartist. split; [|split].
  - destruct item; [discriminate|reflexivity].
  - unfold item_type_of, res_bind. cbn. rewrite Hty. reflexivity.
  - unfold describe_item, res_bind. cbn. rewrite Hname, Hartist. reflexivity.
Qed.

(** X16: what the queue handler makes of the tool's answer, once it has a
    track to queue: a reported error gives ["Failed to add to queue: "]
    followed by the first text of the answer, which may be empty; without
    a search result the success message is ["Added item to queue"]; with
    a search result in the context the message names that result and the
    outcome carries it as [item], also when the step had a [track_id] of
    its own. *)
Theorem queue_outcomes (p : nat) (w w1 : world R) (uri : value) (r : tool_result) :
  negb (truthy (py_get (heap w p) "track_id"))
  && negb (truthy (py_get (ctx w) "search_result")) = false ->
  (truthy (py_get (ctx w) "search_result")
   && negb (truthy (py_get (heap w p) "track_id")) = true ->
   v_getitem (py_get (ctx w) "search_result") "uri" = Ok uri) ->
  call_tool_with_retry R "SpotifyQueue" p MAX_RETRIES (resolving p "track_id" uri w)
  = (Ok (Some r), w1) ->
  (isError r = true ->
   handle_queue_action R p w
   = (Ok (error_record ("Failed to add to queue: " ++ first_text (content r) "")), w1))
  /\ (isError r = false ->
      truthy (py_get (ctx w) "search_result") = false ->
      handle_queue_action R p w
      = (Ok [("action", VStr "queue"); ("message", VStr "Added item to queue")], w1))
  /\ (isError r = false ->
      forall item ty name artist,
        py_get (ctx w) "search_result" = VDict item ->
        lookup "type" item = Some ty ->
        lookup "name" item = Some name ->
        lookup "artist" item = Some artist ->
        handle_queue_action R p w
        = (Ok [("action", VStr "queue");
               ("message",
                VStr ("Added " ++ described (R := R) ty name artist ++ " to queue"));
               ("item", VDict item)], w1)).
Proof.
  intros Hvalid Huri Hcall.
  rewrite (queue_after_call p w w1 uri _ Hvalid Huri Hcall).
  unfold queue_of_result. cbv [bind lift ret the_result].
  split; [|split].
  - intros ->. reflexivity.
  - intros -> ->. reflexivity.
  - intros -> item ty name artist -> Hty Hname Hartist.
    destruct (described_item item ty name artist Hty Hname Hartist)
      as (-> & -> & ->).
    reflexivity.
Qed.

Lemma playback_after_call (p : nat) (w w1 : world R) (uri : value) (has_colon : bool)
    (result : res (option tool_result)) :
  (v_eq_str (py_get (heap w p) "action") "start" = true ->
   truthy (py_get (ctx w) "search_result")
   && negb (truthy (py_get (heap w p) "spotify_uri")) = true ->
   v_getitem (py_get (ctx w) "search_result") "uri" = Ok uri
   /\ v_contains ":" uri = Ok has_colon) ->
  call_tool_with_retry R "SpotifyPlayback" p MAX_RETRIES (playing p uri has_colon w)
  = (result, w1) ->
  handle_playback_action R p w
  = match result with
    | Ok found => playback_of_result p (py_get (ctx w) "search_result") found w1
    | Raise e => (Raise e, w1)
    end
  /\ lookup "action" (heap w1 p) = lookup "action" (heap w p).
Proof.
  intros Huri Hcall.
  assert (Haction : lookup "action" (heap w1 p) = lookup "action" (heap w p)).
  { pose proof (retry_frame "SpotifyPlayback" p MAX_RETRIES (playing p uri has_colon w))
      as (Hh & _).
    rewrite Hcall in Hh. cbn [snd] in Hh. rewrite Hh.
    unfold playing, resolving.
    destruct (v_eq_str (py_get (heap w p) "action") "start"); [|reflexivity].
    destruct (truthy (py_get (ctx w) "search_result")
              && negb (truthy (py_get (heap w p) "spotify_uri")))%bool;
      [|reflexivity].
    cbn. rewrite Nat.eqb_refl. rewrite lookup_py_set. reflexivity. }
  split; [|exact Haction].
  unfold playing, resolving in Hcall.
  unfold handle_playback_action, playback_of_result.
  cbv [bind ctx_get read_params lift ret].
  destruct (v_eq_str (py_get (heap w p) "action") "start").
  - destruct (truthy (py_get (ctx w) "search_result")
              && negb (truthy (py_get (heap w p) "spotify_uri")))%bool.
    + destruct (Huri eq_refl eq_refl) as [-> ->].
      unfold playback_uri in Hcall.
      destruct has_colon; cbn [negb]; rewrite ?(proj1 (Huri eq_refl eq_refl));
        cbv [set_param] in Hcall |- *; cbn [snd] in Hcall;
        rewrite Hcall; destruct result; reflexivity.
    + rewrite Hcall. destruct result; reflexivity.
  - rewrite Hcall. destruct result; reflexivity.
Qed.

(** X17: what the playback handler makes of the tool's answer: a reported
    error gives ["Playback action failed: "], the action, a colon and the
    first text of the answer, which may be empty; ["pause"] and ["skip"]
    have their own messages; ["start"] without a search result is a
    resume, and with one it names the result and carries it as [item];
    any other action is reported as executed, with the action as
    [type], or ["unknown"] when the step names none. *)
Theorem playback_outcomes (p : nat) (w w1 : world R) (uri : value) (has_colon : bool)
    (r : tool_result) :
  (v_eq_str (py_get (heap w p) "action") "start" = true ->
   truthy (py_get (ctx w) "search_result")
   && negb (truthy (py_get (heap w p) "spotify_uri")) = true ->
   v_getitem (py_get (ctx w) "search_result") "uri" = Ok uri
   /\ v_contains ":" uri = Ok has_colon) ->
  call_tool_with_retry R "SpotifyPlayback" p MAX_RETRIES (playing p uri has_colon w)
  = (Ok (Some r), w1) ->
  (isError r = true ->
   handle_playback_action R p w
   = (Ok (error_record ("Playback action failed: "
                          ++ py_str R (py_get (heap w p) "action")
                          ++ ": " ++ first_text (content r) "")), w1))
  /\ (isError r = false ->
      (py_get (heap w p) "action" = VStr "pause" ->
       handle_playback_action R p w
       = (Ok [("action", VStr "playback"); ("type", VStr "pause");
              ("message", VStr "Playback paused")], w1))
      /\ (py_get (heap w p) "action" = VStr "skip" ->
          handle_playback_action R p w
          = (Ok [("action", VStr "playback"); ("type", VStr "skip");
                 ("message", VStr "Skipped to next track")], w1))
      /\ (py_get (heap w p) "action" = VStr "start" ->
          truthy (py_get (ctx w) "search_result") = false ->
          handle_playback_action R p w
          = (Ok [("action", VStr "playback"); ("type", VStr "resume");
                 ("message", VStr "Resuming playback")], w1))
      /\ (py_get (heap w p) "action" = VStr "start" ->
          forall item ty name artist,
            py_get (ctx w) "search_result" = VDict item ->
            lookup "type" item = Some ty ->
            lookup "name" item = Some name ->
            lookup "artist" item = Some artist ->
            handle_playback_action R p w
            = (Ok [("action", VStr "playback"); ("type", VStr "start");
                   ("message", VStr ("Playing " ++ described (R := R) ty name artist));
                   ("item", VDict item)], w1))
      /\ (v_eq_str (py_get (heap w p) "action") "start" = false ->
          v_eq_str (py_get (heap w p) "action") "pause" = false ->
          v_eq_str (py_get (heap w p) "action") "skip" = false ->
          handle_playback_action R p w
          = (Ok [("action", VStr "playback");
                 ("type", py_get_default (heap w p) "action" (VStr "unknown"));
                 ("message", VStr "Playback command executed")], w1))).
Proof.
  intros Huri Hcall.
  destruct (playback_after_call p w w1 uri has_colon _ Huri Hcall) as [-> Hlookup].
  assert (Hdefault : py_get_default (heap w1 p) "action" (VStr "unknown")
                     = py_get_default (heap w p) "action" (VStr "unknown"))
    by (unfold py_get_default; rewrite Hlookup; reflexivity).
  assert (Haction : py_get (heap w1 p) "action" = py_get (heap w p) "action")
    by (unfold py_get, py_get_default; rewrite Hlookup; reflexivity).
  unfold playback_of_result.
  cbv [bind lift ret the_result read_params playback_response res_bind].
  rewrite Haction.
  split.
  - intros ->. reflexivity.
  - intros ->. split; [|split; [|split; [|split]]].
    + intros ->. reflexivity.
    + intros ->. reflexivity.
    + intros -> ->. reflexivity.
    + intros -> item ty name artist -> Hty Hname Hartist.
      destruct (described_item item ty name artist Hty Hname Hartist)
        as (-> & -> & ->).
      reflexivity.
    + intros -> -> ->. rewrite Hdefault. reflexivity.
Qed.

(** ** The responses of the executor *)

Lemma py_last_in {A : Type} (xs : list A) :
  xs <> [] -> exists x, py_last xs = Ok x /\ In x xs.
Proof.
  intros Hne. unfold py_last. destruct (rev xs) as [|x l] eqn:Hrev.
  - exfalso. apply Hne. rewrite <- (rev_involutive xs), Hrev. reflexivity.
  - exists x. split; [reflexivity|]. apply in_rev. rewrite Hrev. left. reflexivity.
Qed.

Lemma filter_none_left {A : Type} (p : A -> bool) (l : list A) :
  filter (fun x => negb (p x)) l = [] -> filter p l = l.
Proof.
  induction l as [|x l IH]; [reflexivity|]. cbn.
  destruct (p x); cbn; [|discriminate]. intros H. rewrite (IH H). reflexivity.
Qed.

Lemma says_text_default (d : dict) (s : string) :
  says_text d -> exists m, py_get_default d "message" (VStr s) = VStr m.
Proof.
  unfold says_text, py_get_default. destruct (lookup "message" d).
  - intros H. exact H.
  - intros _. eexists. reflexivity.
Qed.

Lemma format_on_outcomes (results : list dict) :
  results <> [] ->
  Forall says_text results ->
  exists d, format_final_response results = Ok d /\ response_ok d.
Proof.
  intros Hne Htext. unfold format_final_response.
  destruct (filter is_error results) as [|e errs] eqn:Herrs.
  - destruct (py_last_in results Hne) as (x & -> & Hin). cbn [res_bind].
    destruct (says_text_default x "Command executed successfully"
                (proj1 (Forall_forall _ _) Htext x Hin)) as [m ->].
    eexists. split; [reflexivity|]. right. eauto.
  - destruct (Nat.eqb (List.length (e :: errs)) (List.length results)) eqn:Hlen.
    + destruct (py_last_in (e :: errs)) as (x & -> & Hin); [discriminate|].
      exists x. split; [reflexivity|]. left.
      rewrite <- Herrs in Hin. apply filter_In in Hin. apply Hin.
    + assert (Hsome : filter (fun r => negb (is_error r)) results <> []).
      { intros Hnone. apply filter_none_left in Hnone.
        rewrite <- Herrs, Hnone, Nat.eqb_refl in Hlen. discriminate. }
      destruct (py_last_in _ Hsome) as (x & -> & Hin). cbn [res_bind].
      apply filter_In in Hin.
      destruct (says_text_default x "Partial success"
                  (proj1 (Forall_forall _ _) Htext x (proj1 Hin))) as [m ->].
      cbn [py_add_str res_bind].
      eexists. split; [reflexivity|]. right. eauto.
Qed.

(** X18: on a list of outcomes that is not empty, and in which every
    [message] is a string, the formatter raises nothing, and its response
    has the key [error], or is a [message] string with [details]. *)
Theorem formatter_answers (results : list dict) :
  results <> [] ->
  Forall says_text results ->
  exists d, format_final_response results = Ok d /\ response_ok d.
Proof.
  exact (format_on_outcomes results).
Qed.

Ltac solve_text :=
  let d := fresh "d" in
  let Hd := fresh "Hd" in
  intros d Hd;
  first
    [ discriminate Hd
    | injection Hd as <-; unfold says_text; cbn;
      first [ exact I | eexists; reflexivity ] ].

Lemma search_says_text (p : nat) (w : world R) :
  forall d, fst (handle_search_action R p w) = Ok d -> says_text d.
Proof.
  unfold handle_search_action, parse_search_result.
  repeat exec_step; run_monad; solve_text.
Qed.

Lemma get_info_says_text (p : nat) (w : world R) :
  forall d, fst (handle_get_info_action R p w) = Ok d -> says_text d.
Proof.
  unfold handle_get_info_action, parse_album_info.
  repeat exec_step; run_monad; solve_text.
Qed.

Lemma playback_says_text (p : nat) (w : world R) :
  forall d, fst (handle_playback_action R p w) = Ok d -> says_text d.
Proof.
  unfold handle_playback_action, playback_response.
  repeat exec_step; run_monad; solve_text.
Qed.

Lemma queue_says_text (p : nat) (w : world R) :
  forall d, fst (handle_queue_action R p w) = Ok d -> says_text d.
Proof.
  unfold handle_queue_action.
  repeat exec_step; run_monad; solve_text.
Qed.

Lemma playlist_says_text (p : nat) (w : world R) :
  forall d, fst (handle_playlist_action R p w) = Ok d -> says_text d.
Proof.
  unfold handle_playlist_action, parse_listing.
  repeat exec_step; run_monad; solve_text.
Qed.

Lemma dispatch_says_text (tool : string) (p : nat) (w : world R) :
  forall d, fst (execute_single_action R tool p w) = Ok d -> says_text d.
Proof.
  unfold execute_single_action.
  destruct (String.eqb tool "SpotifySearch"); [apply search_says_text|].
  destruct (String.eqb tool "SpotifyGetInfo"); [apply get_info_says_text|].
  destruct (String.eqb tool "SpotifyPlayback"); [apply playback_says_text|].
  destruct (String.eqb tool "SpotifyQueue"); [apply queue_says_text|].
  destruct (String.eqb tool "SpotifyPlaylist"); [apply playlist_says_text|].
  run_monad. solve_text.
Qed.

Lemma run_actions_outcomes (actions : list action) :
  forall (results : list dict) (w : world R),
    Forall says_text results ->
    match fst (run_actions R (execute_single_action R) actions results w) with
    | Ok (Returned r) => is_error r = true
    | Ok (Finished rs) =>
        Forall says_text rs
        /\ List.length rs = (List.length results + List.length actions)%nat
    | Raise _ => True
    | Cancelled => True
    end.
Proof.
  induction actions as [|a rest IH]; intros results w Htext.
  - cbn. split; [exact Htext|]. rewrite Nat.add_0_r. reflexivity.
  - cbn [run_actions]. cbv [bind]. rewrite step_unfold.
    pose proof (dispatch_says_text (tool_name a) (params a) (dispatching a w)) as Hd.
    destruct (execute_single_action R (tool_name a) (params a) (dispatching a w))
      as [[[d|e]|] w1]; cbn [fst] in Hd; [|exact I|exact I].
    destruct (is_error d && String.eqb (tool_name a) "SpotifySearch")%bool eqn:Hstop;
      cbn [fst snd ret].
    + apply andb_true_iff in Hstop. apply Hstop.
    + specialize (IH (results ++ [d]) (snd (update_context R d w1))).
      destruct (fst (run_actions R (execute_single_action R) rest (results ++ [d])
                       (snd (update_context R d w1)))) as [[[r|rs]|e]|].
      4:{ exact I. }
      * apply IH. apply Forall_app. split; [exact Htext|].
        constructor; [apply Hd; reflexivity|constructor].
      * destruct IH as [Hall Hlen].
        { apply Forall_app. split; [exact Htext|].
          constructor; [apply Hd; reflexivity|constructor]. }
        split; [exact Hall|]. rewrite Hlen, length_app. cbn. lia.
      * exact I.
Qed.



(** X20: a run over at least one action in which no step raises is
    answered by the outcome of a failed search or by the formatter, which
    then raises nothing: the response is the message of a caught
    exception only when a step raised or there was no action. *)
Theorem finished_runs_are_formatted (actions : list action) (w w1 : world R)
    (how : loop_exit) :
  actions <> [] ->
  run_actions R (execute_single_action R) actions [] (with_ctx R w initial_context)
  = (Ok how, w1) ->
  match how with
  | Returned r =>
      is_error r = true /\ execute_spotify_actions R actions w = (Ok r, w1)
  | Finished rs =>
      exists d,
        format_final_response rs = Ok d
        /\ execute_spotify_actions R actions w
           = (Ok d, with_trace R w1 (trace w1 ++ [EvFormat]))
  end.
Proof.
  intros Hne Hloop.
  pose proof (run_actions_outcomes actions [] (with_ctx R w initial_context)
                (Forall_nil _)) as Hrun.
  unfold execute_spotify_actions, execute_with, try_except, execute_body,
    bind, attempt, new_context.
  rewrite Hloop in *. cbn [fst snd] in *.
  destruct how as [r|rs].
  - split; [exact Hrun|reflexivity].
  - destruct Hrun as [Hall Hlen].
    destruct (format_on_outcomes rs) as (d & Hd & _); [|exact Hall|].
    + intros ->. destruct actions; [congruence|discriminate].
    + exists d. split; [exact Hd|]. unfold emit, lift. cbn [fst snd].
      rewrite Hd. reflexivity.
Qed.

(** ** The playlist handler *)

(** X21: the playlist handler calls the tool exactly when the step has
    what its sub-action requires: [get] needs nothing, [get_tracks] a
    [playlist_id], [add_tracks] and [remove_tracks] a [playlist_id] and
    [track_ids], [change_details] a [playlist_id] and a [name] or a
    [description].  A step that has it is sent at least once and at most
    three times; any other step, one with an unknown sub-action included,
    gets an error and the world is left as it was. *)
Theorem playlist_calls_when_ready (p : nat) (w : world R) :
  (playlist_ready (heap w p) = true ->
   sends "SpotifyPlaylist" p 1 w (snd (handle_playlist_action R p w)))
  /\ (playlist_ready (heap w p) = false ->
      snd (handle_playlist_action R p w) = w
      /\ exists msg, fst (handle_playlist_action R p w) = Ok (error_record msg)).
Proof.
  split; intros Hready; revert Hready;
    unfold playlist_ready, handle_playlist_action, parse_listing; run_monad.
  - destruct (v_eq_str (py_get (heap w p) "action") "get");
      [|destruct (v_eq_str (py_get (heap w p) "action") "get_tracks");
        [|destruct (v_eq_str (py_get (heap w p) "action") "add_tracks"
                    || v_eq_str (py_get (heap w p) "action") "remove_tracks")%bool;
          [|destruct (v_eq_str (py_get (heap w p) "action") "change_details");
            [|discriminate]]]];
      intros Hready; rewrite ?Hready; cbn [negb];
      try (apply andb_true_iff in Hready; destruct Hready as [Hid Hrest];
           rewrite Hid; cbn [negb orb];
           try rewrite Hrest; try (apply orb_true_iff in Hrest;
                                   destruct Hrest as [Hrest|Hrest]; rewrite Hrest);
           cbn [negb andb orb]; rewrite ?andb_false_r).
    all: repeat exec_step_calls.
    all: match goal with
         | Hpos : 0 < MAX_RETRIES -> _ |- _ => specialize (Hpos eq_refl)
         end.
    all: finish_sends.
  - destruct (v_eq_str (py_get (heap w p) "action") "get"); [discriminate|].
    destruct (v_eq_str (py_get (heap w p) "action") "get_tracks").
    { intros ->. cbn. eauto. }
    destruct (v_eq_str (py_get (heap w p) "action") "add_tracks"
              || v_eq_str (py_get (heap w p) "action") "remove_tracks")%bool.
    { intros Hready. apply andb_false_iff in Hready.
      destruct Hready as [->| ->]; cbn [negb orb]; rewrite ?orb_true_r; cbn; eauto. }
    destruct (v_eq_str (py_get (heap w p) "action") "change_details").
    { intros Hready. apply andb_false_iff in Hready.
      destruct Hready as [->|Hnone]; cbn [negb orb]; [cbn; eauto|].
      apply orb_false_iff in Hnone. destruct Hnone as [-> ->].
      cbn [negb andb]. rewrite orb_true_r. cbn. eauto. }
    intros _. cbn. eauto.
Qed.

Lemma listing_parsed (r : tool_result) (action field what : string)
    (failed : string) (w : world R) :
  (forall items n,
     json_loads R (first_text (content r) "{}") = Ok items ->
     py_len items = Ok n ->
     try_except R (parse_listing R r action field what) caught_always
       (fun _ => ret R (error_record failed)) w
     = (Ok (listing action field what items n), w))
  /\ (unusable (R := R) (first_text (content r) "{}") ->
      try_except R (parse_listing R r action field what) caught_always
        (fun _ => ret R (error_record failed)) w
      = (Ok (error_record failed), w)).
Proof.
  unfold parse_listing, unusable. split.
  - intros items n Hitems Hn. run_monad. rewrite Hitems, Hn. reflexivity.
  - run_monad. destruct (json_loads R (first_text (content r) "{}")) as [items|e].
    + intros [e He]. rewrite He. reflexivity.
    + intros _. reflexivity.
Qed.

(** X22: what the playlist handler makes of an answer to [get] and to
    [get_tracks] that reports no error: the first text of the answer, or
    ["{}"] when it has none, is decoded, and the outcome carries the
    decoded value with its length in the message; a text that cannot be
    decoded, or that decodes to a value without a length, gives the error
    ["Failed to parse playlists"] or ["Failed to parse playlist tracks"]
    and no exception. *)
Theorem playlist_listings (p : nat) (w w1 : world R) (r : tool_result) :
  call_tool_with_retry R "SpotifyPlaylist" p MAX_RETRIES w = (Ok (Some r), w1) ->
  isError r = false ->
  (v_eq_str (py_get (heap w p) "action") "get" = true ->
   (forall items n,
      json_loads R (first_text (content r) "{}") = Ok items ->
      py_len items = Ok n ->
      handle_playlist_action R p w
      = (Ok (listing "playlist_get" "playlists" "playlists" items n), w1))
   /\ (unusable (R := R) (first_text (content r) "{}") ->
       handle_playlist_action R p w
       = (Ok (error_record "Failed to parse playlists"), w1)))
  /\ (v_eq_str (py_get (heap w p) "action") "get" = false ->
      v_eq_str (py_get (heap w p) "action") "get_tracks" = true ->
      truthy (py_get (heap w p) "playlist_id") = true ->
      (forall items n,
         json_loads R (first_text (content r) "{}") = Ok items ->
         py_len items = Ok n ->
         handle_playlist_action R p w
         = (Ok (listing "playlist_get_tracks" "tracks" "tracks in playlist" items n), w1))
      /\ (unusable (R := R) (first_text (content r) "{}") ->
          handle_playlist_action R p w
          = (Ok (error_record "Failed to parse playlist tracks"), w1))).
Proof.
  intros Hcall Hok. split.
  - intros Hget.
    assert (Hrun : handle_playlist_action R p w
                   = try_except R (parse_listing R r "playlist_get" "playlists" "playlists")
                       caught_always
                       (fun _ => ret R (error_record "Failed to parse playlists")) w1).
    { unfold handle_playlist_action. cbv [bind read_params lift the_result].
      rewrite Hget, Hcall, Hok. reflexivity. }
    rewrite Hrun. apply listing_parsed.
  - intros Hget Htracks Hid.
    assert (Hrun : handle_playlist_action R p w
                   = try_except R
                       (parse_listing R r "playlist_get_tracks" "tracks" "tracks in playlist")
                       caught_always
                       (fun _ => ret R (error_record "Failed to parse playlist tracks")) w1).
    { unfold handle_playlist_action. cbv [bind read_params lift the_result].
      rewrite Hget, Htracks, Hid. cbn [negb]. rewrite Hcall, Hok. reflexivity. }
    rewrite Hrun. apply listing_parsed.
Qed.

(** ** The parser of the reply *)

Lemma check_action_cases (a : value) :
  match check_action a with
  | Ok _ => well_formed_action a
  | Raise e => invalid_action e /\ ~ well_formed_action a
  end.
Proof.
  unfold check_action, well_formed_action, invalid_action.
  destruct a as [| | | | | |d];
    try (split; [auto|]; intros (d' & Hd & _); discriminate Hd).
  destruct (has_key "tool_name" d) eqn:Htool; cbn [negb].
  - destruct (has_key "params" d) eqn:Hparams; cbn [negb].
    + exists d. auto.
    + split; [auto|]. intros (d' & Hd & _ & Hp). injection Hd as <-. congruence.
  - split; [auto|]. intros (d' & Hd & Ht & _). injection Hd as <-. congruence.
Qed.

Lemma check_actions_cases (actions : list value) :
  match check_actions actions with
  | Ok _ => Forall well_formed_action actions
  | Raise e => invalid_action e /\ Exists (fun a => ~ well_formed_action a) actions
  end.
Proof.
  induction actions as [|a rest IH]; cbn [check_actions]; [constructor|].
  pose proof (check_action_cases a) as Ha.
  destruct (check_action a) as [[]|e]; cbn [res_bind].
  - destruct (check_actions rest) as [[]|e].
    + constructor; assumption.
    + split; [apply IH|]. apply Exists_cons_tl. apply IH.
  - split; [apply Ha|]. apply Exists_cons_hd. apply Ha.
Qed.

Lemma check_actions_rejects (actions : list value) :
  Exists (fun a => ~ well_formed_action a) actions ->
  exists e, check_actions actions = Raise e /\ invalid_action e.
Proof.
  intros Hbad. pose proof (check_actions_cases actions) as Hc.
  destruct (check_actions actions) as [[]|e].
  - exfalso. apply Exists_exists in Hbad. destruct Hbad as (a & Hin & Hbad).
    apply Hbad. exact (proj1 (Forall_forall _ _) Hc a Hin).
  - exists e. split; [reflexivity|apply Hc].
Qed.

Lemma check_actions_accepts (actions : list value) :
  Forall well_formed_action actions -> check_actions actions = Ok tt.
Proof.
  intros Hall. pose proof (check_actions_cases actions) as Hc.
  destruct (check_actions actions) as [[]|e]; [reflexivity|].
  exfalso. destruct Hc as [_ Hbad]. apply Exists_exists in Hbad.
  destruct Hbad as (a & Hin & Hbad).
  apply Hbad. exact (proj1 (Forall_forall _ _) Hall a Hin).
Qed.

Lemma actions_hold_no_error (actions : list value) :
  Forall well_formed_action actions ->
  existsb (fun x => v_eq_str x "error") actions = false.
Proof.
  induction 1 as [|a rest (d & -> & _) _ IH]; [reflexivity|].
  cbn. exact IH.
Qed.

Lemma error_object_shape (parsed : value) :
  is_error_object parsed = true -> exists msg, parsed = VDict [("error", msg)].
Proof.
  destruct parsed as [| | | | | |d]; try discriminate. cbn.
  destruct d as [|[k v] [|? ?]]; try discriminate.
  - unfold has_key. cbn. destruct (String.eqb k "error") eqn:Hk; [|discriminate].
    apply String.eqb_eq in Hk. subst k. eauto.
  - rewrite andb_false_r. discriminate.
Qed.

Lemma validate_parsed_cases (parsed : value) :
  match validate_parsed parsed with
  | Ok v => parse_outcome v
  | Raise e => invalid_action e
  end.
Proof.
  unfold validate_parsed.
  destruct (is_error_object parsed) eqn:Hobj.
  - destruct (error_object_shape parsed Hobj) as [msg ->].
    left. exists msg. split; reflexivity.
  - pose proof (check_actions_cases (match parsed with VList l => l | _ => [parsed] end))
      as Hc.
    destruct (check_actions (match parsed with VList l => l | _ => [parsed] end))
      as [[]|e]; cbn [res_bind].
    + right. eexists. split; [reflexivity|]. split; [exact Hc|].
      unfold returned_unexecuted, v_contains.
      rewrite (actions_hold_no_error _ Hc). reflexivity.
    + apply Hc.
Qed.

Lemma error_value_outcome (msg : string) : parse_outcome (error_value msg).
Proof.
  left. exists (VStr msg). split; reflexivity.
Qed.

Lemma parse_llm_response_cases (content : string) :
  match parse_llm_response R content with
  | Ok v => parse_outcome v
  | Raise e =>
      invalid_action e
      \/ (json_loads R content = Raise e /\ exn_cls e <> JSONDecodeError)
  end.
Proof.
  unfold parse_llm_response.
  destruct (String.eqb content ""); [apply error_value_outcome|].
  destruct (json_loads R content) as [parsed|e].
  - pose proof (validate_parsed_cases parsed) as Hv.
    destruct (validate_parsed parsed); [exact Hv|left; exact Hv].
  - destruct (exn_cls e) eqn:Hcls;
      try (right; split; [reflexivity|congruence]).
    destruct (search_array content) as [text|]; [|apply error_value_outcome].
    destruct (json_loads R text) as [parsed|e']; [|apply error_value_outcome].
    pose proof (validate_parsed_cases parsed) as Hv.
    destruct (validate_parsed parsed); [exact Hv|left; exact Hv].
Qed.

(** X23: what [parse_llm_response] returns is an object with the one key
    [error], for which the test ["error" in actions] of [handle_command]
    is true, or a list in which every element is a dictionary with
    [tool_name] and [params], for which that test is false.  What it
    raises is one of the three [ValueError]s of its validation loop, or an
    exception of [json.loads] on the whole reply that is no
    [JSONDecodeError]. *)
Theorem parser_results (content : string) :
  match parse_llm_response R content with
  | Ok v => parse_outcome v
  | Raise e =>
      invalid_action e
      \/ (json_loads R content = Raise e /\ exn_cls e <> JSONDecodeError)
  end.
Proof.
  exact (parse_llm_response_cases content).
Qed.

(** X24: [parse_command_with_llm] raises nothing: an exception of the
    completion call or of the parser becomes the error object
    ["Failed to parse command: "] followed by its message, and what it
    returns is an error object that [handle_command] returns or a list of
    well-formed actions that it executes. *)
Theorem command_parser_raises_nothing (completion : string -> res string)
    (command : string) :
  (exists v, parse_command_with_llm R completion command = Ok v /\ parse_outcome v)
  /\ (forall e,
        completion command = Raise e ->
        parse_command_with_llm R completion command
        = Ok (error_value ("Failed to parse command: " ++ exn_msg e)))
  /\ (forall content e,
        completion command = Ok content ->
        parse_llm_response R content = Raise e ->
        parse_command_with_llm R completion command
        = Ok (error_value ("Failed to parse command: " ++ exn_msg e))).
Proof.
  unfold parse_command_with_llm. split; [|split].
  - destruct (completion command) as [content|e]; cbn [res_bind].
    + pose proof (parse_llm_response_cases content) as Hp.
      destruct (parse_llm_response R content) as [v|e].
      * exists v. split; [reflexivity|exact Hp].
      * eexists. split; [reflexivity|apply error_value_outcome].
    + eexists. split; [reflexivity|apply error_value_outcome].
  - intros e ->. reflexivity.
  - intros content e -> Hp. cbn [res_bind]. rewrite Hp. reflexivity.
Qed.

Lemma two_keys (d : dict) :
  has_key "tool_name" d = true -> has_key "params" d = true ->
  Nat.eqb (List.length d) 1 = false.
Proof.
  unfold has_key. destruct d as [|[k v] [|? ?]]; cbn; try discriminate; [|reflexivity].
  destruct (String.eqb k "tool_name") eqn:Ht; [|discriminate].
  apply String.eqb_eq in Ht. subst k. cbn. discriminate.
Qed.

(** X25: a reply that is not empty and decodes to a list of well-formed
    actions is returned as that list, the empty list included; one that
    decodes to a single well-formed action is returned as the list of
    that action. *)
Theorem valid_replies_are_accepted (content : string) :
  String.eqb content "" = false ->
  (forall actions,
     json_loads R content = Ok (VList actions) ->
     Forall well_formed_action actions ->
     parse_llm_response R content = Ok (VList actions))
  /\ (forall d,
        json_loads R content = Ok (VDict d) ->
        well_formed_action (VDict d) ->
        parse_llm_response R content = Ok (VList [VDict d])).
Proof.
  intros Hne. unfold parse_llm_response. rewrite Hne. split.
  - intros actions -> Hall. unfold validate_parsed. cbn [is_error_object].
    rewrite (check_actions_accepts actions Hall). reflexivity.
  - intros d -> Hwf. unfold validate_parsed. cbn [is_error_object].
    destruct Hwf as (d' & Hd & Htool & Hparams). injection Hd as <-.
    rewrite (two_keys d Htool Hparams), andb_false_r.
    rewrite (check_actions_accepts [VDict d]); [reflexivity|].
    constructor; [|constructor]. exists d. auto.
Qed.

(** X26: a reply that decodes to something other than an error object,
    and in which one action is no dictionary or lacks [tool_name] or
    [params], is rejected as a whole: the parser raises a [ValueError],
    and [parse_command_with_llm] answers with the error object
    ["Failed to parse command: "] followed by its message, so that no
    action of the reply is executed. *)
Theorem invalid_replies_are_rejected (content : string) (parsed : value) :
  String.eqb content "" = false ->
  json_loads R content = Ok parsed ->
  is_error_object parsed = false ->
  Exists (fun a => ~ well_formed_action a) (as_list parsed) ->
  exists e,
    invalid_action e
    /\ parse_llm_response R content = Raise e
    /\ forall completion command,
         completion command = Ok content ->
         parse_command_with_llm R completion command
         = Ok (error_value ("Failed to parse command: " ++ exn_msg e))
         /\ returned_unexecuted
              (error_value ("Failed to parse command: " ++ exn_msg e)) = Ok true.
Proof.
  intros Hne Hparsed Hobj Hbad.
  destruct (check_actions_rejects _ Hbad) as (e & He & Hinv).
  assert (Hp : parse_llm_response R content = Raise e).
  { unfold parse_llm_response. rewrite Hne, Hparsed.
    unfold validate_parsed. rewrite Hobj.
    unfold as_list in He. rewrite He. reflexivity. }
  exists e. split; [exact Hinv|]. split; [exact Hp|].
  intros completion command Hc. split; [|reflexivity].
  unfold parse_command_with_llm. rewrite Hc. cbn [res_bind]. rewrite Hp. reflexivity.
Qed.

Lemma str_app_assoc (a b c : string) : ((a ++ b) ++ c = a ++ (b ++ c))%string.
Proof.
  induction a as [|x a IH]; cbn; [reflexivity|]. rewrite IH. reflexivity.
Qed.

Lemma has_char_app (c : ascii) (a b : string) :
  has_char c (a ++ b) = (has_char c a || has_char c b)%bool.
Proof.
  induction a as [|x a IH]; cbn; [reflexivity|]. rewrite IH, orb_assoc. reflexivity.
Qed.

Lemma upto_close_bracket_none (s : string) :
  upto_close_bracket s = None <-> has_char "]" s = false.
Proof.
  induction s as [|c r IH]; cbn; [tauto|].
  destruct (upto_close_bracket r) as [t|].
  - split; [discriminate|]. intros H. apply orb_false_iff in H.
    destruct H as [_ H]. apply IH in H. discriminate.
  - destruct (Ascii.eqb c "]"); cbn.
    + split; discriminate.
    + split; intros _; [apply IH|]; reflexivity.
Qed.

Lemma upto_close_bracket_some (s : string) :
  forall t,
    upto_close_bracket s = Some t ->
    exists body post,
      s = (body ++ String "]" post)%string
      /\ t = (body ++ "]")%string
      /\ has_char "]" post = false.
Proof.
  induction s as [|c r IH]; cbn; [discriminate|]. intros t.
  destruct (upto_close_bracket r) as [t'|] eqn:Hr.
  - intros [= <-]. destruct (IH t' eq_refl) as (body & post & -> & -> & Hpost).
    exists (String c body), post. auto.
  - destruct (Ascii.eqb c "]") eqn:Hc; [|discriminate]. intros [= <-].
    apply Ascii.eqb_eq in Hc. subst c.
    exists EmptyString, r. split; [reflexivity|]. split; [reflexivity|].
    apply upto_close_bracket_none. exact Hr.
Qed.

Lemma from_open_bracket_some (s : string) :
  forall t,
    from_open_bracket s = Some t ->
    exists pre r,
      s = (pre ++ String "[" r)%string
      /\ t = String "[" r
      /\ has_char "[" pre = false.
Proof.
  induction s as [|c r IH]; cbn; [discriminate|]. intros t.
  destruct (Ascii.eqb c "[") eqn:Hc.
  - intros [= <-]. apply Ascii.eqb_eq in Hc. subst c.
    exists EmptyString, r. auto.
  - intros Ht. destruct (IH t Ht) as (pre & r' & -> & -> & Hpre).
    exists (String c pre), r'. cbn. rewrite Hc, Hpre. auto.
Qed.

Lemma from_open_bracket_none (s : string) :
  from_open_bracket s = None -> has_char "[" s = false.
Proof.
  induction s as [|c r IH]; cbn; [reflexivity|].
  destruct (Ascii.eqb c "["); [discriminate|]. exact IH.
Qed.

Lemma after_first_bracket (pre : string) :
  forall pre' r x,
    has_char "[" pre = false ->
    (pre ++ String "[" r = pre' ++ String "[" x)%string ->
    exists mid, r = (mid ++ x)%string.
Proof.
  induction pre as [|c pre IH]; intros pre' r x Hpre Heq.
  - destruct pre' as [|c' pre']; cbn in Heq.
    + injection Heq as ->. exists EmptyString. reflexivity.
    + injection Heq as _ ->. exists (pre' ++ "[")%string.
      rewrite str_app_assoc. reflexivity.
  - cbn in Hpre. apply orb_false_iff in Hpre. destruct Hpre as [Hc Hpre].
    destruct pre' as [|c' pre']; cbn in Heq.
    + injection Heq as -> _. discriminate Hc.
    + injection Heq as _ Heq. exact (IH pre' r x Hpre Heq).
Qed.

(** X27: the text that the parser takes out of a reply that is no JSON
    runs from the first opening bracket of the reply to its last closing
    bracket: what stands before has no opening bracket and what stands
    after no closing one.  Nothing is taken out exactly when no opening
    bracket of the reply is followed by a closing one. *)
Theorem array_extraction (content : string) :
  match search_array content with
  | Some text =>
      exists pre body post,
        content = (pre ++ text ++ post)%string
        /\ text = String "[" (body ++ "]")
        /\ has_char "[" pre = false
        /\ has_char "]" post = false
  | None =>
      forall pre body post,
        content <> (pre ++ String "[" (body ++ String "]" post))%string
  end.
Proof.
  unfold search_array.
  destruct (from_open_bracket content) as [t|] eqn:Hfrom.
  - destruct (from_open_bracket_some content t Hfrom) as (pre & r & -> & -> & Hpre).
    destruct (upto_close_bracket r) as [t'|] eqn:Hupto; cbn [option_map].
    + destruct (upto_close_bracket_some r t' Hupto) as (body & post & -> & -> & Hpost).
      exists pre, body, post. split; [|auto]. cbn.
      rewrite str_app_assoc. reflexivity.
    + intros pre' body post Heq.
      destruct (after_first_bracket pre pre' r _ Hpre Heq) as [mid ->].
      apply upto_close_bracket_none in Hupto.
      rewrite !has_char_app in Hupto. cbn in Hupto.
      rewrite !orb_true_r in Hupto. discriminate.
  - intros pre body post ->. apply from_open_bracket_none in Hfrom.
    rewrite has_char_app in Hfrom. cbn in Hfrom.
    rewrite orb_true_r in Hfrom. discriminate.
Qed.

(** ** From a search to the step that uses it *)

Lemma search_found (p : nat) (w : world R) :
  forall d,
    fst (handle_search_action R p w) = Ok d ->
    is_error d = false ->
    exists kind name item_id artist,
      (kind = "album" \/ kind = "track")
      /\ d = search_success (found_item (R := R) kind name item_id artist).
Proof.
  unfold handle_search_action, parse_search_result, search_result_of, found_item.
  repeat exec_step; run_monad.
  all: intros d Hd Herr; try discriminate Hd; injection Hd as <-;
    try discriminate Herr.
  all: first
         [ exists "album"; do 3 eexists; split; [auto|reflexivity]
         | exists "track"; do 3 eexists; split; [auto|reflexivity] ].
Qed.

Lemma info_fills (p : nat) (w : world R) (uri : value) :
  truthy (py_get (ctx w) "search_result") = true ->
  v_getitem (py_get (ctx w) "search_result") "uri" = Ok uri ->
  truthy (py_get (heap w p) "item_uri") = false ->
  sends "SpotifyGetInfo" p 1 w (snd (handle_get_info_action R p w))
  /\ heap (snd (handle_get_info_action R p w)) p = py_set (heap w p) "item_uri" uri.
Proof.
  intros Hsr Huri Hkey.
  unfold handle_get_info_action, parse_album_info.
  run_monad. rewrite Hsr, Hkey, Huri. cbn [andb negb].
  repeat exec_step_calls.
  all: finish_sends_once.
Qed.

Lemma queue_fills (p : nat) (w : world R) (uri : value) :
  truthy (py_get (ctx w) "search_result") = true ->
  v_getitem (py_get (ctx w) "search_result") "uri" = Ok uri ->
  truthy (py_get (heap w p) "track_id") = false ->
  sends "SpotifyQueue" p 1 w (snd (handle_queue_action R p w))
  /\ heap (snd (handle_queue_action R p w)) p = py_set (heap w p) "track_id" uri.
Proof.
  intros Hsr Huri Hkey.
  unfold handle_queue_action.
  run_monad. rewrite Hsr, Hkey, Huri. cbn [andb negb].
  repeat exec_step_calls.
  all: finish_sends_once.
Qed.

Lemma playback_fills (p : nat) (w : world R) (uri : value) :
  v_eq_str (py_get (heap w p) "action") "start" = true ->
  truthy (py_get (ctx w) "search_result") = true ->
  v_getitem (py_get (ctx w) "search_result") "uri" = Ok uri ->
  v_contains ":" uri = Ok true ->
  truthy (py_get (heap w p) "spotify_uri") = false ->
  sends "SpotifyPlayback" p 1 w (snd (handle_playback_action R p w))
  /\ heap (snd (handle_playback_action R p w)) p = py_set (heap w p) "spotify_uri" uri.
Proof.
  intros Hstart Hsr Huri Hcolon Hkey.
  unfold handle_playback_action, playback_response.
  run_monad. rewrite Hstart, Hsr, Hkey, Huri, Hcolon. cbn [andb negb].
  repeat exec_step_calls.
  all: finish_sends_once.
Qed.

Lemma step_heap (a : action) (w : world R) :
  heap (snd (step R (execute_single_action R) a w))
  = heap (snd (execute_single_action R (tool_name a) (params a) (dispatching a w))).
Proof.
  rewrite step_unfold.
  destruct (execute_single_action R (tool_name a) (params a) (dispatching a w))
    as [[[d|e]|] w1]; [|reflexivity|reflexivity].
  destruct (is_error d && String.eqb (tool_name a) "SpotifySearch")%bool;
    [reflexivity|].
  cbn [snd]. apply update_context_frame.
Qed.

(** X28: a search step that succeeds hands its hit to the step that
    follows: the outcome holds the [uri] ["spotify:<kind>:<id>"] with
    [kind] ["album"] or ["track"], and a playback step with the action
    ["start"], a queue step or an info step that comes next without a
    reference of its own has exactly that [uri] as its [spotify_uri],
    [track_id] or [item_uri] when it is done; the prefix
    ["spotify:track:"] is never added to it. *)
Theorem search_feeds_the_next_step (a b : action) (w w1 : world R) (outcome : dict) :
  tool_name a = "SpotifySearch" ->
  step R (execute_single_action R) a w = (Ok (outcome, false), w1) ->
  exists kind name item_id artist,
    (kind = "album" \/ kind = "track")
    /\ outcome = search_success (found_item (R := R) kind name item_id artist)
    /\ (tool_name b = "SpotifyPlayback" ->
        v_eq_str (py_get (heap w1 (params b)) "action") "start" = true ->
        truthy (py_get (heap w1 (params b)) "spotify_uri") = false ->
        heap (snd (step R (execute_single_action R) b w1)) (params b)
        = py_set (heap w1 (params b)) "spotify_uri"
            (VStr ("spotify:" ++ kind ++ ":" ++ py_str R item_id)))
    /\ (tool_name b = "SpotifyQueue" ->
        truthy (py_get (heap w1 (params b)) "track_id") = false ->
        heap (snd (step R (execute_single_action R) b w1)) (params b)
        = py_set (heap w1 (params b)) "track_id"
            (VStr ("spotify:" ++ kind ++ ":" ++ py_str R item_id)))
    /\ (tool_name b = "SpotifyGetInfo" ->
        truthy (py_get (heap w1 (params b)) "item_uri") = false ->
        heap (snd (step R (execute_single_action R) b w1)) (params b)
        = py_set (heap w1 (params b)) "item_uri"
            (VStr ("spotify:" ++ kind ++ ":" ++ py_str R item_id))).
Proof.
  intros Ha Hstep. rewrite step_unfold, Ha in Hstep.
  unfold execute_single_action in Hstep. rewrite String.eqb_refl in Hstep.
  pose proof (search_found (params a) (dispatching a w)) as Hfound.
  destruct (handle_search_action R (params a) (dispatching a w)) as [[[d|e]|] w0];
    [|discriminate Hstep|discriminate Hstep].
  destruct (is_error d) eqn:Herr; cbn [andb] in Hstep; [discriminate Hstep|].
  injection Hstep as <- <-.
  destruct (Hfound d eq_refl Herr) as (kind & name & item_id & artist & Hkind & ->).
  exists kind, name, item_id, artist.
  split; [exact Hkind|]. split; [reflexivity|].
  rewrite update_context_search. cbn [snd].
  set (w1 := with_ctx R w0 _).
  assert (Hsr : py_get (ctx (dispatching b w1)) "search_result"
                = VDict (found_item (R := R) kind name item_id artist)).
  { unfold w1, dispatching. cbn [ctx]. apply py_get_py_set. }
  assert (Hcolon : v_contains ":" (VStr ("spotify:" ++ kind ++ ":" ++ py_str R item_id))
                   = Ok true).
  { destruct Hkind as [-> | ->]; reflexivity. }
  split; [|split].
  - intros Hb Hstart Hkey. rewrite step_heap, Hb.
    apply (playback_fills (params b) (dispatching b w1)); try assumption.
    + rewrite Hsr. reflexivity.
    + rewrite Hsr. reflexivity.
  - intros Hb Hkey. rewrite step_heap, Hb.
    apply (queue_fills (params b) (dispatching b w1)); try assumption.
    + rewrite Hsr. reflexivity.
    + rewrite Hsr. reflexivity.
  - intros Hb Hkey. rewrite step_heap, Hb.
    apply (info_fills (params b) (dispatching b w1)); try assumption.
    + rewrite Hsr. reflexivity.
    + rewrite Hsr. reflexivity.
Qed.

End Properties.

(** * The properties on concrete runs *)

Example colon_in_uri :
  v_contains ":" (VStr "spotify:track:track123") = Ok true
  /\ v_contains ":" (VStr "track123") = Ok false
  /\ v_contains "artists" (VDict track_with_artist_list) = Ok true
  /\ v_contains "artists" (VList [VStr "artist"; VStr "artists"]) = Ok true
  /\ v_contains "artists" (VStr "artist") = Ok false.
Proof. repeat split. Qed.

Example decode_encoded :
  Json.loads (tracks_text track_with_artist_list)
  = Ok (VDict [("tracks", VList [VDict track_with_artist_list])])
  /\ Json.loads "{}" = Ok (VDict [])
  /\ Json.loads "invalid json" = Raise Json.decode_error.
Proof. repeat split. Qed.

Example play_a_song :
  fst (execute_spotify_actions scripted search_then_play
         (start [text_reply false (tracks_text track_with_artist); text_reply false "ok"]
            (heap_of [track_query; [("action", VStr "start")]])))
  = Ok (success_response
          [("action", VStr "playback"); ("type", VStr "start");
           ("message", VStr "Playing track Test Song by Artist X");
           ("item", py_get found_song "result")]).
Proof. vm_compute. reflexivity. Qed.

Example resume_playback :
  fst (execute_spotify_actions scripted [mk_action "SpotifyPlayback" 0]
         (start [text_reply false "ok"] (heap_of [[("action", VStr "start")]])))
  = Ok (success_response
          [("action", VStr "playback"); ("type", VStr "resume");
           ("message", VStr "Resuming playback")]).
Proof. vm_compute. reflexivity. Qed.

(** C3 on the two runs of the test suite. *)
Lemma retry_behaviour_witness :
  (fst (call_tool_with_retry scripted "TestTool" 0 3
          (start [failure "First failure"; failure "Second failure";
                  text_reply false "success"] (heap_of [[("param", VStr "value")]])))
   = Ok (Some (mk_tool_result false [TextContent "success"]))
   /\ call_count (trace (snd (call_tool_with_retry scripted "TestTool" 0 3
          (start [failure "First failure"; failure "Second failure";
                  text_reply false "success"] (heap_of [[("param", VStr "value")]])))))
      = 3%nat)
  /\ (fst (call_tool_with_retry scripted "TestTool" 0 2
             (start [failure "Persistent failure"; failure "Persistent failure";
                     failure "Persistent failure"] (heap_of [[("param", VStr "value")]])))
      = Raise (mk_exn (OtherError "Exception") "Persistent failure")
      /\ call_count (trace (snd (call_tool_with_retry scripted "TestTool" 0 2
             (start [failure "Persistent failure"; failure "Persistent failure";
                     failure "Persistent failure"] (heap_of [[("param", VStr "value")]])))))
         = 2%nat).
Proof.
  destruct (retry_behaviour scripted "TestTool" 0
              (start [failure "First failure"; failure "Second failure";
                      text_reply false "success"] (heap_of [[("param", VStr "value")]]))
              (start [failure "Persistent failure"; failure "Persistent failure";
                      failure "Persistent failure"] (heap_of [[("param", VStr "value")]]))
              (mk_exn (OtherError "Exception") "First failure")
              (mk_exn (OtherError "Exception") "Second failure")
              (mk_exn (OtherError "Exception") "Persistent failure")
              (mk_exn (OtherError "Exception") "Persistent failure")
              (mk_tool_result false [TextContent "success"])
              [failure "Second failure"; text_reply false "success"]
              [text_reply false "success"]
              []
              [failure "Persistent failure"; failure "Persistent failure"]
              [failure "Persistent failure"]
              eq_refl eq_refl eq_refl eq_refl eq_refl)
    as [[Hthree Hcalls3] [[Htwo Hcalls2] _]].
  split; split.
  - rewrite Hthree. reflexivity.
  - exact Hcalls3.
  - rewrite Htwo. reflexivity.
  - exact Hcalls2.
Defined.

(** C1 on a run in which a resume precedes the failing search. *)
Lemma failed_search_stops_the_run_witness :
  exists w2,
    execute_spotify_actions scripted resume_search_play failing_search
    = (Ok (error_record "No search results found"), w2)
    /\ control_events (trace w2)
       = [EvDispatch "SpotifyPlayback" 0; EvDispatch "SpotifySearch" 1].
Proof.
  eexists.
  destruct (failed_search_stops_the_run scripted
              [mk_action "SpotifyPlayback" 0] [mk_action "SpotifyPlayback" 2]
              (mk_action "SpotifySearch" 1) failing_search
              (snd (run_actions scripted (execute_single_action scripted)
                      [mk_action "SpotifyPlayback" 0] []
                      (with_ctx scripted failing_search initial_context)))
              (snd (execute_spotify_actions scripted resume_search_play failing_search))
              [[("action", VStr "playback"); ("type", VStr "resume");
                ("message", VStr "Resuming playback")]]
              (error_record "No search results found")
              eq_refl eq_refl eq_refl eq_refl) as [Hrun [Hcontrol _]].
  split; [exact Hrun | exact Hcontrol].
Defined.

(** C2 on the three lists of the test suite's kind: mixed, all failed and
    all successful. *)
Lemma formatter_cases_witness :
  format_final_response [found_song; refused]
  = Ok (partial_response "Partial success" found_song [refused])
  /\ format_final_response [error_record "Search failed"; error_record "Playback failed"]
     = Ok (error_record "Playback failed")
  /\ format_final_response
       [[("action", VStr "search"); ("message", VStr "Found song")];
        [("action", VStr "playback"); ("message", VStr "Playing song")]]
     = Ok [("message", VStr "Playing song");
           ("details", VDict [("action", VStr "playback");
                              ("message", VStr "Playing song")])].
Proof.
  split; [|split].
  - exact (formatter_cases [found_song; refused] ltac:(discriminate)
             "Partial success" eq_refl).
  - exact (formatter_cases
             [error_record "Search failed"; error_record "Playback failed"]
             ltac:(discriminate)).
  - exact (formatter_cases
             [[("action", VStr "search"); ("message", VStr "Found song")];
              [("action", VStr "playback"); ("message", VStr "Playing song")]]
             ltac:(discriminate)).
Defined.

(** C2 as the specification words it fails where the last success has no
    message, as the outcome of a search has none: a search that succeeds
    followed by a playback that fails is answered with the message
    ["Partial success"], a line feed and ["Some actions failed"]. *)
Lemma formatter_message_counterexample :
  fst (execute_spotify_actions scripted search_then_play refused_playback)
  = Ok (partial_response "Partial success" found_song [refused])
  /\ format_final_response [found_song; refused]
     = Ok (partial_response "Partial success" found_song [refused])
  /\ lookup "message" found_song = None
  /\ described_response [found_song; refused] = None
  /\ ~ (exists m,
         lookup "message" found_song = Some (VStr m)
         /\ format_final_response [found_song; refused]
            = Ok (partial_response m found_song [refused])).
Proof.
  split; [vm_compute; reflexivity|].
  split; [reflexivity|]. split; [reflexivity|]. split; [reflexivity|].
  intros [m [Hm _]]. discriminate Hm.
Qed.

(** C4 on the three payloads: artist in a list, scalar artist, no artist. *)
Lemma search_result_of_track_witness :
  fst (handle_search_action scripted 0 (searching (tracks_text track_with_artist_list)))
  = Ok (search_success (track_result (VStr "Test Song") "track123" (VStr "Artist X")))
  /\ fst (handle_search_action scripted 0 (searching (tracks_text track_with_artist)))
     = Ok (search_success (track_result (VStr "Test Song") "track123" (VStr "Artist X")))
  /\ fst (handle_search_action scripted 0 (searching (tracks_text track_without_artist)))
     = Ok (search_success
             (track_result (VStr "Test Song") "track123" (VStr "Unknown Artist")))
  /\ py_get (track_result (VStr "Test Song") "track123" (VStr "Artist X")) "uri"
     = VStr "spotify:track:track123".
Proof.
  pose (after := fun text =>
          snd (call_tool_with_retry scripted "SpotifySearch" 0 MAX_RETRIES
                 (searching text))).
  pose (reply := fun text => mk_tool_result false [TextContent text]).
  destruct (search_result_of_track scripted 0
              (searching (tracks_text track_with_artist_list))
              (after (tracks_text track_with_artist_list))
              (reply (tracks_text track_with_artist_list))
              [("tracks", VList [VDict track_with_artist_list])]
              track_with_artist_list [] (VStr "Test Song") "track123"
              eq_refl eq_refl eq_refl eq_refl eq_refl eq_refl eq_refl)
    as [Hlist _].
  destruct (search_result_of_track scripted 0
              (searching (tracks_text track_with_artist))
              (after (tracks_text track_with_artist))
              (reply (tracks_text track_with_artist))
              [("tracks", VList [VDict track_with_artist])]
              track_with_artist [] (VStr "Test Song") "track123"
              eq_refl eq_refl eq_refl eq_refl eq_refl eq_refl eq_refl)
    as [_ [Hscalar _]].
  destruct (search_result_of_track scripted 0
              (searching (tracks_text track_without_artist))
              (after (tracks_text track_without_artist))
              (reply (tracks_text track_without_artist))
              [("tracks", VList [VDict track_without_artist])]
              track_without_artist [] (VStr "Test Song") "track123"
              eq_refl eq_refl eq_refl eq_refl eq_refl eq_refl eq_refl)
    as [_ [_ Hnone]].
  split; [|split; [|split]].
  - rewrite (Hlist (VStr "Artist X") [] eq_refl). reflexivity.
  - rewrite (Hscalar (VStr "Artist X") I eq_refl). reflexivity.
  - rewrite (Hnone I eq_refl). reflexivity.
  - reflexivity.
Defined.

(** C5 on two searches in a row: the context holds the second result. *)
Lemma context_written_by_search_and_info_witness :
  ctx (snd (step scripted (execute_single_action scripted) (mk_action "SpotifySearch" 1)
              (snd (step scripted (execute_single_action scripted)
                      (mk_action "SpotifySearch" 0) (entered two_searches)))))
  = [("search_result",
      VDict (track_result (VStr "Test Song") "track123" (VStr "Unknown Artist")));
     ("album_tracks", VNone)].
Proof.
  destruct (context_written_by_search_and_info scripted
              (mk_action "SpotifySearch" 0) (mk_action "SpotifySearch" 1)
              (entered two_searches)) as (_ & _ & Hsecond).
  rewrite (Hsecond
             found_song
             (search_success
                (track_result (VStr "Test Song") "track123" (VStr "Unknown Artist")))
             false false
             (snd (step scripted (execute_single_action scripted)
                     (mk_action "SpotifySearch" 0) (entered two_searches)))
             (snd (step scripted (execute_single_action scripted)
                     (mk_action "SpotifySearch" 1)
                     (snd (step scripted (execute_single_action scripted)
                             (mk_action "SpotifySearch" 0) (entered two_searches)))))
             eq_refl eq_refl eq_refl eq_refl eq_refl eq_refl).
  reflexivity.
Defined.

(** C6, as the code has it, on a search whose attempts all raise: the
    last exception becomes the response. *)
Lemma executor_raises_nothing_witness :
  fst (execute_spotify_actions scripted [mk_action "SpotifySearch" 0] unreachable_server)
  = Ok [("error", VStr "still down")].
Proof.
  destruct (executor_raises_nothing scripted (execute_single_action scripted)
              [mk_action "SpotifySearch" 0] unreachable_server) as (Hraised & _).
  unfold execute_spotify_actions.
  rewrite (Hraised (mk_exn (OtherError "Exception") "still down")
             (snd (execute_body scripted (execute_single_action scripted)
                     [mk_action "SpotifySearch" 0] unreachable_server))
             eq_refl).
  reflexivity.
Defined.

(** C6 as the specification words it fails where the task is cancelled
    while a tool call of the loop is awaited: the cancellation passes the
    [except Exception] of the invoker and that of the executor, and the
    executor, which has sent the one call, returns no response. *)
Lemma executor_cancellation_counterexample :
  fst (execute_spotify_actions scripted [mk_action "SpotifySearch" 0] cancelled_search)
  = Cancelled
  /\ trace (snd (execute_spotify_actions scripted [mk_action "SpotifySearch" 0]
                   cancelled_search))
     = [EvDispatch "SpotifySearch" 0; EvCallTool "SpotifySearch" track_query]
  /\ ~ (exists d,
         fst (execute_spotify_actions scripted [mk_action "SpotifySearch" 0]
                cancelled_search) = Ok d).
Proof.
  split; [vm_compute; reflexivity|]. split; [vm_compute; reflexivity|].
  intros [d Hd]. vm_compute in Hd. discriminate Hd.
Qed.

(** C7, as the code has it, on a reply without content. *)
Lemma empty_content_names_the_query_witness :
  fst (handle_search_action scripted 0 searching_in_vain)
  = Ok (error_record "No results found for query: nonexistent").
Proof.
  rewrite (empty_content_names_the_query scripted 0 searching_in_vain
             (snd (call_tool_with_retry scripted "SpotifySearch" 0 MAX_RETRIES
                     searching_in_vain))
             (mk_tool_result false [])
             eq_refl eq_refl (fun t H => H) eq_refl).
  reflexivity.
Defined.

(** C7 as the specification words it fails: the reply reports no error and
    has no content, and the error returned is not ["No search results
    found"]. *)
Lemma empty_content_counterexample :
  call_tool scripted (sess searching_in_vain) "SpotifySearch" (heap searching_in_vain 0)
  = (Returns (mk_tool_result false []), [])
  /\ fst (handle_search_action scripted 0 searching_in_vain)
     = Ok (error_record "No results found for query: nonexistent")
  /\ fst (handle_search_action scripted 0 searching_in_vain)
     <> Ok (error_record "No search results found").
Proof.
  split; [reflexivity|]. split; [vm_compute; reflexivity|].
  vm_compute. discriminate.
Qed.

(** C8 as the specification words it fails: queueing an album fills in
    [item_uri] of the info step and [track_id] of the queue step, in the
    dictionaries the caller handed over. *)
Lemma params_mutation_counterexample :
  heap queueing_album 1 = [("item_uri", VNone)]
  /\ heap (snd (execute_spotify_actions scripted queue_album queueing_album)) 1
     = [("item_uri", VStr "spotify:album:album123")]
  /\ heap (snd (execute_spotify_actions scripted queue_album queueing_album)) 2
     = [("action", VStr "add"); ("track_id", VStr "spotify:album:album123")]
  /\ heap (snd (execute_spotify_actions scripted queue_album queueing_album)) 1
     <> heap queueing_album 1.
Proof.
  split; [reflexivity|]. split; [vm_compute; reflexivity|].
  split; [vm_compute; reflexivity|]. vm_compute. discriminate.
Qed.

(** C9 on a queue step without a track and a [get_tracks] step without a
    playlist: the state after the step is the state before it. *)
Lemma missing_parameter_makes_no_call_witness :
  execute_single_action scripted "SpotifyQueue" 0 queue_without_track
  = (Ok (error_record "No track ID available for queue"), queue_without_track)
  /\ execute_single_action scripted "SpotifyPlaylist" 0 tracks_without_playlist
     = (Ok (error_record "playlist_id is required for get_tracks action"),
        tracks_without_playlist).
Proof.
  split.
  - exact (proj1 (missing_parameter_makes_no_call scripted 0 queue_without_track)
             eq_refl eq_refl).
  - exact (proj2 (missing_parameter_makes_no_call scripted 0 tracks_without_playlist)
             eq_refl eq_refl).
Defined.

(** X1 on a server that fails once and then answers, and on one whose three
    attempts all fail. *)
Lemma retry_after_failures_witness :
  (fst (call_tool_with_retry scripted "SpotifySearch" 0 3 flaky_server)
   = Ok (Some (mk_tool_result false [TextContent "ok"]))
   /\ call_count (trace (snd (call_tool_with_retry scripted "SpotifySearch" 0 3
                                flaky_server))) = 2%nat)
  /\ (fst (call_tool_with_retry scripted "SpotifySearch" 0 3 unreachable_server)
      = Raise (mk_exn (OtherError "Exception") "still down")
      /\ call_count (trace (snd (call_tool_with_retry scripted "SpotifySearch" 0 3
                                   unreachable_server))) = 3%nat).
Proof.
  split.
  - destruct (retry_after_failures scripted "SpotifySearch" 0 3 flaky_server 1
                [text_reply false "ok"]
                (Some (mk_exn (OtherError "Exception") "down")) eq_refl)
      as [Hreturns _].
    destruct (Hreturns (mk_tool_result false [TextContent "ok"]) [] eq_refl eq_refl)
      as [Hcall Hcount].
    split; [rewrite Hcall; reflexivity|exact Hcount].
  - destruct (retry_after_failures scripted "SpotifySearch" 0 3 unreachable_server 3
                [] (Some (mk_exn (OtherError "Exception") "still down")) eq_refl)
      as [_ Hraises].
    destruct (Hraises eq_refl eq_refl) as (e & He & Hcall & Hcount).
    injection He as <-.
    split; [rewrite Hcall; reflexivity|exact Hcount].
Defined.

(** X6 on a resume that succeeds, a search whose three attempts all
    raise, and a playback step after it: the outcome of the resume is not
    part of the response. *)
Lemma raising_step_ends_the_run_witness :
  run_actions scripted (execute_single_action scripted) [mk_action "SpotifyPlayback" 0]
    [] (entered resume_then_unreachable)
  = (Ok (Finished [[("action", VStr "playback"); ("type", VStr "resume");
                    ("message", VStr "Resuming playback")]]),
     snd (run_actions scripted (execute_single_action scripted)
            [mk_action "SpotifyPlayback" 0] [] (entered resume_then_unreachable)))
  /\ fst (execute_spotify_actions scripted resume_search_play resume_then_unreachable)
     = Ok (error_record "still down")
  /\ control_events
       (trace (snd (execute_spotify_actions scripted resume_search_play
                      resume_then_unreachable)))
     = [EvDispatch "SpotifyPlayback" 0; EvDispatch "SpotifySearch" 1].
Proof.
  split; [reflexivity|].
  destruct (raising_step_ends_the_run scripted
              [mk_action "SpotifyPlayback" 0] [mk_action "SpotifyPlayback" 2]
              (mk_action "SpotifySearch" 1) resume_then_unreachable
              (snd (run_actions scripted (execute_single_action scripted)
                      [mk_action "SpotifyPlayback" 0] []
                      (entered resume_then_unreachable)))
              (snd (execute_spotify_actions scripted resume_search_play
                      resume_then_unreachable))
              [[("action", VStr "playback"); ("type", VStr "resume");
                ("message", VStr "Resuming playback")]]
              (mk_exn (OtherError "Exception") "still down") eq_refl eq_refl)
    as [Hrun Hcontrol].
  split; [|exact Hcontrol].
  change resume_search_play
    with ([mk_action "SpotifyPlayback" 0]
            ++ mk_action "SpotifySearch" 1 :: [mk_action "SpotifyPlayback" 2]).
  rewrite Hrun. reflexivity.
Defined.

(** X7 on the album search of the test suite. *)
Lemma search_result_of_album_witness :
  handle_search_action scripted 0 searching_album
  = (Ok (search_success album_found),
     snd (call_tool_with_retry scripted "SpotifySearch" 0 MAX_RETRIES searching_album)).
Proof.
  exact (proj1 (search_result_of_album scripted 0 searching_album
                  (snd (call_tool_with_retry scripted "SpotifySearch" 0 MAX_RETRIES
                          searching_album))
                  (mk_tool_result false [TextContent album_text])
                  [("albums", VList [VDict [("id", VStr "album123");
                                            ("name", VStr "Test Album");
                                            ("artists", VList [VStr "Test Artist"])]])]
                  [("id", VStr "album123"); ("name", VStr "Test Album");
                   ("artists", VList [VStr "Test Artist"])]
                  [] (VStr "Test Album") (VStr "album123")
                  eq_refl eq_refl eq_refl eq_refl eq_refl eq_refl eq_refl)
           (VStr "Test Artist") [] eq_refl).
Defined.

(** X8 on a search with [qtype = "album,track"] that is answered with
    albums. *)
Lemma albums_need_album_qtype_witness :
  handle_search_action scripted 0 searching_both
  = (Ok (error_record "No results found for query: test album"),
     snd (call_tool_with_retry scripted "SpotifySearch" 0 MAX_RETRIES searching_both)).
Proof.
  exact (albums_need_album_qtype scripted 0 searching_both
           (snd (call_tool_with_retry scripted "SpotifySearch" 0 MAX_RETRIES
                   searching_both))
           (mk_tool_result false [TextContent album_text])
           [("albums", VList [VDict [("id", VStr "album123");
                                     ("name", VStr "Test Album");
                                     ("artists", VList [VStr "Test Artist"])]])]
           eq_refl eq_refl eq_refl eq_refl eq_refl).
Defined.

(** X9 on the reply ["invalid json"] of the test suite. *)
Lemma malformed_search_payload_witness :
  handle_search_action scripted 0 (searching "invalid json")
  = (Ok (error_record "Failed to parse search results"),
     snd (call_tool_with_retry scripted "SpotifySearch" 0 MAX_RETRIES
            (searching "invalid json"))).
Proof.
  exact (proj1 (malformed_search_payload scripted 0 (searching "invalid json")
                  (snd (call_tool_with_retry scripted "SpotifySearch" 0 MAX_RETRIES
                          (searching "invalid json")))
                  (mk_tool_result false [TextContent "invalid json"])
                  eq_refl eq_refl)
           Json.decode_error eq_refl eq_refl).
Defined.

(** X10 on a reply that is a JSON array. *)
Lemma non_object_payload_escapes_witness :
  handle_search_action scripted 0 (searching "[]")
  = (Raise (attribute_error "list" "get"),
     snd (call_tool_with_retry scripted "SpotifySearch" 0 MAX_RETRIES (searching "[]")))
  /\ caught_by_search (attribute_error "list" "get") = false.
Proof.
  exact (non_object_payload_escapes scripted 0 (searching "[]")
           (snd (call_tool_with_retry scripted "SpotifySearch" 0 MAX_RETRIES
                   (searching "[]")))
           (mk_tool_result false [TextContent "[]"]) (VList [])
           eq_refl eq_refl eq_refl I).
Defined.

(** X11 on an info step that takes its album from the search result. *)
Lemma get_info_outcomes_witness :
  handle_get_info_action scripted 0 asking_album_info
  = (Ok (info_success
           (VDict [("tracks", VList [VDict [("id", VStr "track1");
                                            ("name", VStr "Track 1")]])])),
     with_ctx scripted
       (snd (call_tool_with_retry scripted "SpotifyGetInfo" 0 MAX_RETRIES
               (resolving 0 "item_uri" (VStr "spotify:album:album123")
                  asking_album_info)))
       (py_set
          (ctx (snd (call_tool_with_retry scripted "SpotifyGetInfo" 0 MAX_RETRIES
                       (resolving 0 "item_uri" (VStr "spotify:album:album123")
                          asking_album_info))))
          "album_tracks"
          (py_get_default
             [("tracks", VList [VDict [("id", VStr "track1"); ("name", VStr "Track 1")]])]
             "tracks" (VList [])))).
Proof.
  exact (proj2 (proj2 (proj2 (get_info_outcomes scripted 0 asking_album_info
                                (snd (call_tool_with_retry scripted "SpotifyGetInfo" 0
                                        MAX_RETRIES
                                        (resolving 0 "item_uri"
                                           (VStr "spotify:album:album123")
                                           asking_album_info)))
                                (VStr "spotify:album:album123")
                                (mk_tool_result false [TextContent album_tracks_text])
                                (fun _ => eq_refl) eq_refl)
                         eq_refl))
           [("tracks", VList [VDict [("id", VStr "track1"); ("name", VStr "Track 1")]])]
           eq_refl eq_refl).
Defined.

(** X12 on the same step, run by the executor's loop. *)
Lemma info_step_context_witness :
  false = false
  /\ exists payload tracks,
       info_success
         (VDict [("tracks", VList [VDict [("id", VStr "track1");
                                          ("name", VStr "Track 1")]])])
       = info_success payload
       /\ v_get_default payload "tracks" (VList []) = Ok tracks
       /\ truthy tracks = true
       /\ ctx (snd (step scripted (execute_single_action scripted)
                      (mk_action "SpotifyGetInfo" 0) asking_album_info))
          = py_set (py_set (ctx asking_album_info) "album_tracks" tracks)
              "album_info" payload.
Proof.
  exact (info_step_context scripted (mk_action "SpotifyGetInfo" 0) asking_album_info
           (snd (step scripted (execute_single_action scripted)
                   (mk_action "SpotifyGetInfo" 0) asking_album_info))
           (info_success
              (VDict [("tracks", VList [VDict [("id", VStr "track1");
                                               ("name", VStr "Track 1")]])]))
           false eq_refl eq_refl eq_refl).
Defined.

(** X13 on an info step without an [item_uri] of its own. *)
Lemma info_reference_resolved_witness :
  sends "SpotifyGetInfo" 0 1 asking_album_info
    (snd (handle_get_info_action scripted 0 asking_album_info))
  /\ heap (snd (handle_get_info_action scripted 0 asking_album_info)) 0
     = [("item_uri", VStr "spotify:album:album123")].
Proof.
  exact (proj1 (info_reference_resolved scripted 0 asking_album_info)
           (VStr "spotify:album:album123") eq_refl eq_refl eq_refl).
Defined.

(** X14 on a queue step without a [track_id] of its own. *)
Lemma queue_reference_resolved_witness :
  sends "SpotifyQueue" 0 1 queueing_found_album
    (snd (handle_queue_action scripted 0 queueing_found_album))
  /\ heap (snd (handle_queue_action scripted 0 queueing_found_album)) 0
     = [("action", VStr "add"); ("track_id", VStr "spotify:album:album123")].
Proof.
  exact (proj1 (queue_reference_resolved scripted 0 queueing_found_album)
           (VStr "spotify:album:album123") eq_refl eq_refl eq_refl).
Defined.

(** X15 on a playback step that starts the song found. *)
Lemma playback_reference_resolved_witness :
  sends "SpotifyPlayback" 0 1 playing_found_song
    (snd (handle_playback_action scripted 0 playing_found_song))
  /\ heap (snd (handle_playback_action scripted 0 playing_found_song)) 0
     = [("action", VStr "start"); ("spotify_uri", VStr "spotify:track:track123")].
Proof.
  exact (proj1 (playback_reference_resolved scripted 0 playing_found_song)
           (VStr "spotify:track:track123") true eq_refl eq_refl eq_refl eq_refl eq_refl).
Defined.

(** X16 on a queue step that queues the album found. *)
Lemma queue_outcomes_witness :
  handle_queue_action scripted 0 queueing_found_album
  = (Ok [("action", VStr "queue");
         ("message", VStr "Added album Test Album by Test Artist to queue");
         ("item", VDict album_found)],
     snd (call_tool_with_retry scripted "SpotifyQueue" 0 MAX_RETRIES
            (resolving 0 "track_id" (VStr "spotify:album:album123")
               queueing_found_album))).
Proof.
  exact (proj2 (proj2 (queue_outcomes scripted 0 queueing_found_album
                         (snd (call_tool_with_retry scripted "SpotifyQueue" 0 MAX_RETRIES
                                 (resolving 0 "track_id" (VStr "spotify:album:album123")
                                    queueing_found_album)))
                         (VStr "spotify:album:album123")
                         (mk_tool_result false [TextContent "ok"])
                         eq_refl (fun _ => eq_refl) eq_refl))
           eq_refl album_found (VStr "album") (VStr "Test Album") (VStr "Test Artist")
           eq_refl eq_refl eq_refl eq_refl).
Defined.

(** X17 on a playback step that starts the song found. *)
Lemma playback_outcomes_witness :
  handle_playback_action scripted 0 playing_found_song
  = (Ok [("action", VStr "playback"); ("type", VStr "start");
         ("message", VStr "Playing track Test Song by Artist X");
         ("item", VDict song_found)],
     snd (call_tool_with_retry scripted "SpotifyPlayback" 0 MAX_RETRIES
            (playing 0 (VStr "spotify:track:track123") true playing_found_song))).
Proof.
  exact (proj1 (proj2 (proj2 (proj2 (proj2
           (playback_outcomes scripted 0 playing_found_song
              (snd (call_tool_with_retry scripted "SpotifyPlayback" 0 MAX_RETRIES
                      (playing 0 (VStr "spotify:track:track123") true
                         playing_found_song)))
              (VStr "spotify:track:track123") true
              (mk_tool_result false [TextContent "ok"])
              (fun _ _ => conj eq_refl eq_refl) eq_refl)
           eq_refl))))
           eq_refl song_found (VStr "track") (VStr "Test Song") (VStr "Artist X")
           eq_refl eq_refl eq_refl eq_refl).
Defined.

(** X18 on a search that succeeded and a playback that was refused. *)
Lemma formatter_answers_witness :
  exists d, format_final_response [found_song; refused] = Ok d /\ response_ok d.
Proof.
  exact (formatter_answers [found_song; refused] ltac:(discriminate)
           (Forall_cons found_song (I : says_text found_song)
              (Forall_cons refused (I : says_text refused) (Forall_nil _)))).
Defined.

(** X20 on the same two steps, run by the executor. *)
Lemma finished_runs_are_formatted_witness :
  exists d,
    format_final_response [found_song; refused] = Ok d
    /\ execute_spotify_actions scripted search_then_play refused_playback
       = (Ok d,
          with_trace scripted
            (snd (run_actions scripted (execute_single_action scripted)
                    search_then_play [] (entered refused_playback)))
            (trace (snd (run_actions scripted (execute_single_action scripted)
                           search_then_play [] (entered refused_playback)))
               ++ [EvFormat])).
Proof.
  exact (finished_runs_are_formatted scripted search_then_play refused_playback
           (snd (run_actions scripted (execute_single_action scripted)
                   search_then_play [] (entered refused_playback)))
           (Finished [found_song; refused]) ltac:(discriminate) eq_refl).
Defined.

(** X21 on a change of details that names nothing to change. *)
Lemma playlist_calls_when_ready_witness :
  snd (handle_playlist_action scripted 0 renaming_nothing) = renaming_nothing
  /\ exists msg,
       fst (handle_playlist_action scripted 0 renaming_nothing) = Ok (error_record msg).
Proof.
  exact (proj2 (playlist_calls_when_ready scripted 0 renaming_nothing) eq_refl).
Defined.

(** X22 on a listing that the server answers without any content. *)
Lemma playlist_listings_witness :
  handle_playlist_action scripted 0 listing_playlists
  = (Ok [("action", VStr "playlist_get"); ("message", VStr "Found 0 playlists");
         ("playlists", VDict [])],
     snd (call_tool_with_retry scripted "SpotifyPlaylist" 0 MAX_RETRIES
            listing_playlists)).
Proof.
  exact (proj1 (proj1 (playlist_listings scripted 0 listing_playlists
                         (snd (call_tool_with_retry scripted "SpotifyPlaylist" 0
                                 MAX_RETRIES listing_playlists))
                         (mk_tool_result false []) eq_refl eq_refl)
                  eq_refl)
           (VDict []) 0 eq_refl eq_refl).
Defined.

(** X25 on a reply that holds one action. *)
Lemma valid_replies_are_accepted_witness :
  parse_llm_response scripted pause_reply = Ok (VList [pause_action]).
Proof.
  exact (proj1 (valid_replies_are_accepted scripted pause_reply eq_refl)
           [pause_action] eq_refl
           (Forall_cons _
              (ex_intro _ [("tool_name", VStr "SpotifyPlayback");
                           ("params", VDict [("action", VStr "pause")])]
                 (conj eq_refl (conj eq_refl eq_refl)))
              (Forall_nil _))).
Defined.

(** X26 on a reply whose action has no [params]. *)
Lemma invalid_replies_are_rejected_witness :
  exists e,
    invalid_action e
    /\ parse_llm_response scripted truncated_reply = Raise e
    /\ forall completion command,
         completion command = Ok truncated_reply ->
         parse_command_with_llm scripted completion command
         = Ok (error_value ("Failed to parse command: " ++ exn_msg e))
         /\ returned_unexecuted
              (error_value ("Failed to parse command: " ++ exn_msg e)) = Ok true.
Proof.
  refine (invalid_replies_are_rejected scripted truncated_reply
            (VList [truncated_action]) eq_refl eq_refl eq_refl
            (Exists_cons_hd _ _ _ _)).
  intros (d & Hd & _ & Hparams). injection Hd as <-. discriminate Hparams.
Defined.

(** X28 on a search for a song and the playback step that starts it. *)
Lemma search_feeds_the_next_step_witness :
  heap (snd (step scripted (execute_single_action scripted)
               (mk_action "SpotifyPlayback" 1)
               (snd (step scripted (execute_single_action scripted)
                       (mk_action "SpotifySearch" 0)
                       (entered refused_playback))))) 1
  = [("action", VStr "start"); ("spotify_uri", VStr "spotify:track:track123")].
Proof.
  destruct (search_feeds_the_next_step scripted
              (mk_action "SpotifySearch" 0) (mk_action "SpotifyPlayback" 1)
              (entered refused_playback)
              (snd (step scripted (execute_single_action scripted)
                      (mk_action "SpotifySearch" 0) (entered refused_playback)))
              found_song eq_refl eq_refl)
    as (kind & name & item_id & artist & _ & Hfound & Hplay & _).
  assert (Huri : VStr "spotify:track:track123"
                 = VStr ("spotify:" ++ kind ++ ":" ++ py_str scripted item_id))
    by exact (f_equal
                (fun d => py_get (match py_get d "result" with
                                  | VDict sr => sr
                                  | _ => []
                                  end) "uri") Hfound).
  etransitivity; [exact (Hplay eq_refl eq_refl eq_refl)|].
  rewrite <- Huri. reflexivity.
Defined.
